(** * TOTP seed service: a shallow embedding of [app.py] and its properties

    The service decrypts an RSA-OAEP encrypted seed, validates it, stores it
    in a single file and derives 30-second TOTP codes from it.  This file
    embeds the helpers and endpoints of [app.py] as Rocq functions and states
    the properties of the specification over them.

    Conventions.
    - A Python [str] is the list of its code points, a [bytes] object the
      list of its byte values, both as [Z].
    - A Python call that may raise is a function into [result]: [Return v]
      or [Raise e], with [e] the exception object.
    - The file system and the clock are explicit arguments. *)

From Stdlib Require Import ZArith Lia List String Ascii DecimalString.
From Stdlib Require Import Decimal DecimalFacts DecimalPos DecimalZ.
From stdpp Require Import base option list gmap.

Open Scope Z_scope.

(** ** Python values *)

Abbreviation str := (list Z).
Abbreviation bytes := (list Z).

(** A literal of the source, as code points. *)
Definition lit (s : string) : str :=
  map (fun a => Z.of_nat (nat_of_ascii a)) (list_ascii_of_string s).

(** The literal ["\n"]. *)
Definition newline : str := [10].

(** [str(n)] for an integer: its decimal digits. *)
Definition str_of_int (n : Z) : str := lit (NilZero.string_of_int (Z.to_int n)).

(** Exceptions of the run-time library that the service raises or meets.
    [UnicodeDecodeError], [UnicodeEncodeError] and [BinasciiError] are
    subclasses of [ValueError]; the four file errors are subclasses of
    [OSError].  [RuntimeErrorFrom] is a [RuntimeError] whose message is
    [msg] followed by [str(cause)]. *)
Inductive exn : Type :=
| FileNotFoundError (msg : str)
| FileExistsError
| IsADirectoryError
| NotADirectoryError
| ValueError (msg : str)
| UnicodeDecodeError (data : bytes)
| UnicodeEncodeError (text : str)
| BinasciiError (msg : str)
| RuntimeError (msg : str)
| RuntimeErrorFrom (msg : str) (cause : exn).

(** [isinstance(e, ValueError)], as an [except ValueError] clause tests it. *)
Definition is_ValueError (e : exn) : bool :=
  match e with
  | ValueError _ | UnicodeDecodeError _ | UnicodeEncodeError _ | BinasciiError _ => true
  | _ => false
  end.

(** [isinstance(e, FileNotFoundError)]. *)
Definition is_FileNotFoundError (e : exn) : bool :=
  match e with
  | FileNotFoundError _ => true
  | _ => false
  end.

Inductive result (A : Type) : Type :=
| Return (a : A)
| Raise (e : exn).
Arguments Return {A} a.
Arguments Raise {A} e.

#[global] Instance result_ret : MRet result := @Return.
#[global] Instance result_bind : MBind result := fun A B f r =>
  match r with
  | Return a => f a
  | Raise e => Raise e
  end.
#[global] Instance result_fmap : FMap result := fun A B f r =>
  match r with
  | Return a => Return (f a)
  | Raise e => Raise e
  end.

(** ** The file system

    Regular files hold the text that Python's text layer wrote to them,
    encoded as UTF-8; directories are a set of paths.  Paths are compared
    as written (no symbolic links, no second spelling of one path). *)

Record fs : Type := Fs {
  files : gmap str str;
  dirs : gset str
}.

(** Code that reads and changes the file system: the outcome of the call
    and the file system it leaves, also when it raises. *)
Definition io (A : Type) : Type := fs -> result A * fs.

#[global] Instance io_ret : MRet io := fun A a σ => (Return a, σ).
#[global] Instance io_bind : MBind io := fun A B f m σ =>
  match m σ with
  | (Return a, σ') => f a σ'
  | (Raise e, σ') => (Raise e, σ')
  end.

(** ** [str] methods *)

Module PyStr.

(** [str.isspace] on one character: the white-space table of the Unicode
    database (bidirectional class WS, B or S, or category Zs). *)
Definition isspace (c : Z) : bool :=
  ((9 <=? c) && (c <=? 13)) || ((28 <=? c) && (c <=? 32))
  || (c =? 0x85) || (c =? 0xA0) || (c =? 0x1680)
  || ((0x2000 <=? c) && (c <=? 0x200A))
  || (c =? 0x2028) || (c =? 0x2029) || (c =? 0x202F)
  || (c =? 0x205F) || (c =? 0x3000).

Fixpoint lstrip (s : str) : str :=
  match s with
  | c :: s' => if isspace c then lstrip s' else s
  | [] => []
  end.

Definition rstrip (s : str) : str := rev (lstrip (rev s)).

(** [s.strip()]: leading white space is dropped, then trailing. *)
Definition strip (s : str) : str := rstrip (lstrip s).

(** [s.replace(old, "")] for a one-character [old]. *)
Definition remove_char (old : Z) (s : str) : str :=
  List.filter (fun c => negb (c =? old)) s.

(** A character of [0-9a-fA-F]. *)
Definition is_hex_digit (c : Z) : bool :=
  ((48 <=? c) && (c <=? 57)) || ((97 <=? c) && (c <=? 102))
  || ((65 <=? c) && (c <=? 70)).

End PyStr.

(** ** UTF-8 *)

Module Utf8.

Definition continuation (b : Z) : bool := (0x80 <=? b) && (b <=? 0xBF).

(** The well-formed byte sequences of UTF-8: shortest form only, no
    surrogates, nothing above U+10FFFF. *)
Fixpoint decode_opt (bs : bytes) : option str :=
  match bs with
  | [] => Some []
  | b0 :: r0 =>
      if (0 <=? b0) && (b0 <? 0x80) then cons b0 <$> decode_opt r0
      else if (0xC2 <=? b0) && (b0 <=? 0xDF) then
        match r0 with
        | b1 :: r1 =>
            if continuation b1
            then cons ((b0 - 0xC0) * 64 + (b1 - 0x80)) <$> decode_opt r1
            else None
        | _ => None
        end
      else if (0xE0 <=? b0) && (b0 <=? 0xEF) then
        match r0 with
        | b1 :: b2 :: r2 =>
            if ((if b0 =? 0xE0 then 0xA0 else 0x80) <=? b1)
               && (b1 <=? (if b0 =? 0xED then 0x9F else 0xBF))
               && continuation b2
            then cons ((b0 - 0xE0) * 4096 + (b1 - 0x80) * 64 + (b2 - 0x80))
                   <$> decode_opt r2
            else None
        | _ => None
        end
      else if (0xF0 <=? b0) && (b0 <=? 0xF4) then
        match r0 with
        | b1 :: b2 :: b3 :: r3 =>
            if ((if b0 =? 0xF0 then 0x90 else 0x80) <=? b1)
               && (b1 <=? (if b0 =? 0xF4 then 0x8F else 0xBF))
               && continuation b2 && continuation b3
            then cons ((b0 - 0xF0) * 262144 + (b1 - 0x80) * 4096
                       + (b2 - 0x80) * 64 + (b3 - 0x80))
                   <$> decode_opt r3
            else None
        | _ => None
        end
      else None
  end.

(** [bs.decode("utf-8")]. *)
Definition decode (bs : bytes) : result str :=
  match decode_opt bs with
  | Some s => Return s
  | None => Raise (UnicodeDecodeError bs)
  end.

(** A surrogate code point: a Python [str] may hold one, UTF-8 has no
    encoding for it. *)
Definition surrogate (c : Z) : bool := (0xD800 <=? c) && (c <=? 0xDFFF).

(** The encoding of one code point. *)
Definition encode_char (c : Z) : option bytes :=
  if c <? 0x80 then Some [c]
  else if c <? 0x800 then Some [0xC0 + c / 64; 0x80 + c mod 64]
  else if surrogate c then None
  else if c <? 0x10000
       then Some [0xE0 + c / 4096; 0x80 + c / 64 mod 64; 0x80 + c mod 64]
       else Some [0xF0 + c / 262144; 0x80 + c / 4096 mod 64;
                  0x80 + c / 64 mod 64; 0x80 + c mod 64].

Fixpoint encode_opt (s : str) : option bytes :=
  match s with
  | [] => Some []
  | c :: s' =>
      match encode_char c, encode_opt s' with
      | Some b, Some bs => Some (b ++ bs)
      | _, _ => None
      end
  end.

(** [s.encode("utf-8")]. *)
Definition encode (s : str) : result bytes :=
  match encode_opt s with
  | Some bs => Return bs
  | None => Raise (UnicodeEncodeError s)
  end.

End Utf8.

(** ** Calls of [os] and of file objects *)

Module Os.

Definition sep : Z := 47.

Definition is_file (σ : fs) (p : str) : bool :=
  match files σ !! p with
  | Some _ => true
  | None => false
  end.

(** The root (a non-empty run of separators) always exists. *)
Definition is_root (p : str) : bool :=
  match p with
  | [] => false
  | _ => forallb (Z.eqb sep) p
  end.

Definition isdir (σ : fs) (p : str) : bool :=
  is_root p || bool_decide (p ∈ dirs σ).

(** [os.path.exists(p)]. *)
Definition path_exists (σ : fs) (p : str) : bool :=
  is_file σ p || isdir σ p.

(** [p.rfind("/") + 1], as a number of characters to keep: the length of
    the longest prefix of [p] that ends with a separator. *)
Fixpoint rfind_sep_end (p : str) : nat :=
  match p with
  | [] => 0
  | c :: p' =>
      match rfind_sep_end p' with
      | S k => S (S k)
      | O => if c =? sep then 1%nat else 0%nat
      end
  end.

Fixpoint lstrip_sep (s : str) : str :=
  match s with
  | c :: s' => if c =? sep then lstrip_sep s' else s
  | [] => []
  end.

(** [head.rstrip("/")]. *)
Definition rstrip_sep (s : str) : str := rev (lstrip_sep (rev s)).

(** [os.path.dirname] of [posixpath]: the part before the last separator,
    without its trailing separators unless it consists of them. *)
Definition dirname (p : str) : str :=
  let head := take (rfind_sep_end p) p in
  if is_root head then head else rstrip_sep head.

(** The proper ancestors of a path: its non-empty prefixes that stand
    before a separator. *)
Fixpoint ancestors_from (pre p : str) : list str :=
  match p with
  | [] => []
  | c :: p' =>
      (if (c =? sep) && negb (bool_decide (pre = [])) then [pre] else [])
      ++ ancestors_from (pre ++ [c]) p'
  end.

Definition ancestors (p : str) : list str := ancestors_from [] p.

Definition enoent : exn := FileNotFoundError (lit "No such file or directory").

(** [os.makedirs(d, exist_ok=True)]: creates [d] and its missing ancestors;
    an existing directory is accepted, a regular file in the way is not. *)
Definition makedirs (d : str) : io unit := fun σ =>
  match d with
  | [] => (Raise enoent, σ)
  | _ =>
      if existsb (is_file σ) (ancestors d) then (Raise NotADirectoryError, σ)
      else if is_file σ d then (Raise FileExistsError, σ)
      else (Return (), Fs (files σ) (list_to_set (d :: ancestors d) ∪ dirs σ))
  end.

(** [open(p, "w")]: the file is created, or truncated when it exists. *)
Definition open_w (p : str) : io unit := fun σ =>
  let d := dirname p in
  if isdir σ p then (Raise IsADirectoryError, σ)
  else if is_file σ d then (Raise NotADirectoryError, σ)
  else if bool_decide (d = []) || isdir σ d
       then (Return (), Fs (<[p := []]> (files σ)) (dirs σ))
       else (Raise enoent, σ).

(** [f.write(chunk)] on a file opened for writing: the text layer encodes
    [chunk], raising before anything is written when that fails, and the
    text is appended. *)
Definition write (p chunk : str) : io unit := fun σ =>
  match Utf8.encode chunk with
  | Raise e => (Raise e, σ)
  | Return _ => (Return (), Fs (alter (fun c => c ++ chunk) p (files σ)) (dirs σ))
  end.

(** [os.replace(src, dst)]: in one step [dst] becomes the file [src] was. *)
Definition replace (src dst : str) : io unit := fun σ =>
  match files σ !! src with
  | None => (Raise enoent, σ)
  | Some c =>
      if isdir σ dst then (Raise IsADirectoryError, σ)
      else (Return (), Fs (<[dst := c]> (delete src (files σ))) (dirs σ))
  end.

(** The line endings of a text as the text layer reads them: a carriage
    return, with the line feed that follows it if there is one, is read as
    one line feed. *)
Fixpoint universal_newlines (s : str) : str :=
  match s with
  | [] => []
  | c :: s' =>
      if c =? 13
      then 10 :: match s' with
                 | d :: s'' =>
                     if d =? 10 then universal_newlines s'' else universal_newlines s'
                 | [] => []
                 end
      else c :: universal_newlines s'
  end.

(** [open(p, "r")] followed by [f.read()]. *)
Definition read_text (p : str) (σ : fs) : result str :=
  match files σ !! p with
  | Some c => Return (universal_newlines c)
  | None => if isdir σ p then Raise IsADirectoryError else Raise enoent
  end.

(** The calls of a save as the system sees them, one at a time. *)
Inductive syscall : Type :=
| Makedirs (d : str)
| OpenW (p : str)
| Write (p chunk : str)
| Replace (src dst : str).

Definition exec (c : syscall) : io unit :=
  match c with
  | Makedirs d => makedirs d
  | OpenW p => open_w p
  | Write p chunk => write p chunk
  | Replace src dst => replace src dst
  end.

(** Runs the calls in order and stops at the first that raises. *)
Fixpoint run (cs : list syscall) : io unit :=
  match cs with
  | [] => mret ()
  | c :: cs' => exec c ≫= fun _ => run cs'
  end.

(** The files a call may change. *)
Definition writes_to (c : syscall) (p : str) : Prop :=
  match c with
  | Makedirs _ => False
  | OpenW q | Write q _ => q = p
  | Replace src dst => src = p \/ dst = p
  end.

End Os.

(** ** Hexadecimal and base32, as [bytes.fromhex] and [base64] compute them *)

Module Codec.

(** [Py_ISSPACE]: the white space of ASCII. *)
Definition Py_ISSPACE (c : Z) : bool := ((9 <=? c) && (c <=? 13)) || (c =? 32).

(** [_PyLong_DigitValue[c]] when it is below 16. *)
Definition hex_value (c : Z) : option Z :=
  if (48 <=? c) && (c <=? 57) then Some (c - 48)
  else if (97 <=? c) && (c <=? 102) then Some (c - 87)
  else if (65 <=? c) && (c <=? 70) then Some (c - 55)
  else None.

Definition fromhex_error : exn :=
  ValueError (lit "non-hexadecimal number found in fromhex() arg").

(** [bytes.fromhex(s)]: pairs of hexadecimal digits; white space of ASCII is
    skipped before each pair, not inside one. *)
Fixpoint fromhex (s : str) : result bytes :=
  match s with
  | [] => Return []
  | c :: s' =>
      if Py_ISSPACE c then fromhex s'
      else match hex_value c, s' with
           | Some top, d :: s'' =>
               match hex_value d with
               | Some bot => cons (Z.shiftl top 4 + bot) <$> fromhex s''
               | None => Raise fromhex_error
               end
           | _, _ => Raise fromhex_error
           end
  end.

Definition b32alphabet : bytes := lit "ABCDEFGHIJKLMNOPQRSTUVWXYZ234567".
Definition pad_char : Z := 61.

Definition b32tab (i : Z) : Z := nth (Z.to_nat i) b32alphabet 0.

(** The table of character pairs, [a + b for a in b32tab for b in b32tab]. *)
Definition b32tab2 (i : Z) : bytes := [b32tab (i / 32); b32tab (i mod 32)].

(** [int.from_bytes(bs)], big endian. *)
Definition from_bytes (bs : bytes) : Z := fold_left (fun acc b => acc * 256 + b) bs 0.

(** [from_bytes(s[i:i+5]) for i in range(0, len(s), 5)]. *)
Fixpoint quanta (s : bytes) : list Z :=
  match s with
  | [] => []
  | b0 :: b1 :: b2 :: b3 :: b4 :: r => from_bytes [b0; b1; b2; b3; b4] :: quanta r
  | _ => [from_bytes s]
  end.

Definition encode_quantum (c : Z) : bytes :=
  b32tab2 (Z.shiftr c 30) ++ b32tab2 (Z.land (Z.shiftr c 20) 0x3ff)
  ++ b32tab2 (Z.land (Z.shiftr c 10) 0x3ff) ++ b32tab2 (Z.land c 0x3ff).

(** [encoded[-n:] = b"=" * n]. *)
Definition set_tail (n : nat) (encoded : bytes) : bytes :=
  take (length encoded - n) encoded ++ repeat pad_char n.

(** [base64.b32encode(s)]. *)
Definition b32encode (s : bytes) : bytes :=
  let leftover := (length s mod 5)%nat in
  let s := if (leftover =? 0)%nat then s else s ++ repeat 0 (5 - leftover) in
  let encoded := flat_map encode_quantum (quanta s) in
  match leftover with
  | 1 => set_tail 6 encoded
  | 2 => set_tail 4 encoded
  | 3 => set_tail 3 encoded
  | 4 => set_tail 1 encoded
  | _ => encoded
  end%nat.

Fixpoint index_of (c : Z) (l : list Z) : option Z :=
  match l with
  | [] => None
  | x :: l' => if c =? x then Some 0 else Z.succ <$> index_of c l'
  end.

(** [b32rev[c]], [None] for a [KeyError]. *)
Definition b32rev (c : Z) : option Z := index_of c b32alphabet.

(** [bytes.upper] on one byte. *)
Definition upper (c : Z) : Z := if (97 <=? c) && (c <=? 122) then c - 32 else c.

Fixpoint lstrip_pad (r : bytes) : bytes :=
  match r with
  | c :: r' => if c =? pad_char then lstrip_pad r' else r
  | [] => []
  end.

(** [s.rstrip(b"=")]. *)
Definition rstrip_pad (s : bytes) : bytes := rev (lstrip_pad (rev s)).

(** [for c in quanta: acc = (acc << 5) + b32rev[c]]. *)
Fixpoint accumulate (q : bytes) (acc : Z) : option Z :=
  match q with
  | [] => Some acc
  | c :: q' =>
      match b32rev c with
      | Some v => accumulate q' (Z.shiftl acc 5 + v)
      | None => None
      end
  end.

(** [n.to_bytes(5)], big endian. *)
Definition to_bytes5 (n : Z) : bytes :=
  map (fun i => Z.land (Z.shiftr n (8 * (4 - i))) 255) (seqZ 0 5).

Definition non_digit : exn := BinasciiError (lit "Non-base32 digit found").
Definition bad_padding : exn := BinasciiError (lit "Incorrect padding").

(** The loop over [s[i:i+8]]: the bytes decoded so far and the last [acc]. *)
Fixpoint decode_quanta (s : bytes) (decoded : bytes) (acc : Z) : result (bytes * Z) :=
  match s with
  | [] => Return (decoded, acc)
  | c0 :: c1 :: c2 :: c3 :: c4 :: c5 :: c6 :: c7 :: r =>
      match accumulate [c0; c1; c2; c3; c4; c5; c6; c7] 0 with
      | Some acc => decode_quanta r (decoded ++ to_bytes5 acc) acc
      | None => Raise non_digit
      end
  | _ =>
      match accumulate s 0 with
      | Some acc => Return (decoded ++ to_bytes5 acc, acc)
      | None => Raise non_digit
      end
  end.

(** The last, partial quantum: [if padchars and decoded:] the last five
    octets become the leading [leftover] octets of the shifted [acc]. *)
Definition fix_last_quantum (padchars : nat) (decoded : bytes) (acc : Z) : bytes :=
  match padchars, decoded with
  | O, _ | _, [] => decoded
  | _, _ =>
      let acc := Z.shiftl acc (5 * Z.of_nat padchars) in
      let last := to_bytes5 acc in
      let leftover := ((43 - 5 * padchars) / 8)%nat in
      take (length decoded - 5) decoded ++ take leftover last
  end.

(** [base64.b32decode(s, casefold=True)] for a [str] argument. *)
Definition b32decode (s : str) : result bytes :=
  if negb (forallb (fun c => (0 <=? c) && (c <? 128)) s)
  then Raise (ValueError (lit "string argument should contain only ASCII characters"))
  else if negb (length s mod 8 =? 0)%nat then Raise bad_padding
  else
    let s := map upper s in
    let l := length s in
    let s := rstrip_pad s in
    let padchars := (l - length s)%nat in
    '(decoded, acc) ← decode_quanta s [] 0;
    if negb (l mod 8 =? 0)%nat || negb (bool_decide (padchars ∈ [0; 1; 3; 4; 6]%nat))
    then Raise bad_padding
    else Return (fix_last_quantum padchars decoded acc).

End Codec.

(** ** Base32 as RFC 4648 words it

    The octets are read as one stream of bits, most significant first; the
    stream is cut into groups of five bits, the last group filled with zero
    bits; each group selects a character of the alphabet.  (The padding
    characters that would follow are left out.) *)

Module Rfc4648.

Definition bit (b : Z) (k : Z) : Z := (b / 2 ^ k) mod 2.

Definition octet_bits (b : Z) : list Z :=
  [bit b 7; bit b 6; bit b 5; bit b 4; bit b 3; bit b 2; bit b 1; bit b 0].

Definition bit_stream (bs : bytes) : list Z := flat_map octet_bits bs.

Definition group_value (x4 x3 x2 x1 x0 : Z) : Z :=
  16 * x4 + 8 * x3 + 4 * x2 + 2 * x1 + x0.

Fixpoint groups (bits : list Z) : list Z :=
  match bits with
  | [] => []
  | x4 :: x3 :: x2 :: x1 :: x0 :: r => group_value x4 x3 x2 x1 x0 :: groups r
  | [x4; x3; x2; x1] => [group_value x4 x3 x2 x1 0]
  | [x4; x3; x2] => [group_value x4 x3 x2 0 0]
  | [x4; x3] => [group_value x4 x3 0 0 0]
  | [x4] => [group_value x4 0 0 0 0]
  end.

Definition base32_unpadded (bs : bytes) : str :=
  map Codec.b32tab (groups (bit_stream bs)).

End Rfc4648.

(** ** SHA-1 and HMAC, as [hashlib] and [hmac] compute them *)

Module Sha1.

Definition mask32 : Z := 0xFFFFFFFF.
Definition add32 (x y : Z) : Z := Z.land (x + y) mask32.
Definition rotl (n x : Z) : Z :=
  Z.land (Z.lor (Z.shiftl x n) (Z.shiftr x (32 - n))) mask32.
Definition not32 (x : Z) : Z := Z.lxor x mask32.

(** The message, the bit 1, zero bits up to 56 modulo 64 octets, and the
    length in bits on eight octets. *)
Definition pad (msg : bytes) : bytes :=
  let l := Z.of_nat (length msg) in
  let k := (55 - l) mod 64 in
  let bits := 8 * l in
  msg ++ [0x80] ++ repeat 0 (Z.to_nat k)
      ++ map (fun i => Z.land (Z.shiftr bits (8 * (7 - i))) 255) (seqZ 0 8).

Fixpoint words (bs : bytes) : list Z :=
  match bs with
  | b0 :: b1 :: b2 :: b3 :: r =>
      Z.lor (Z.lor (Z.lor (Z.shiftl b0 24) (Z.shiftl b1 16)) (Z.shiftl b2 8)) b3
      :: words r
  | _ => []
  end.

(** The message schedule, its last word first: [n] more words. *)
Fixpoint schedule (n : nat) (w : list Z) : list Z :=
  match n with
  | O => w
  | S n' =>
      let x := Z.lxor (Z.lxor (Z.lxor (nth 2 w 0) (nth 7 w 0)) (nth 13 w 0)) (nth 15 w 0) in
      schedule n' (rotl 1 x :: w)
  end.

Definition f (t : nat) (b c d : Z) : Z :=
  if (t <? 20)%nat then Z.lor (Z.land b c) (Z.land (not32 b) d)
  else if (t <? 40)%nat then Z.lxor (Z.lxor b c) d
  else if (t <? 60)%nat then Z.lor (Z.lor (Z.land b c) (Z.land b d)) (Z.land c d)
  else Z.lxor (Z.lxor b c) d.

Definition K (t : nat) : Z :=
  if (t <? 20)%nat then 0x5A827999
  else if (t <? 40)%nat then 0x6ED9EBA1
  else if (t <? 60)%nat then 0x8F1BBCDC
  else 0xCA62C1D6.

Record state : Type := St { ha : Z; hb : Z; hc : Z; hd : Z; he : Z }.

Definition round (s : state) (tw : nat * Z) : state :=
  let '(t, w) := tw in
  let temp :=
    add32 (add32 (add32 (add32 (rotl 5 (ha s)) (f t (hb s) (hc s) (hd s))) (he s)) w) (K t) in
  St temp (ha s) (rotl 30 (hb s)) (hc s) (hd s).

Definition compress (h : state) (block : bytes) : state :=
  let w := rev (schedule 64 (rev (words block))) in
  let s := fold_left round (combine (seq 0 80) w) h in
  St (add32 (ha h) (ha s)) (add32 (hb h) (hb s)) (add32 (hc h) (hc s))
     (add32 (hd h) (hd s)) (add32 (he h) (he s)).

Fixpoint blocks (n : nat) (bs : bytes) (h : state) : state :=
  match n with
  | O => h
  | S n' => blocks n' (drop 64 bs) (compress h (take 64 bs))
  end.

Definition init : state :=
  St 0x67452301 0xEFCDAB89 0x98BADCFE 0x10325476 0xC3D2E1F0.

Definition word_bytes (w : Z) : bytes :=
  [Z.shiftr w 24; Z.land (Z.shiftr w 16) 255; Z.land (Z.shiftr w 8) 255; Z.land w 255].

(** [hashlib.sha1(msg).digest()]. *)
Definition sha1 (msg : bytes) : bytes :=
  let p := pad msg in
  let h := blocks (length p / 64) p init in
  word_bytes (ha h) ++ word_bytes (hb h) ++ word_bytes (hc h)
  ++ word_bytes (hd h) ++ word_bytes (he h).

End Sha1.

Module Hmac.

Definition block_size : nat := 64.

(** [hmac.new(key, msg, hashlib.sha1).digest()]. *)
Definition hmac_sha1 (key msg : bytes) : bytes :=
  let key := if (block_size <? length key)%nat then Sha1.sha1 key else key in
  let key := key ++ repeat 0 (block_size - length key) in
  let inner := Sha1.sha1 (map (Z.lxor 0x36) key ++ msg) in
  Sha1.sha1 (map (Z.lxor 0x5C) key ++ inner).

End Hmac.

(** ** What the service takes from its platform

    The Unicode database, the [cryptography] package, [base64.b64decode] and
    the key file are not part of the repository: the service is stated over
    any of them. *)

Class Unicode : Type := {
  (** [c.lower()] for a character outside ASCII. *)
  unicode_lower : Z -> str;
  (** [unicodedata.normalize("NFKC", s)]. *)
  nfkc : str -> str
}.

Class Crypto : Type := {
  private_key : Type;
  (** The bytes of a file opened with ["rb"]. *)
  read_binary : str -> result bytes;
  (** [serialization.load_pem_private_key(data, password=None)]. *)
  load_pem_private_key : bytes -> result private_key;
  (** [key.decrypt(ciphertext, OAEP(MGF1(SHA256()), SHA256(), None))]. *)
  oaep_sha256_decrypt : private_key -> bytes -> result bytes;
  (** [base64.b64decode(s)]. *)
  b64decode : str -> result bytes
}.

(** ** [pyotp.TOTP] with its defaults: six digits, SHA-1, steps of 30 s *)

Module Pyotp.

Definition digits : Z := 6.
Definition interval : Z := 30.

(** [byte_secret()]: the secret padded to a multiple of eight characters and
    decoded as base32. *)
Definition byte_secret (secret : str) : result bytes :=
  let missing_padding := (length secret mod 8)%nat in
  let secret :=
    if negb (missing_padding =? 0)%nat
    then secret ++ repeat Codec.pad_char (8 - missing_padding)
    else secret in
  Codec.b32decode secret.

(** The loop of [int_to_bytestring]: the octets of [i], least significant
    first; [fuel] bounds the iterations. *)
Fixpoint le_bytes (fuel : nat) (i : Z) : bytes :=
  match fuel with
  | O => []
  | S fuel' => if i =? 0 then [] else Z.land i 0xFF :: le_bytes fuel' (Z.shiftr i 8)
  end.

(** [bs.rjust(width, fill)]. *)
Definition rjust (width : nat) (fill : Z) (bs : bytes) : bytes :=
  repeat fill (width - length bs) ++ bs.

(** [int_to_bytestring(i)] for [0 <= i]: big endian on eight octets or more. *)
Definition int_to_bytestring (i : Z) : bytes :=
  rjust 8 0 (rev (le_bytes (Z.to_nat (Z.log2 i + 1)) i)).

Definition item (l : bytes) (i : Z) : Z := nth (Z.to_nat i) l 0.

(** [generate_otp(input)]. *)
Definition generate_otp (secret : str) (input : Z) : result str :=
  if input <? 0 then Raise (ValueError (lit "input must be positive integer"))
  else
    key ← byte_secret secret;
    let hmac_hash := Hmac.hmac_sha1 key (int_to_bytestring input) in
    let offset := Z.land (List.last hmac_hash 0) 0xF in
    let code :=
      Z.lor (Z.lor (Z.lor
        (Z.shiftl (Z.land (item hmac_hash offset) 0x7F) 24)
        (Z.shiftl (Z.land (item hmac_hash (offset + 1)) 0xFF) 16))
        (Z.shiftl (Z.land (item hmac_hash (offset + 2)) 0xFF) 8))
        (Z.land (item hmac_hash (offset + 3)) 0xFF) in
    let str_code := str_of_int (10000000000 + code mod 10 ^ digits) in
    Return (drop (length str_code - Z.to_nat digits) str_code).

(** [timecode(for_time)] for the time [now], in seconds since the epoch:
    [int(seconds / interval)], which rounds towards zero. *)
Definition timecode (now : Z) : Z := Z.quot now interval.

(** [at(for_time, counter_offset)]. *)
Definition at_time (secret : str) (for_time counter_offset : Z) : result str :=
  generate_otp secret (timecode for_time + counter_offset).

(** [now()], the clock reading [for_time]. *)
Definition now (secret : str) (for_time : Z) : result str :=
  generate_otp secret (timecode for_time).

Section Verify.
Context `{Unicode}.

(** [utils.strings_equal(s1, s2)]: the normal forms are encoded as UTF-8,
    and [compare_digest] compares the octets. *)
Definition strings_equal (s1 s2 : str) : result bool :=
  b1 ← Utf8.encode (nfkc s1);
  b2 ← Utf8.encode (nfkc s2);
  Return (bool_decide (b1 = b2)).

(** [for i in offsets: if strings_equal(otp, at(for_time, i)): return True],
    then [return False]. *)
Fixpoint verify_loop (secret otp : str) (for_time : Z) (offsets : list Z) : result bool :=
  match offsets with
  | [] => Return false
  | i :: offsets' =>
      c ← at_time secret for_time i;
      strings_equal otp c ≫= fun matched : bool =>
      if matched then Return true
      else verify_loop secret otp for_time offsets'
  end.

(** [verify(otp, valid_window=valid_window)], the clock reading [for_time]. *)
Definition verify (secret otp : str) (for_time valid_window : Z) : result bool :=
  if negb (valid_window =? 0)
  then verify_loop secret otp for_time (seqZ (- valid_window) (2 * valid_window + 1))
  else at_time secret for_time 0 ≫= strings_equal otp.

End Verify.

End Pyotp.

(** ** [app.py] *)

Module App.

Definition SEED_PATH : str := lit "/data/seed.txt".
Definition PRIVATE_KEY_PATH : str := lit "student_private.pem".

(** *** Helpers *)

Section Helpers.
Context `{Unicode} `{Crypto}.

(** [load_private_key(path)]. *)
Definition load_private_key (path : str) : result private_key :=
  match read_binary path ≫= load_pem_private_key with
  | Return k => Return k
  | Raise e =>
      Raise (RuntimeErrorFrom (lit "Failed to load private key from " ++ path ++ lit ": ") e)
  end.

(** [c.lower()] for one character. *)
Definition lower (c : Z) : str :=
  if (65 <=? c) && (c <=? 90) then [c + 32]
  else if c <? 128 then [c]
  else unicode_lower c.

(** [x in set(chars)] for a string [x]. *)
Definition in_char_set (x : str) (chars : str) : bool :=
  existsb (fun h => bool_decide (x = [h])) chars.

(** [decrypt_seed_from_bytes(ciphertext, private_key)]. *)
Definition decrypt_seed_from_bytes (ciphertext : bytes) (key : private_key) : result str :=
  match oaep_sha256_decrypt key ciphertext with
  | Raise e => Raise (RuntimeError (lit "Decryption failed (Key or Parameter Mismatch)"))
  | Return plaintext_bytes =>
      s ← Utf8.decode plaintext_bytes;
      let seed_hex := PyStr.strip s in
      if negb (Z.of_nat (length seed_hex) =? 64)
      then Raise (ValueError (lit "Invalid seed length: expected 64, got "
                              ++ str_of_int (Z.of_nat (length seed_hex))))
      else
        let valid_hex_chars := lit "0123456789abcdef" in
        if negb (forallb (fun c => in_char_set (lower c) valid_hex_chars) seed_hex)
        then Raise (ValueError (lit "Seed contains non-hex characters"))
        else Return seed_hex
  end.

(** [save_seed_atomic(seed_hex, path)]. *)
Definition save_seed_atomic (seed_hex path : str) : io unit :=
  let dirpath := Os.dirname path in
  _ ← Os.makedirs dirpath;
  let tmp_path := path ++ lit ".tmp" in
  _ ← Os.open_w tmp_path;
  _ ← Os.write tmp_path (PyStr.strip seed_hex ++ newline);
  Os.replace tmp_path path.

(** [read_seed(path)]. *)
Definition read_seed (path : str) (σ : fs) : result str :=
  if negb (Os.path_exists σ path) then Raise (FileNotFoundError (lit "Seed not found"))
  else
    s ← Os.read_text path σ;
    let s := PyStr.strip s in
    if negb (Z.of_nat (length s) =? 64)
    then Raise (ValueError (lit "Stored seed invalid length"))
    else Return s.

(** [hex_to_base32(hex_seed)]. *)
Definition hex_to_base32 (hex_seed : str) : result str :=
  match Codec.fromhex hex_seed with
  | Raise _ => Raise (ValueError (lit "Invalid hex seed"))
  | Return seed_bytes =>
      s ← Utf8.decode (Codec.b32encode seed_bytes);
      Return (PyStr.remove_char Codec.pad_char (PyStr.strip s))
  end.

(** [generate_totp_from_hex(hex_seed)].  The clock is read twice: by
    [totp.now()] at [t_code], then by [time.time()] at [t_valid]. *)
Definition generate_totp_from_hex (hex_seed : str) (t_code t_valid : Z) : result (str * Z) :=
  b32 ← hex_to_base32 hex_seed;
  code ← Pyotp.now b32 t_code;
  let valid_for := 30 - t_valid mod 30 in
  Return (code, valid_for).

(** [verify_totp_from_hex(hex_seed, code, valid_window)], the clock reading
    [now]. *)
Definition verify_totp_from_hex (hex_seed code : str) (valid_window now : Z) : result bool :=
  b32 ← hex_to_base32 hex_seed;
  Pyotp.verify b32 code now valid_window.

End Helpers.

(** The save as the sequence of system calls it makes, the text reaching
    the temporary file in the pieces [chunks]. *)
Definition save_seed_syscalls (path : str) (chunks : list str) : list Os.syscall :=
  [Os.Makedirs (Os.dirname path); Os.OpenW (path ++ lit ".tmp")]
  ++ map (Os.Write (path ++ lit ".tmp")) chunks
  ++ [Os.Replace (path ++ lit ".tmp") path].

(** The Seed invariant of the data model: 64 characters, all hexadecimal. *)
Definition seed_invariant (s : str) : Prop :=
  length s = 64%nat /\ Forall (fun c => PyStr.is_hex_digit c = true) s.

(** *** The process and its endpoints *)

(** The body of an error response: a literal message, or [str(e)]. *)
Inductive detail : Type :=
| Error (msg : str)
| ErrorOf (e : exn).

Inductive response (A : Type) : Type :=
| Ok (body : A)
| HTTPException (status_code : Z) (d : detail).
Arguments Ok {A} body.
Arguments HTTPException {A} status_code d.

Section Endpoints.
Context `{Unicode} `{Crypto}.

(** The globals set when the module is loaded. *)
Record process : Type := Process {
  PRIVATE_KEY : option private_key;
  _privkey_load_error : option exn
}.

(** The [try] around [load_private_key(PRIVATE_KEY_PATH)] at start. *)
Definition startup : process :=
  match load_private_key PRIVATE_KEY_PATH with
  | Raise e => Process None (Some e)
  | Return k => Process (Some k) None
  end.

(** [POST /decrypt-seed]. *)
Definition decrypt_seed_endpoint (p : process) (encrypted_seed : str) (σ : fs)
  : response unit * fs :=
  match encrypted_seed with
  | [] => (HTTPException 400 (Error (lit "Missing encrypted_seed")), σ)
  | _ =>
      match PRIVATE_KEY p with
      | None => (HTTPException 500 (Error (lit "Server private key not available")), σ)
      | Some key =>
          match b64decode encrypted_seed with
          | Raise _ => (HTTPException 400 (Error (lit "Invalid base64")), σ)
          | Return ciphertext =>
              match decrypt_seed_from_bytes ciphertext key with
              | Raise ve =>
                  if is_ValueError ve then (HTTPException 400 (ErrorOf ve), σ)
                  else (HTTPException 500 (Error (lit "Decryption failed")), σ)
              | Return seed_hex =>
                  match save_seed_atomic seed_hex SEED_PATH σ with
                  | (Raise _, σ') =>
                      (HTTPException 500 (Error (lit "Failed to persist seed")), σ')
                  | (Return _, σ') => (Ok (), σ')
                  end
              end
          end
      end
  end.

(** [GET /generate-2fa]. *)
Definition generate_2fa_endpoint (p : process) (t_code t_valid : Z) (σ : fs)
  : response (str * Z) :=
  match read_seed SEED_PATH σ with
  | Raise e =>
      if is_FileNotFoundError e
      then HTTPException 500 (Error (lit "Seed not decrypted yet"))
      else HTTPException 500 (Error (lit "Failed to read seed"))
  | Return seed_hex =>
      match generate_totp_from_hex seed_hex t_code t_valid with
      | Raise _ => HTTPException 500 (Error (lit "Failed to generate TOTP"))
      | Return (code, valid_for) => Ok (code, valid_for)
      end
  end.

(** [POST /verify-2fa]. *)
Definition verify_2fa_endpoint (p : process) (code : str) (now : Z) (σ : fs)
  : response bool :=
  match code with
  | [] => HTTPException 400 (Error (lit "Missing code"))
  | _ =>
      match read_seed SEED_PATH σ with
      | Raise e =>
          if is_FileNotFoundError e
          then HTTPException 500 (Error (lit "Seed not decrypted yet"))
          else HTTPException 500 (Error (lit "Failed to read seed"))
      | Return seed_hex =>
          match verify_totp_from_hex seed_hex code 1 now with
          | Raise _ => HTTPException 500 (Error (lit "Verification failed"))
          | Return valid => Ok valid
          end
      end
  end.

End Endpoints.

End App.

(** ** What the Unicode tables guarantee

    Facts of the Unicode database that the properties below rest on. *)

(** No character outside ASCII has a hexadecimal digit as its lower case. *)
Definition lower_keeps_ascii_hex `{Unicode} : Prop :=
  forall c h, 128 <= c -> In h (lit "0123456789abcdef") -> unicode_lower c <> [h].

(** A string of ASCII is its own NFKC normal form. *)
Definition nfkc_fixes_ascii `{Unicode} : Prop :=
  forall s, Forall (fun c => 0 <= c < 128) s -> nfkc s = s.

(** ** Notions used to state and prove the base32 properties *)

Definition byte_ok (b : Z) : Prop := 0 <= b < 256.

(** The eight base-32 digits of a 40-bit number, most significant first. *)
Definition digits32 (c : Z) : list Z :=
  [c / 2 ^ 35 mod 32; c / 2 ^ 30 mod 32; c / 2 ^ 25 mod 32; c / 2 ^ 20 mod 32;
   c / 2 ^ 15 mod 32; c / 2 ^ 10 mod 32; c / 2 ^ 5 mod 32; c mod 32].

(** The number whose base-32 digits are [ds], on top of [acc]. *)
Definition horner32 (ds : list Z) (acc : Z) : Z :=
  fold_left (fun a d => a * 32 + d) ds acc.

(** The number of padding characters [b32encode] ends with. *)
Definition pad_count (bs : bytes) : nat :=
  match (length bs mod 5)%nat with
  | 1 => 6
  | 2 => 4
  | 3 => 3
  | 4 => 1
  | _ => 0
  end%nat.

(** The string hexadecimal text stands for, two digits to the octet: the
    [hexToBytes] of the specification. *)
Fixpoint hex_pairs (h : str) : bytes :=
  match h with
  | a :: b :: r =>
      16 * default 0 (Codec.hex_value a) + default 0 (Codec.hex_value b) :: hex_pairs r
  | _ => []
  end.

(** Valid hexadecimal text: digits only, an even number of them. *)
Definition valid_hex (h : str) : Prop :=
  Forall (fun c => PyStr.is_hex_digit c = true) h /\ Nat.Even (length h).

(** The code derived at a counter: what [generate_totp_from_hex] returns
    when the clock reads the first second of that time step. *)
Definition code_at (hex_seed : str) (counter : Z) : result str :=
  fst <$> App.generate_totp_from_hex hex_seed (counter * 30) (counter * 30).

(** ** Notions used to state the properties of the store and of the codes *)

(** A well-formed store: nothing but a regular file may stand at the seed
    path, and the file, when there is one, holds a valid seed followed by a
    newline (the StoredSecret of the data model). *)
Definition store_ok (σ : fs) : Prop :=
  Os.isdir σ App.SEED_PATH = false
  /\ (files σ !! App.SEED_PATH = None
      \/ exists s, App.seed_invariant s /\ files σ !! App.SEED_PATH = Some (s ++ newline)).

(** The decimal digit of [m] at position [i], units at position 0. *)
Definition digit_at (m : Z) (i : Z) : Z := m / 10 ^ i mod 10.

(** A decimal digit put before a decimal number. *)
Definition dign (n : nat) (d : Decimal.uint) : Decimal.uint :=
  match n with
  | 0 => Decimal.D0 d | 1 => Decimal.D1 d | 2 => Decimal.D2 d | 3 => Decimal.D3 d
  | 4 => Decimal.D4 d | 5 => Decimal.D5 d | 6 => Decimal.D6 d | 7 => Decimal.D7 d
  | 8 => Decimal.D8 d | _ => Decimal.D9 d
  end%nat.

(** A sequence of ASCII blanks, as [str.strip] drops them. *)
Definition blank (w : str) : Prop :=
  Forall (fun c => PyStr.isspace c = true /\ 0 <= c < 128) w.

(** A text that UTF-8 can encode: it holds no surrogate code point. *)
Definition encodable (s : str) : Prop :=
  Forall (fun c => Utf8.surrogate c = false) s.

(** ** Sample data *)

Definition seed0 : str :=
  lit "0123456789abcdef0123456789abcdef0123456789abcdef0123456789abcdef".
Definition seed1 : str :=
  lit "ffeeddccbbaa99887766554433221100ffeeddccbbaa99887766554433221100".

(** [seed0] with its last character replaced by [g]. *)
Definition tampered_seed : str :=
  lit "0123456789abcdef0123456789abcdef0123456789abcdef0123456789abcdeg".

(** A store holding [seed1]. *)
Definition store1 : fs :=
  Fs {[ App.SEED_PATH := seed1 ++ newline ]} {[ lit "/data" ]}.

(** The Unicode tables cut down to ASCII, where both are the identity; the
    Kelvin sign keeps its lower case [k]. *)
Definition ascii_unicode : Unicode := {|
  unicode_lower c := if c =? 0x212A then [107] else [c];
  nfkc s := s
|}.

(** A stand-in for the cryptography of the platform: the key is a byte, a
    ciphertext is that byte followed by the plaintext, and base64 text is
    taken as the bytes it is written with. *)
Definition toy_crypto : Crypto := {|
  private_key := Z;
  read_binary path := Raise Os.enoent;
  load_pem_private_key data :=
    match data with
    | [k] => Return k
    | _ => Raise (ValueError (lit "Could not deserialize key data"))
    end;
  oaep_sha256_decrypt key ciphertext :=
    match ciphertext with
    | b :: plaintext =>
        if b =? key then Return plaintext
        else Raise (ValueError (lit "Decryption failed"))
    | [] => Raise (ValueError (lit "Ciphertext length must be equal to key size"))
    end;
  b64decode s :=
    if forallb (fun c => (0 <=? c) && (c <? 256)) s then Return s
    else Raise (BinasciiError (lit "Incorrect padding"))
|}.

(** A process that loaded the key [7]. *)
Definition toy_process : @App.process toy_crypto :=
  @App.Process toy_crypto (Some 7) None.

(** * Properties *)

(** ** Strings *)

Section StripFacts.
Import PyStr.

Lemma hex_digit_not_space c : is_hex_digit c = true -> isspace c = false.
Proof. unfold is_hex_digit, isspace. lia. Qed.

Lemma lstrip_no_space s :
  Forall (fun c => isspace c = false) s -> lstrip s = s.
Proof. destruct 1 as [|c s Hc _]; simpl; [done | by rewrite Hc]. Qed.

Lemma rstrip_snoc s c :
  rstrip (s ++ [c]) = if isspace c then rstrip s else s ++ [c].
Proof.
  unfold rstrip. rewrite rev_app_distr. simpl.
  destruct (isspace c); [done |].
  change (c :: rev s) with (rev [c] ++ rev s).
  by rewrite <- rev_app_distr, rev_involutive.
Qed.

Lemma strip_no_space s :
  Forall (fun c => isspace c = false) s -> strip s = s.
Proof.
  intros Hs. unfold strip. rewrite lstrip_no_space by done.
  unfold rstrip. rewrite lstrip_no_space, rev_involutive; [done |].
  by apply Forall_rev.
Qed.

Lemma strip_newline_no_space s :
  Forall (fun c => isspace c = false) s -> strip (s ++ newline) = s.
Proof.
  intros Hs. unfold strip, newline.
  destruct Hs as [|c s Hc Hs]; [done |].
  assert (lstrip ((c :: s) ++ [10]) = (c :: s) ++ [10]) as ->
    by (simpl; by rewrite Hc).
  rewrite rstrip_snoc. simpl (isspace 10).
  unfold rstrip. rewrite lstrip_no_space, rev_involutive; [done |].
  apply Forall_rev. by constructor.
Qed.

Lemma seed_invariant_no_space s :
  App.seed_invariant s -> Forall (fun c => isspace c = false) s.
Proof.
  intros [_ Hs]. eapply Forall_impl; [exact Hs |].
  intros c. apply hex_digit_not_space.
Qed.

End StripFacts.

(** ** Paths *)

Section PathFacts.
Import Os.

Lemma rfind_sep_end_le p : (rfind_sep_end p <= length p)%nat.
Proof.
  induction p as [|c p IH]; simpl; [lia |].
  destruct (rfind_sep_end p); [destruct (c =? sep) |]; lia.
Qed.

Lemma rfind_sep_end_app p t :
  forallb (fun c => negb (c =? sep)) t = true ->
  rfind_sep_end (p ++ t) = rfind_sep_end p.
Proof.
  intros Ht. induction p as [|c p IH]; simpl.
  - induction t as [|d t IHt]; simpl in *; [done |].
    apply andb_prop in Ht as [Hd Ht]. rewrite (IHt Ht).
    by destruct (d =? sep).
  - by rewrite IH.
Qed.

(** The temporary file of a save stands in the directory of its target. *)
Lemma dirname_tmp path : dirname (path ++ lit ".tmp") = dirname path.
Proof.
  unfold dirname. rewrite rfind_sep_end_app by done.
  by rewrite take_app_le by apply rfind_sep_end_le.
Qed.

Lemma tmp_path_ne (path : str) : path ++ lit ".tmp" ≠ path.
Proof.
  intros Heq. apply (f_equal length) in Heq.
  rewrite length_app in Heq. simpl in Heq. lia.
Qed.

End PathFacts.

(** ** The calls of a save, one at a time *)

Section SyscallFacts.
Import Os.

Lemma exec_frame c σ p :
  ¬ writes_to c p -> files (exec c σ).2 !! p = files σ !! p.
Proof.
  destruct c as [d|q|q chunk|src dst]; simpl; intros Hp.
  - unfold makedirs. destruct d; [done |].
    repeat case_match; done.
  - unfold open_w. repeat case_match; simpl; try done.
    by rewrite lookup_insert_ne.
  - unfold write. destruct (Utf8.encode chunk); simpl; [| done].
    by rewrite lookup_alter_ne.
  - unfold replace. repeat case_match; simpl; try done.
    rewrite lookup_insert_ne, lookup_delete_ne; naive_solver.
Qed.

Lemma run_cons c cs σ :
  run (c :: cs) σ =
  match exec c σ with
  | (Return _, σ') => run cs σ'
  | (Raise e, σ') => (Raise e, σ')
  end.
Proof. done. Qed.

Lemma run_app cs1 cs2 σ :
  run (cs1 ++ cs2) σ =
  match run cs1 σ with
  | (Return _, σ') => run cs2 σ'
  | (Raise e, σ') => (Raise e, σ')
  end.
Proof.
  revert σ. induction cs1 as [|c cs1 IH]; intros σ; [done |].
  rewrite <- app_comm_cons, !run_cons.
  destruct (exec c σ) as [[[]|e] σ']; [apply IH | done].
Qed.

(** Calls that do not write to [p] leave it as it was, wherever they stop. *)
Lemma run_frame cs σ p :
  Forall (fun c => ¬ writes_to c p) cs ->
  files (run cs σ).2 !! p = files σ !! p.
Proof.
  intros Hcs. revert σ. induction Hcs as [|c cs Hc _ IH]; intros σ; [done |].
  rewrite run_cons. pose proof (exec_frame c σ p Hc) as Hframe.
  destruct (exec c σ) as [[[]|e] σ']; simpl in *; [by rewrite IH | done].
Qed.

(** Writes to an existing file that all return have appended their chunks. *)
Lemma run_writes q chunks σ σ' c :
  files σ !! q = Some c ->
  run (map (Write q) chunks) σ = (Return (), σ') ->
  files σ' !! q = Some (c ++ concat chunks) /\ dirs σ' = dirs σ.
Proof.
  revert σ c. induction chunks as [|chunk chunks IH]; intros σ c Hq.
  - cbn [map run]. intros [= <-]. cbn [concat]. by rewrite app_nil_r.
  - cbn [map concat]. rewrite run_cons. cbn [exec]. unfold write.
    destruct (Utf8.encode chunk) as [bs | e]; [| discriminate].
    intros Hrun.
    apply (IH _ (c ++ chunk)) in Hrun as [Hq' Hd].
    + by rewrite Hq', <- app_assoc.
    + cbn [files]. by rewrite lookup_alter_eq, Hq.
Qed.

Lemma open_w_Return q σ σ' :
  open_w q σ = (Return (), σ') -> files σ' !! q = Some [] /\ dirs σ' = dirs σ.
Proof.
  unfold open_w. repeat case_match; intros [= <-]; simpl.
  by rewrite lookup_insert_eq.
Qed.

Lemma replace_Raise src dst e σ σ' :
  replace src dst σ = (Raise e, σ') -> σ' = σ.
Proof. unfold replace. repeat case_match; congruence. Qed.

Lemma replace_Return src dst σ σ' :
  src ≠ dst ->
  replace src dst σ = (Return (), σ') ->
  files σ' !! dst = files σ !! src /\ files σ' !! src = None.
Proof.
  intros Hne. unfold replace. repeat case_match; intros [= <-]; simpl.
  by rewrite lookup_insert_eq, lookup_insert_ne, lookup_delete_eq.
Qed.

End SyscallFacts.

(** ** The seed store *)

Section StoreFacts.
Import Os App.

(** [save_seed_atomic] makes exactly the calls of [save_seed_syscalls], the
    text going to the temporary file in one piece. *)
Lemma save_seed_atomic_run seed path σ :
  save_seed_atomic seed path σ
  = run (save_seed_syscalls path [PyStr.strip seed ++ newline]) σ.
Proof.
  unfold save_seed_atomic, save_seed_syscalls.
  cbn [map app run exec]. unfold mbind, io_bind, mret, io_ret.
  destruct (makedirs (dirname path) σ) as [[[]|e] σ1]; [|done].
  destruct (open_w (path ++ lit ".tmp") σ1) as [[[]|e] σ2]; [|done].
  destruct (write _ _ σ2) as [[[]|e] σ3]; [|done].
  by destruct (replace _ _ _) as [[[]|e] σ4].
Qed.

Lemma save_prefix_frame path chunks :
  Forall (fun c => ¬ writes_to c path)
    ([Makedirs (dirname path); OpenW (path ++ lit ".tmp")]
     ++ map (Write (path ++ lit ".tmp")) chunks).
Proof.
  apply Forall_app. split.
  - repeat constructor; simpl; [tauto | apply tmp_path_ne].
  - apply Forall_map, Forall_forall. intros chunk _. apply tmp_path_ne.
Qed.

(** A save that stops before its replace has not touched [path]. *)
Lemma save_run_before_replace path chunks σ n :
  (n < length (save_seed_syscalls path chunks))%nat ->
  files (run (take n (save_seed_syscalls path chunks)) σ).2 !! path = files σ !! path.
Proof.
  intros Hn. unfold save_seed_syscalls in *. rewrite app_assoc in *.
  rewrite length_app in Hn.
  change (length [Replace (path ++ lit ".tmp") path]) with 1%nat in Hn.
  rewrite take_app_le by lia.
  apply run_frame, Forall_take, save_prefix_frame.
Qed.

(** Nor has a save that raises. *)
Lemma save_run_Raise path chunks σ e σ' :
  run (save_seed_syscalls path chunks) σ = (Raise e, σ') ->
  files σ' !! path = files σ !! path.
Proof.
  unfold save_seed_syscalls. rewrite app_assoc, run_app.
  pose proof (run_frame _ σ path (save_prefix_frame path chunks)) as Hpre.
  destruct (run _ σ) as [[[]|e1] σ1]; simpl in Hpre.
  - rewrite run_cons. cbn [exec run mret io_ret].
    destruct (replace (path ++ lit ".tmp") path σ1) as [[[]|e2] σ2] eqn:Hrep; [done |].
    intros [= -> <-]. apply replace_Raise in Hrep. by subst.
  - by intros [= -> <-].
Qed.

(** A save that returns has installed the whole text and left no temporary
    file. *)
Lemma save_run_Return path chunks σ σ' :
  run (save_seed_syscalls path chunks) σ = (Return (), σ') ->
  files σ' !! path = Some (concat chunks) /\ files σ' !! (path ++ lit ".tmp") = None.
Proof.
  unfold save_seed_syscalls. rewrite app_assoc, run_app, run_app, !run_cons.
  cbn [exec].
  destruct (makedirs _ σ) as [[[]|e0] σ0]; cbn beta iota; [|done].
  rewrite run_cons. cbn [exec].
  destruct (open_w (path ++ lit ".tmp") σ0) as [[[]|e1] σ1] eqn:Hopen;
    cbn beta iota; [|done].
  apply open_w_Return in Hopen as [Htmp _].
  cbn [run]. unfold mret, io_ret, mbind, io_bind. cbn [exec].
  destruct (run (map (Write (path ++ lit ".tmp")) chunks) σ1) as [[[]|e2] σ2] eqn:Hwrites;
    [|done].
  apply (run_writes _ _ _ _ [] Htmp) in Hwrites as [Htmp2 _].
  destruct (replace (path ++ lit ".tmp") path σ2) as [[[]|e3] σ3] eqn:Hrep; [|done].
  intros [= <-]. apply replace_Return in Hrep as [-> ->]; [| apply tmp_path_ne].
  by rewrite Htmp2.
Qed.

(** A text without carriage return is read as it was written. *)
Lemma universal_newlines_no_cr s :
  Forall (fun c => c <> 13) s -> universal_newlines s = s.
Proof.
  induction 1 as [|c s Hc _ IH]; cbn [universal_newlines]; [done |].
  destruct (Z.eqb_spec c 13); [done | by rewrite IH].
Qed.

Lemma universal_newlines_seed s :
  Forall (fun c => PyStr.isspace c = false) s ->
  universal_newlines (s ++ newline) = s ++ newline.
Proof.
  intros Hs. apply universal_newlines_no_cr, Forall_app. split.
  - eapply Forall_impl; [exact Hs |]. by intros c Hc ->.
  - by repeat constructor.
Qed.

Lemma read_seed_of_text path σ c :
  files σ !! path = Some c ->
  read_seed path σ =
    if negb (Z.of_nat (length (PyStr.strip (universal_newlines c))) =? 64)
    then Raise (ValueError (lit "Stored seed invalid length"))
    else Return (PyStr.strip (universal_newlines c)).
Proof.
  intros Hc. unfold read_seed, path_exists, is_file, read_text.
  by rewrite Hc.
Qed.

(** The two checks [read_seed] makes: the file must exist, and its trimmed
    text must have 64 characters. *)
Lemma read_seed_missing path σ :
  path_exists σ path = false ->
  read_seed path σ = Raise (FileNotFoundError (lit "Seed not found")).
Proof. intros Hpath. unfold read_seed. by rewrite Hpath. Qed.

Lemma read_seed_wrong_length path σ c :
  files σ !! path = Some c ->
  length (PyStr.strip (universal_newlines c)) <> 64%nat ->
  read_seed path σ = Raise (ValueError (lit "Stored seed invalid length")).
Proof.
  intros Hc Hlen. rewrite (read_seed_of_text _ _ _ Hc).
  destruct (Z.eqb_spec (Z.of_nat (length (PyStr.strip (universal_newlines c)))) 64);
    [lia | done].
Qed.

End StoreFacts.

(** C1 (the part the code breaks): a stored text of 64 characters with one
    outside [0-9a-fA-F] is not rejected; [read_seed] returns it as the seed. *)
Lemma read_seed_returns_non_hex :
  let σ := Fs {[ App.SEED_PATH := tampered_seed ++ newline ]} ∅ in
  ¬ App.seed_invariant tampered_seed
  /\ App.read_seed App.SEED_PATH σ = Return tampered_seed.
Proof.
  split; [|by vm_compute].
  intros [_ Hhex]. apply Forall_forall with (x := 103) in Hhex; [done |].
  unfold tampered_seed. vm_compute. set_solver.
Qed.

(** C2.  A save writes the whole text to [path + ".tmp"], a file of the
    directory of [path], and installs it with one [os.replace].  Whatever
    pieces the text reaches the temporary file in, and wherever the save
    stops before the replace (after [n] of its calls, or at a call that
    raises), the file at [path] is what it was before the save; after a
    completed save it is the whole text. *)
Theorem save_seed_atomic_interrupted (seed path : str) (chunks : list str) (σ : fs) :
  concat chunks = PyStr.strip seed ++ newline ->
  let calls := App.save_seed_syscalls path chunks in
  let tmp := path ++ lit ".tmp" in
  Os.dirname tmp = Os.dirname path
  /\ App.save_seed_atomic seed path σ
     = Os.run (App.save_seed_syscalls path [PyStr.strip seed ++ newline]) σ
  /\ (forall n, (n < length calls)%nat ->
        files (Os.run (take n calls) σ).2 !! path = files σ !! path)
  /\ (forall e σ', Os.run calls σ = (Raise e, σ') ->
        files σ' !! path = files σ !! path)
  /\ (forall σ', Os.run calls σ = (Return (), σ') ->
        files σ' !! path = Some (PyStr.strip seed ++ newline)
        /\ files σ' !! tmp = None).
Proof.
  intros Hchunks calls tmp.
  split; [apply dirname_tmp |].
  split; [apply save_seed_atomic_run |].
  split; [apply save_run_before_replace |].
  split; [apply save_run_Raise |].
  intros σ' Hrun. apply save_run_Return in Hrun. by rewrite <- Hchunks.
Qed.

(** A save of [seed0] over [seed1] that stops after half of the text has
    reached the temporary file: the store still reads [seed1]. *)
Lemma save_seed_atomic_interrupted_witness :
  let chunks := [take 32 seed0; drop 32 seed0 ++ newline] in
  let σ := (Os.run (take 3 (App.save_seed_syscalls App.SEED_PATH chunks)) store1).2 in
  files σ !! (App.SEED_PATH ++ lit ".tmp") = Some (take 32 seed0)
  /\ files σ !! App.SEED_PATH = Some (seed1 ++ newline).
Proof.
  intros chunks σ. split; [by vm_compute |].
  assert (concat chunks = PyStr.strip seed0 ++ newline) as Hchunks by by vm_compute.
  destruct (save_seed_atomic_interrupted seed0 App.SEED_PATH chunks store1 Hchunks)
    as (_ & _ & Hbefore & _).
  unfold σ. rewrite (Hbefore 3%nat); [by vm_compute | simpl; lia].
Defined.

(** C9.  A seed that satisfies the Seed invariant is read back as it was
    saved: the newline the save appends is stripped by the read. *)
Theorem read_seed_after_save (s path : str) (σ σ' : fs) :
  App.seed_invariant s ->
  App.save_seed_atomic s path σ = (Return (), σ') ->
  App.read_seed path σ' = Return s.
Proof.
  intros Hs Hsave.
  rewrite save_seed_atomic_run in Hsave.
  apply save_run_Return in Hsave as [Hpath _].
  cbn [concat] in Hpath. rewrite app_nil_r in Hpath.
  pose proof (seed_invariant_no_space s Hs) as Hnosp.
  rewrite (read_seed_of_text _ _ _ Hpath).
  rewrite (strip_no_space s Hnosp), (universal_newlines_seed s Hnosp).
  rewrite (strip_newline_no_space s Hnosp).
  destruct Hs as [-> _]. done.
Qed.

Lemma read_seed_after_save_witness :
  App.read_seed App.SEED_PATH (App.save_seed_atomic seed0 App.SEED_PATH store1).2
  = Return seed0.
Proof.
  apply (read_seed_after_save seed0 App.SEED_PATH store1).
  - split; [done |]. unfold seed0. vm_compute. repeat constructor.
  - by vm_compute.
Defined.

(** ** The decryptor *)

Section DecryptorFacts.
Context `{Unicode} `{Crypto}.
Import App.

Lemma in_char_set_singleton x chars :
  in_char_set [x] chars = existsb (Z.eqb x) chars.
Proof.
  induction chars as [|h chars IH]; simpl; [done |].
  rewrite IH. f_equal. case_bool_decide as Heq.
  - injection Heq as ->. by rewrite Z.eqb_refl.
  - symmetry. apply Z.eqb_neq. congruence.
Qed.

(** The test [c.lower() in valid_hex_chars] accepts exactly [0-9a-fA-F]. *)
Lemma lower_in_hex_chars c :
  lower_keeps_ascii_hex ->
  in_char_set (lower c) (lit "0123456789abcdef") = PyStr.is_hex_digit c.
Proof.
  intros Hlow. unfold lower, PyStr.is_hex_digit.
  destruct ((65 <=? c) && (c <=? 90)) eqn:Hup;
    [| destruct (c <? 128) eqn:Hascii].
  - rewrite in_char_set_singleton.
    let l := eval vm_compute in (lit "0123456789abcdef") in
    change (lit "0123456789abcdef") with l.
    cbn [existsb]. lia.
  - rewrite in_char_set_singleton.
    let l := eval vm_compute in (lit "0123456789abcdef") in
    change (lit "0123456789abcdef") with l.
    cbn [existsb]. lia.
  - transitivity false; [| lia].
    unfold in_char_set. apply not_true_is_false. intros Hin.
    apply existsb_exists in Hin as (h & Hh & Heq).
    apply bool_decide_eq_true in Heq. apply (Hlow c h); [lia | done | done].
Qed.

Lemma forallb_lower_in_hex_chars s :
  lower_keeps_ascii_hex ->
  forallb (fun c => in_char_set (lower c) (lit "0123456789abcdef")) s
  = forallb PyStr.is_hex_digit s.
Proof.
  intros Hlow. induction s as [|c s IH]; cbn [forallb]; [done |].
  by rewrite IH, lower_in_hex_chars.
Qed.

(** After a decryption that succeeds with text [s], the outcome is decided
    by the trimmed text alone. *)
Lemma decrypt_seed_from_bytes_text ciphertext key plaintext s :
  lower_keeps_ascii_hex ->
  oaep_sha256_decrypt key ciphertext = Return plaintext ->
  Utf8.decode plaintext = Return s ->
  decrypt_seed_from_bytes ciphertext key =
    let seed_hex := PyStr.strip s in
    if negb (Z.of_nat (length seed_hex) =? 64)
    then Raise (ValueError (lit "Invalid seed length: expected 64, got "
                            ++ str_of_int (Z.of_nat (length seed_hex))))
    else if forallb PyStr.is_hex_digit seed_hex then Return seed_hex
    else Raise (ValueError (lit "Seed contains non-hex characters")).
Proof.
  intros Hlow Hdec Htext. unfold decrypt_seed_from_bytes.
  rewrite Hdec, Htext. cbn [mbind result_bind].
  rewrite forallb_lower_in_hex_chars by done.
  by destruct (forallb PyStr.is_hex_digit (PyStr.strip s)).
Qed.

End DecryptorFacts.

(** C6.  After a decryption that succeeds, the plaintext is read as UTF-8
    and trimmed.  A trimmed text whose length is not 64 is rejected with the
    [ValueError] that names the length found; one of length 64 with a
    character outside [0-9a-fA-F] with the [ValueError] about non-hex
    characters; any other is returned, trimmed and otherwise unchanged. *)
Theorem decrypt_seed_from_bytes_validates `{Unicode} `{Crypto}
    (ciphertext plaintext : bytes) (key : private_key) (s : str) :
  lower_keeps_ascii_hex ->
  oaep_sha256_decrypt key ciphertext = Return plaintext ->
  Utf8.decode plaintext = Return s ->
  let seed_hex := PyStr.strip s in
  (length seed_hex <> 64%nat ->
     App.decrypt_seed_from_bytes ciphertext key
     = Raise (ValueError (lit "Invalid seed length: expected 64, got "
                          ++ str_of_int (Z.of_nat (length seed_hex)))))
  /\ (length seed_hex = 64%nat ->
      Exists (fun c => PyStr.is_hex_digit c = false) seed_hex ->
      App.decrypt_seed_from_bytes ciphertext key
      = Raise (ValueError (lit "Seed contains non-hex characters")))
  /\ (App.seed_invariant seed_hex ->
      App.decrypt_seed_from_bytes ciphertext key = Return seed_hex).
Proof.
  intros Hlow Hdec Htext seed_hex.
  rewrite (decrypt_seed_from_bytes_text _ _ _ _ Hlow Hdec Htext).
  cbn zeta. fold seed_hex. repeat split.
  - intros Hlen. destruct (Z.eqb_spec (Z.of_nat (length seed_hex)) 64); [lia | done].
  - intros Hlen Hbad. rewrite Hlen. cbn [negb Z.eqb Z.of_nat].
    destruct (forallb PyStr.is_hex_digit seed_hex) eqn:Hall; [| done].
    rewrite forallb_forall in Hall. apply Exists_exists in Hbad as (c & Hc & Hhex).
    apply list_elem_of_In, Hall in Hc. congruence.
  - intros [Hlen Hhex]. rewrite Hlen. cbn [negb Z.eqb Z.of_nat].
    destruct (forallb PyStr.is_hex_digit seed_hex) eqn:Hall; [done |].
    exfalso. apply not_true_iff_false in Hall. apply Hall, forallb_forall.
    intros c Hc. rewrite Forall_forall in Hhex. by apply Hhex, list_elem_of_In.
Qed.

Lemma ascii_unicode_lower : @lower_keeps_ascii_hex ascii_unicode.
Proof.
  intros c h Hc Hh. cbn [unicode_lower ascii_unicode].
  vm_compute in Hh.
  destruct (c =? 8490); intros [= <-]; intuition (discriminate || lia).
Qed.

Lemma decrypt_seed_from_bytes_validates_witness :
  @App.decrypt_seed_from_bytes ascii_unicode toy_crypto
    (7 :: lit "  " ++ seed0 ++ newline) 7
  = Return seed0.
Proof.
  destruct (@decrypt_seed_from_bytes_validates ascii_unicode toy_crypto
              (7 :: lit "  " ++ seed0 ++ newline) (lit "  " ++ seed0 ++ newline) 7
              (lit "  " ++ seed0 ++ newline) ascii_unicode_lower eq_refl eq_refl)
    as (_ & _ & Hok).
  apply Hok. split; [by vm_compute | vm_compute; repeat constructor].
Defined.

(** ** The provisioning endpoint *)

Section ProvisionFacts.
Context `{Unicode} `{Crypto}.
Import App.

(** An empty request is turned away before the key is looked at. *)
Lemma provision_empty_request (p : process) (σ : fs) :
  decrypt_seed_endpoint p [] σ
  = (HTTPException 400 (Error (lit "Missing encrypted_seed")), σ).
Proof. done. Qed.

Lemma provision_without_key (p : process) (encrypted_seed : str) (σ : fs) :
  encrypted_seed <> [] ->
  PRIVATE_KEY p = None ->
  decrypt_seed_endpoint p encrypted_seed σ
  = (HTTPException 500 (Error (lit "Server private key not available")), σ).
Proof.
  intros Hreq Hkey. unfold decrypt_seed_endpoint. rewrite Hkey.
  by destruct encrypted_seed.
Qed.

(** A request that reaches the decryptor is answered from its outcome. *)
Lemma provision_decrypt_raises (p : process) key encrypted_seed ciphertext ve σ :
  encrypted_seed <> [] ->
  PRIVATE_KEY p = Some key ->
  b64decode encrypted_seed = Return ciphertext ->
  decrypt_seed_from_bytes ciphertext key = Raise ve ->
  decrypt_seed_endpoint p encrypted_seed σ
  = (if is_ValueError ve then HTTPException 400 (ErrorOf ve)
     else HTTPException 500 (Error (lit "Decryption failed")), σ).
Proof.
  intros Hreq Hkey Hb64 Hdec. unfold decrypt_seed_endpoint.
  rewrite Hkey, Hb64, Hdec.
  destruct encrypted_seed; [done |]. by destruct (is_ValueError ve).
Qed.

Lemma startup_failure (e : exn) :
  read_binary PRIVATE_KEY_PATH ≫= load_pem_private_key = Raise e ->
  startup =
    Process None
      (Some (RuntimeErrorFrom
               (lit "Failed to load private key from " ++ PRIVATE_KEY_PATH ++ lit ": ") e)).
Proof. intros Hload. unfold startup, load_private_key. by rewrite Hload. Qed.

End ProvisionFacts.

(** C5, as the code has it.  A request that is not empty, is valid base64
    and whose decryption under the loaded key raises, whatever the
    exception, is answered with the one response 500 "Decryption failed",
    and the store is left as it was. *)
Theorem provision_decryption_failed `{Unicode} `{Crypto}
    (p : App.process) (key : private_key) (encrypted_seed : str)
    (ciphertext : bytes) (e : exn) (σ : fs) :
  encrypted_seed <> [] ->
  App.PRIVATE_KEY p = Some key ->
  b64decode encrypted_seed = Return ciphertext ->
  oaep_sha256_decrypt key ciphertext = Raise e ->
  App.decrypt_seed_endpoint p encrypted_seed σ
  = (App.HTTPException 500 (App.Error (lit "Decryption failed")), σ).
Proof.
  intros Hreq Hkey Hb64 Hdec.
  rewrite (provision_decrypt_raises p key encrypted_seed ciphertext
             (RuntimeError (lit "Decryption failed (Key or Parameter Mismatch)")));
    [done | done | done | done |].
  unfold App.decrypt_seed_from_bytes. by rewrite Hdec.
Qed.

Lemma provision_decryption_failed_witness :
  @App.decrypt_seed_endpoint ascii_unicode toy_crypto
    toy_process (9 :: seed0) store1
  = (App.HTTPException 500 (App.Error (lit "Decryption failed")), store1).
Proof.
  by apply (@provision_decryption_failed ascii_unicode toy_crypto
              toy_process 7 (9 :: seed0) (9 :: seed0)
              (ValueError (lit "Decryption failed")) store1).
Defined.

(** C5, as the claim has it, fails: the empty request is valid base64 and
    does not decrypt, and it is answered 400 "Missing encrypted_seed". *)
Lemma provision_decryption_failed_not_for_empty :
  ¬ (forall (U : Unicode) (C : Crypto) (p : App.process) (key : private_key)
            (encrypted_seed : str) (ciphertext : bytes) (e : exn) (σ : fs),
       App.PRIVATE_KEY p = Some key ->
       b64decode encrypted_seed = Return ciphertext ->
       oaep_sha256_decrypt key ciphertext = Raise e ->
       App.decrypt_seed_endpoint p encrypted_seed σ
       = (App.HTTPException 500 (App.Error (lit "Decryption failed")), σ)).
Proof.
  intros Hclaim.
  specialize (Hclaim ascii_unicode toy_crypto toy_process 7 [] []
                _ store1 eq_refl eq_refl eq_refl).
  rewrite provision_empty_request in Hclaim. discriminate Hclaim.
Qed.

(** C10, as the code has it.  A plaintext that is not UTF-8 makes
    [decode] raise [UnicodeDecodeError], a [ValueError]: the request is
    answered on the bad-request path, 400 with that error as its detail,
    and the store is left as it was. *)
Theorem provision_non_utf8_plaintext `{Unicode} `{Crypto}
    (p : App.process) (key : private_key) (encrypted_seed : str)
    (ciphertext plaintext : bytes) (σ : fs) :
  encrypted_seed <> [] ->
  App.PRIVATE_KEY p = Some key ->
  b64decode encrypted_seed = Return ciphertext ->
  oaep_sha256_decrypt key ciphertext = Return plaintext ->
  Utf8.decode_opt plaintext = None ->
  App.decrypt_seed_endpoint p encrypted_seed σ
  = (App.HTTPException 400 (App.ErrorOf (UnicodeDecodeError plaintext)), σ).
Proof.
  intros Hreq Hkey Hb64 Hdec Hutf.
  rewrite (provision_decrypt_raises p key encrypted_seed ciphertext
             (UnicodeDecodeError plaintext)); [done | done | done | done |].
  unfold App.decrypt_seed_from_bytes, Utf8.decode. by rewrite Hdec, Hutf.
Qed.

Lemma provision_non_utf8_plaintext_witness :
  @App.decrypt_seed_endpoint ascii_unicode toy_crypto
    toy_process [7; 0xC3; 0x28] store1
  = (App.HTTPException 400 (App.ErrorOf (UnicodeDecodeError [0xC3; 0x28])), store1).
Proof.
  by apply (@provision_non_utf8_plaintext ascii_unicode toy_crypto
              toy_process 7 [7; 0xC3; 0x28] [7; 0xC3; 0x28]
              [0xC3; 0x28] store1).
Defined.

(** C10, as the claim has it, fails: the answer is not the 500 of a failed
    decryption. *)
Lemma provision_non_utf8_plaintext_not_500 :
  ¬ (forall (U : Unicode) (C : Crypto) (p : App.process) (key : private_key)
            (encrypted_seed : str) (ciphertext plaintext : bytes) (σ : fs),
       encrypted_seed <> [] ->
       App.PRIVATE_KEY p = Some key ->
       b64decode encrypted_seed = Return ciphertext ->
       oaep_sha256_decrypt key ciphertext = Return plaintext ->
       Utf8.decode_opt plaintext = None ->
       App.decrypt_seed_endpoint p encrypted_seed σ
       = (App.HTTPException 500 (App.Error (lit "Decryption failed")), σ)).
Proof.
  intros Hclaim.
  specialize (Hclaim ascii_unicode toy_crypto toy_process 7
                [7; 0xC3; 0x28] [7; 0xC3; 0x28] [0xC3; 0x28] store1).
  discriminate Hclaim; done.
Qed.

(** C8, as the code has it.  When the key cannot be loaded at start, the
    start still yields a process: it holds no key and records the failure.
    From then on a provisioning request that is not empty is answered 500
    "Server private key not available" and leaves the store as it was; an
    empty one is turned away as a bad request first.  The other two
    endpoints answer as they would with any other process state. *)
Theorem key_load_failure_contained `{Unicode} `{Crypto} (e : exn) :
  read_binary App.PRIVATE_KEY_PATH ≫= load_pem_private_key = Raise e ->
  App.PRIVATE_KEY App.startup = None
  /\ App._privkey_load_error App.startup
     = Some (RuntimeErrorFrom
               (lit "Failed to load private key from " ++ App.PRIVATE_KEY_PATH ++ lit ": ") e)
  /\ (forall encrypted_seed σ,
        encrypted_seed <> [] ->
        App.decrypt_seed_endpoint App.startup encrypted_seed σ
        = (App.HTTPException 500 (App.Error (lit "Server private key not available")), σ))
  /\ (forall σ,
        App.decrypt_seed_endpoint App.startup [] σ
        = (App.HTTPException 400 (App.Error (lit "Missing encrypted_seed")), σ))
  /\ (forall p t_code t_valid σ,
        App.generate_2fa_endpoint App.startup t_code t_valid σ
        = App.generate_2fa_endpoint p t_code t_valid σ)
  /\ (forall p code now σ,
        App.verify_2fa_endpoint App.startup code now σ
        = App.verify_2fa_endpoint p code now σ).
Proof.
  intros Hload. rewrite (startup_failure e Hload). repeat split.
  intros encrypted_seed σ Hreq. by apply provision_without_key.
Qed.

Lemma key_load_failure_contained_witness :
  @App.decrypt_seed_endpoint ascii_unicode toy_crypto App.startup (7 :: seed0) store1
  = (App.HTTPException 500 (App.Error (lit "Server private key not available")), store1).
Proof.
  destruct (@key_load_failure_contained ascii_unicode toy_crypto Os.enoent eq_refl)
    as (_ & _ & Hprov & _).
  by apply Hprov.
Defined.

(** C8, as the claim has it, fails: with no key loaded an empty request is
    still answered 400 "Missing encrypted_seed". *)
Lemma key_unavailable_not_for_empty :
  ¬ (forall (U : Unicode) (C : Crypto) (e : exn) (encrypted_seed : str) (σ : fs),
       read_binary App.PRIVATE_KEY_PATH ≫= load_pem_private_key = Raise e ->
       App.decrypt_seed_endpoint App.startup encrypted_seed σ
       = (App.HTTPException 500 (App.Error (lit "Server private key not available")), σ)).
Proof.
  intros Hclaim.
  specialize (Hclaim ascii_unicode toy_crypto Os.enoent [] store1 eq_refl).
  rewrite provision_empty_request in Hclaim. discriminate Hclaim.
Qed.

(** ** Base32 *)

Ltac eval_pow2 :=
  repeat match goal with
  | |- context [2 ^ ?n] =>
      let v := eval vm_compute in (2 ^ n) in change (2 ^ n) with v
  | H : context [2 ^ ?n] |- _ =>
      let v := eval vm_compute in (2 ^ n) in change (2 ^ n) with v in H
  end.

Ltac list_eq_by tac :=
  repeat (apply (f_equal2 cons); [tac |]); try reflexivity.

Ltac div_mod_lia := eval_pow2; Z.div_mod_to_equations; lia.

Section Base32Facts.
Import Codec.

(** Whatever holds of the 32 characters of the alphabet and of the default
    [0] holds of every [b32tab i]. *)
Lemma b32tab_cases (P : Z -> Prop) i :
  List.Forall P b32alphabet -> P 0 -> P (b32tab i).
Proof.
  intros Hall H0. unfold b32tab.
  destruct (nth_in_or_default (Z.to_nat i) b32alphabet 0) as [Hin | ->]; [| done].
  rewrite List.Forall_forall in Hall. by apply Hall.
Qed.

Ltac b32tab_fact :=
  apply b32tab_cases; [vm_compute; repeat constructor | vm_compute]; done.

Lemma b32tab_not_pad i : (b32tab i =? pad_char) = false.
Proof. b32tab_fact. Qed.

Lemma b32tab_ascii i : (0 <=? b32tab i) && (b32tab i <? 128) = true.
Proof. b32tab_fact. Qed.

Lemma b32tab_not_space i : PyStr.isspace (b32tab i) = false.
Proof. b32tab_fact. Qed.

Lemma b32tab_upper i : upper (b32tab i) = b32tab i.
Proof. b32tab_fact. Qed.

Lemma b32rev_b32tab i : 0 <= i < 32 -> b32rev (b32tab i) = Some i.
Proof.
  intros Hi.
  assert (List.In i (seqZ 0 32)) as Hin by (apply list_elem_of_In, elem_of_seqZ; lia).
  clear Hi. revert i Hin. apply List.Forall_forall. vm_compute. repeat constructor.
Qed.

End Base32Facts.

Section QuantumFacts.
Import Codec Rfc4648.

Lemma from_bytes5_bound b0 b1 b2 b3 b4 :
  byte_ok b0 -> byte_ok b1 -> byte_ok b2 -> byte_ok b3 -> byte_ok b4 ->
  0 <= from_bytes [b0; b1; b2; b3; b4] < 2 ^ 40.
Proof. unfold byte_ok, from_bytes. cbn [fold_left]. lia. Qed.

Lemma encode_quantum_digits c :
  0 <= c < 2 ^ 40 -> encode_quantum c = map b32tab (digits32 c).
Proof.
  intros Hc. unfold encode_quantum, b32tab2, digits32.
  change 0x3ff with (Z.ones 10). rewrite !Z.land_ones, !Z.shiftr_div_pow2 by lia.
  cbn [map app].
  list_eq_by ltac:(apply (f_equal b32tab); div_mod_lia).
Qed.

(** The eight characters of a quantum are the eight groups of five bits of
    its five octets. *)
Lemma groups_quantum b0 b1 b2 b3 b4 :
  byte_ok b0 -> byte_ok b1 -> byte_ok b2 -> byte_ok b3 -> byte_ok b4 ->
  groups (bit_stream [b0; b1; b2; b3; b4]) = digits32 (from_bytes [b0; b1; b2; b3; b4]).
Proof.
  unfold byte_ok. intros.
  unfold bit_stream, octet_bits, bit, digits32, from_bytes.
  cbn [flat_map app groups fold_left]. unfold group_value.
  list_eq_by ltac:(div_mod_lia).
Qed.

Lemma digits32_range c : Forall (fun d => 0 <= d < 32) (digits32 c).
Proof. unfold digits32. repeat constructor; apply Z.mod_pos_bound; lia. Qed.

Lemma accumulate_digits ds acc :
  Forall (fun d => 0 <= d < 32) ds ->
  accumulate (map b32tab ds) acc = Some (horner32 ds acc).
Proof.
  intros Hds. revert acc. induction Hds as [|d ds Hd _ IH]; intros acc; [done |].
  cbn [map accumulate]. rewrite (b32rev_b32tab d Hd), IH.
  by rewrite Z.shiftl_mul_pow2.
Qed.

Lemma horner32_digits c : 0 <= c < 2 ^ 40 -> horner32 (digits32 c) 0 = c.
Proof. intros Hc. unfold horner32, digits32. cbn [fold_left]. div_mod_lia. Qed.

Lemma horner32_take2 c : horner32 (take 2 (digits32 c)) 0 * 2 ^ 30 = c / 2 ^ 30 mod 2 ^ 10 * 2 ^ 30.
Proof. unfold horner32, digits32. cbn [take fold_left]. div_mod_lia. Qed.

Lemma horner32_take4 c : horner32 (take 4 (digits32 c)) 0 * 2 ^ 20 = c / 2 ^ 20 mod 2 ^ 20 * 2 ^ 20.
Proof. unfold horner32, digits32. cbn [take fold_left]. div_mod_lia. Qed.

Lemma horner32_take5 c : horner32 (take 5 (digits32 c)) 0 * 2 ^ 15 = c / 2 ^ 15 mod 2 ^ 25 * 2 ^ 15.
Proof. unfold horner32, digits32. cbn [take fold_left]. div_mod_lia. Qed.

Lemma horner32_take7 c : horner32 (take 7 (digits32 c)) 0 * 2 ^ 5 = c / 2 ^ 5 mod 2 ^ 35 * 2 ^ 5.
Proof. unfold horner32, digits32. cbn [take fold_left]. div_mod_lia. Qed.

Lemma to_bytes5_from_bytes b0 b1 b2 b3 b4 :
  byte_ok b0 -> byte_ok b1 -> byte_ok b2 -> byte_ok b3 -> byte_ok b4 ->
  to_bytes5 (from_bytes [b0; b1; b2; b3; b4]) = [b0; b1; b2; b3; b4].
Proof.
  unfold byte_ok. intros. unfold to_bytes5, from_bytes.
  change (seqZ 0 5) with [0; 1; 2; 3; 4]. cbn [map fold_left].
  change 255 with (Z.ones 8). rewrite !Z.land_ones, !Z.shiftr_div_pow2 by lia.
  list_eq_by ltac:(cbn [Z.mul Z.sub Z.opp Z.add Z.pos_sub Pos.mul Pos.add Pos.succ Pos.pred_double]; div_mod_lia).
Qed.

End QuantumFacts.

Section EncodeFacts.
Import Codec Rfc4648.

(** Lists are read five octets at a time. *)
Lemma chunk5_ind (P : list Z -> Prop) :
  P [] -> (forall a, P [a]) -> (forall a b, P [a; b]) ->
  (forall a b c, P [a; b; c]) -> (forall a b c d, P [a; b; c; d]) ->
  (forall a b c d e r, P r -> P (a :: b :: c :: d :: e :: r)) ->
  forall l, P l.
Proof.
  intros H0 H1 H2 H3 H4 H5 l.
  remember (length l) as n eqn:Hn. revert l Hn.
  induction (lt_wf n) as [n _ IH]. intros l ->.
  destruct l as [|a [|b [|c [|d [|e r]]]]]; auto.
  apply H5, (IH (length r)); [simpl; lia | done].
Qed.

Lemma length_encode_quantum c : length (encode_quantum c) = 8%nat.
Proof. done. Qed.

Lemma length_encoded qs : length (flat_map encode_quantum qs) = (8 * length qs)%nat.
Proof.
  induction qs as [|q qs IH]; [done |].
  cbn [flat_map]. rewrite length_app, IH, length_encode_quantum. simpl. lia.
Qed.

Lemma quanta_nonempty s : s <> [] -> (1 <= length (quanta s))%nat.
Proof. destruct s as [|a [|b [|c [|d [|e r]]]]]; simpl; intros; (done || lia). Qed.

Lemma set_tail_app n Q E :
  (n <= length E)%nat -> set_tail n (Q ++ E) = Q ++ set_tail n E.
Proof.
  intros Hn. unfold set_tail. rewrite length_app, take_app.
  rewrite take_ge by lia. rewrite <- app_assoc. do 3 f_equal. lia.
Qed.

Lemma b32encode_chunk b0 b1 b2 b3 b4 r :
  b32encode (b0 :: b1 :: b2 :: b3 :: b4 :: r)
  = encode_quantum (from_bytes [b0; b1; b2; b3; b4]) ++ b32encode r.
Proof.
  unfold b32encode.
  replace (length (b0 :: b1 :: b2 :: b3 :: b4 :: r) mod 5)%nat with (length r mod 5)%nat
    by (change (length (b0 :: b1 :: b2 :: b3 :: b4 :: r)) with (5 + length r)%nat;
        by rewrite (Nat.add_comm 5), <- (Nat.Div0.mod_add (length r) 1 5)).
  pose proof (Nat.mod_upper_bound (length r) 5 ltac:(lia)) as Hl.
  destruct (length r mod 5)%nat as [|l] eqn:Hmod.
  - cbn [Nat.eqb quanta flat_map]. done.
  - cbn [Nat.eqb app quanta flat_map].
    set (E := flat_map encode_quantum (quanta (r ++ repeat 0 (5 - S l)))).
    assert (8 <= length E)%nat as HE.
    { unfold E. rewrite length_encoded.
      pose proof (quanta_nonempty (r ++ repeat 0 (5 - S l))) as Hq.
      destruct (5 - S l)%nat eqn:Hpad; [lia |].
      specialize (Hq ltac:(destruct r; simpl; discriminate)). lia. }
    destruct l as [|[|[|[|l]]]]; [| | | | lia]; by rewrite set_tail_app by lia.
Qed.

Lemma remove_pad_b32 ds :
  PyStr.remove_char pad_char (map b32tab ds) = map b32tab ds.
Proof.
  induction ds as [|d ds IH]; [done |].
  unfold PyStr.remove_char in *. cbn [map List.filter].
  by rewrite b32tab_not_pad, IH.
Qed.

Lemma groups_chunk b0 b1 b2 b3 b4 r :
  groups (bit_stream (b0 :: b1 :: b2 :: b3 :: b4 :: r))
  = groups (bit_stream [b0; b1; b2; b3; b4]) ++ groups (bit_stream r).
Proof. reflexivity. Qed.

End EncodeFacts.

Section Refinement.
Import Codec Rfc4648.

Lemma byte_ok_0 : byte_ok 0.
Proof. unfold byte_ok. lia. Qed.

(** The encoding of a last, incomplete group of octets, without its
    padding, for each of the four lengths. *)
Ltac unpadded_tail :=
  unfold digits32, set_tail, PyStr.remove_char;
  cbn [map length Nat.sub firstn repeat app List.filter];
  rewrite !b32tab_not_pad, ?Z.eqb_refl; cbn [negb];
  unfold base32_unpadded, bit_stream, octet_bits;
  cbn [flat_map app groups map];
  unfold group_value, bit, from_bytes; cbn [fold_left];
  list_eq_by ltac:(apply (f_equal b32tab); unfold byte_ok in *; div_mod_lia).

(** [b32encode] without its padding is the base32 of RFC 4648. *)
Lemma b32encode_unpadded bs :
  Forall byte_ok bs ->
  PyStr.remove_char pad_char (b32encode bs) = base32_unpadded bs.
Proof.
  induction bs as [|a|a b|a b c|a b c d|a b c d e r IH] using chunk5_ind; intros Hok.
  - done.
  - apply Forall_cons in Hok as [Ha _].
    change (b32encode [a])
      with (set_tail 6 (encode_quantum (from_bytes [a; 0; 0; 0; 0]))).
    rewrite encode_quantum_digits by (apply from_bytes5_bound; auto using byte_ok_0).
    unpadded_tail.
  - apply Forall_cons in Hok as [Ha Hok]; apply Forall_cons in Hok as [Hb _].
    change (b32encode [a; b])
      with (set_tail 4 (encode_quantum (from_bytes [a; b; 0; 0; 0]))).
    rewrite encode_quantum_digits by (apply from_bytes5_bound; auto using byte_ok_0).
    unpadded_tail.
  - apply Forall_cons in Hok as [Ha Hok]; apply Forall_cons in Hok as [Hb Hok];
      apply Forall_cons in Hok as [Hc _].
    change (b32encode [a; b; c])
      with (set_tail 3 (encode_quantum (from_bytes [a; b; c; 0; 0]))).
    rewrite encode_quantum_digits by (apply from_bytes5_bound; auto using byte_ok_0).
    unpadded_tail.
  - apply Forall_cons in Hok as [Ha Hok]; apply Forall_cons in Hok as [Hb Hok];
      apply Forall_cons in Hok as [Hc Hok]; apply Forall_cons in Hok as [Hd _].
    change (b32encode [a; b; c; d])
      with (set_tail 1 (encode_quantum (from_bytes [a; b; c; d; 0]))).
    rewrite encode_quantum_digits by (apply from_bytes5_bound; auto using byte_ok_0).
    unpadded_tail.
  - apply Forall_cons in Hok as [Ha Hok]; apply Forall_cons in Hok as [Hb Hok];
      apply Forall_cons in Hok as [Hc Hok]; apply Forall_cons in Hok as [Hd Hok];
      apply Forall_cons in Hok as [He Hok].
    rewrite b32encode_chunk. unfold PyStr.remove_char. rewrite List.filter_app.
    fold (PyStr.remove_char pad_char (b32encode r)). rewrite (IH Hok).
    rewrite encode_quantum_digits by by apply from_bytes5_bound.
    fold (PyStr.remove_char pad_char (map b32tab (digits32 (from_bytes [a; b; c; d; e])))).
    rewrite remove_pad_b32.
    unfold base32_unpadded. rewrite groups_chunk, map_app.
    by rewrite groups_quantum.
Qed.

End Refinement.

(** ** Hexadecimal text *)

Section HexFacts.
Import Codec.

(** [fromhex] reads a blank, or two characters, at a time. *)
Lemma fromhex_ind (P : list Z -> Prop) :
  P [] ->
  (forall c s, Py_ISSPACE c = true -> P s -> P (c :: s)) ->
  (forall c, Py_ISSPACE c = false -> P [c]) ->
  (forall c d s, Py_ISSPACE c = false -> P s -> P (c :: d :: s)) ->
  forall s, P s.
Proof.
  intros Hnil Hblank Hone Htwo s.
  remember (length s) as n eqn:Hn. revert s Hn.
  induction (lt_wf n) as [n _ IH]. intros s ->.
  destruct s as [|c s]; [done |].
  destruct (Py_ISSPACE c) eqn:Hc.
  - apply Hblank; [done |]. apply (IH (length s)); [simpl; lia | done].
  - destruct s as [|d s]; [by apply Hone |].
    apply Htwo; [done |]. apply (IH (length s)); [simpl; lia | done].
Qed.

Lemma hex_value_Some c : PyStr.is_hex_digit c = true -> exists v, hex_value c = Some v.
Proof.
  unfold PyStr.is_hex_digit, hex_value. intros Hc.
  repeat case_match; eauto. lia.
Qed.

Lemma hex_value_None c : PyStr.is_hex_digit c = false -> hex_value c = None.
Proof.
  unfold PyStr.is_hex_digit, hex_value. intros Hc.
  repeat case_match; try done; lia.
Qed.

Lemma hex_value_range c v : hex_value c = Some v -> 0 <= v < 16.
Proof. unfold hex_value. repeat case_match; intros [= <-]; lia. Qed.

Lemma hex_digit_not_blank c : PyStr.is_hex_digit c = true -> Py_ISSPACE c = false.
Proof. unfold PyStr.is_hex_digit, Py_ISSPACE. lia. Qed.

Lemma fromhex_step c d s :
  Py_ISSPACE c = false ->
  fromhex (c :: d :: s) =
    match hex_value c, hex_value d with
    | Some top, Some bot => cons (Z.shiftl top 4 + bot) <$> fromhex s
    | _, _ => Raise fromhex_error
    end.
Proof. intros Hc. cbn [fromhex]. rewrite Hc. by repeat case_match. Qed.

(** On valid hexadecimal text [fromhex] returns the octets the pairs of
    digits stand for. *)
Lemma fromhex_valid h : valid_hex h -> fromhex h = Return (hex_pairs h).
Proof.
  intros [Hhex Heven]. revert Hhex Heven.
  induction h as [|c s Hc IH|c Hc|c d s Hc IH] using fromhex_ind; intros Hhex Heven.
  - done.
  - apply Forall_cons in Hhex as [Hhex _].
    apply hex_digit_not_blank in Hhex. congruence.
  - destruct Heven as [k Hk]. simpl in Hk. lia.
  - apply Forall_cons in Hhex as [Hc' Hhex]. apply Forall_cons in Hhex as [Hd' Hhex].
    rewrite fromhex_step by done.
    destruct (hex_value_Some c Hc') as [top Htop].
    destruct (hex_value_Some d Hd') as [bot Hbot].
    rewrite Htop, Hbot, IH; [| done |].
    + cbn [hex_pairs fmap result_fmap]. rewrite Htop, Hbot. cbn [default].
      by rewrite Z.shiftl_mul_pow2, Z.mul_comm.
    + destruct Heven as [k Hk]. exists (k - 1)%nat. simpl in Hk. lia.
Qed.

Lemma fromhex_bytes_ok h bs : fromhex h = Return bs -> Forall byte_ok bs.
Proof.
  revert bs.
  induction h as [|c s Hc IH|c Hc|c d s Hc IH] using fromhex_ind; intros bs.
  - intros [= <-]. constructor.
  - cbn [fromhex]. rewrite Hc. apply IH.
  - cbn [fromhex]. rewrite Hc. by case_match.
  - rewrite fromhex_step by done.
    destruct (hex_value c) as [top|] eqn:Htop; [| done].
    destruct (hex_value d) as [bot|] eqn:Hbot; [| done].
    destruct (fromhex s) as [bs'|e]; [| done].
    intros [= <-]. constructor; [| by apply IH].
    apply hex_value_range in Htop, Hbot. unfold byte_ok.
    rewrite Z.shiftl_mul_pow2 by lia. lia.
Qed.

(** A character that is neither a digit nor a blank makes [fromhex] raise. *)
Lemma fromhex_bad_char h :
  Exists (fun c => PyStr.is_hex_digit c = false /\ Py_ISSPACE c = false) h ->
  exists e, fromhex h = Raise e.
Proof.
  induction h as [|c s Hc IH|c Hc|c d s Hc IH] using fromhex_ind; intros Hbad.
  - by apply Exists_nil in Hbad.
  - cbn [fromhex]. rewrite Hc. apply IH.
    apply Exists_cons in Hbad as [[_ Hbad] | Hbad]; [congruence | done].
  - cbn [fromhex]. rewrite Hc. case_match; eauto.
  - rewrite fromhex_step by done.
    destruct (hex_value c) as [top|] eqn:Htop; [| eauto].
    destruct (hex_value d) as [bot|] eqn:Hbot; [| eauto].
    apply Exists_cons in Hbad as [[Hbad _] | Hbad].
    { apply hex_value_None in Hbad. congruence. }
    apply Exists_cons in Hbad as [[Hbad _] | Hbad].
    { apply hex_value_None in Hbad. congruence. }
    destruct (IH Hbad) as [e ->]. eauto.
Qed.

(** So does an odd number of characters other than blanks. *)
Lemma fromhex_odd h :
  Nat.Odd (length (List.filter (fun c => negb (Py_ISSPACE c)) h)) ->
  exists e, fromhex h = Raise e.
Proof.
  induction h as [|c s Hc IH|c Hc|c d s Hc IH] using fromhex_ind; intros Hodd.
  - destruct Hodd as [k Hk]. simpl in Hk. lia.
  - cbn [fromhex]. rewrite Hc. apply IH. cbn [List.filter] in Hodd. by rewrite Hc in Hodd.
  - cbn [fromhex]. rewrite Hc. case_match; eauto.
  - rewrite fromhex_step by done.
    destruct (hex_value c) as [top|] eqn:Htop; [| eauto].
    destruct (hex_value d) as [bot|] eqn:Hbot; [| eauto].
    assert (Py_ISSPACE d = false) as Hd.
    { unfold hex_value in Hbot. unfold Py_ISSPACE. repeat case_match; try done; lia. }
    cbn [List.filter] in Hodd. rewrite Hc, Hd in Hodd. cbn [negb length] in Hodd.
    destruct IH as [e ->]; [| eauto].
    destruct Hodd as [k Hk]. exists (k - 1)%nat. lia.
Qed.

End HexFacts.

Section Utf8Facts.

Lemma decode_ascii s :
  Forall (fun c => (0 <=? c) && (c <? 128) = true) s -> Utf8.decode s = Return s.
Proof.
  intros Hs. unfold Utf8.decode.
  assert (Utf8.decode_opt s = Some s) as ->; [| done].
  induction Hs as [|c s Hc _ IH]; [done |].
  cbn [Utf8.decode_opt]. by rewrite Hc, IH.
Qed.

End Utf8Facts.

Section HexToBase32.
Import Codec.

Lemma encoded_chars qs :
  Forall (fun c => exists i, c = b32tab i) (flat_map encode_quantum qs).
Proof.
  induction qs as [|q qs IH]; [constructor |].
  cbn [flat_map]. apply Forall_app. split; [| done].
  unfold encode_quantum, b32tab2. cbn [app]. repeat constructor; eauto.
Qed.

Lemma b32encode_chars bs :
  Forall (fun c => (exists i, c = b32tab i) \/ c = pad_char) (b32encode bs).
Proof.
  unfold b32encode.
  set (E := flat_map encode_quantum _).
  assert (Forall (fun c => (exists i, c = b32tab i) \/ c = pad_char) E) as HE.
  { eapply Forall_impl; [apply encoded_chars |]. intros c [i ->]. left. eauto. }
  assert (forall n, Forall (fun c => (exists i, c = b32tab i) \/ c = pad_char) (set_tail n E))
    as Htail.
  { intros n. unfold set_tail. apply Forall_app. split; [by apply Forall_take |].
    apply Forall_forall. intros c Hc%list_elem_of_In%repeat_spec. by right. }
  destruct (length bs mod 5)%nat as [|[|[|[|[|]]]]]; auto.
Qed.

(** From the octets [fromhex] returns, [hex_to_base32] returns their base32
    text without padding. *)
Lemma hex_to_base32_of_bytes h bs :
  fromhex h = Return bs ->
  App.hex_to_base32 h = Return (PyStr.remove_char pad_char (b32encode bs)).
Proof.
  intros Hh. unfold App.hex_to_base32. rewrite Hh.
  pose proof (b32encode_chars bs) as Hchars.
  rewrite decode_ascii.
  - cbn [mbind result_bind]. rewrite strip_no_space; [done |].
    eapply Forall_impl; [exact Hchars |].
    intros c [[i ->] | ->]; [apply b32tab_not_space | done].
  - eapply Forall_impl; [exact Hchars |].
    intros c [[i ->] | ->]; [apply b32tab_ascii | done].
Qed.

Lemma remove_char_not_in old s : ¬ List.In old (PyStr.remove_char old s).
Proof.
  unfold PyStr.remove_char. rewrite filter_In. intros [_ Hne].
  by rewrite Z.eqb_refl in Hne.
Qed.

End HexToBase32.

(** ** Decoding what [b32encode] wrote *)

Section RoundTrip.
Import Codec.

Abbreviation unpadded bs := (PyStr.remove_char pad_char (b32encode bs)).

Lemma unpadded_chunk b0 b1 b2 b3 b4 r :
  byte_ok b0 -> byte_ok b1 -> byte_ok b2 -> byte_ok b3 -> byte_ok b4 ->
  unpadded (b0 :: b1 :: b2 :: b3 :: b4 :: r)
  = map b32tab (digits32 (from_bytes [b0; b1; b2; b3; b4])) ++ unpadded r.
Proof.
  intros. rewrite b32encode_chunk. unfold PyStr.remove_char.
  rewrite List.filter_app.
  rewrite encode_quantum_digits by by apply from_bytes5_bound.
  f_equal. apply remove_pad_b32.
Qed.

Lemma pad_count_chunk b0 b1 b2 b3 b4 r :
  pad_count (b0 :: b1 :: b2 :: b3 :: b4 :: r) = pad_count r.
Proof.
  unfold pad_count.
  change (length (b0 :: b1 :: b2 :: b3 :: b4 :: r)) with (5 + length r)%nat.
  by rewrite (Nat.add_comm 5), <- (Nat.Div0.mod_add (length r) 1 5).
Qed.

Lemma decode_quanta_quantum c rest decoded acc0 :
  0 <= c < 2 ^ 40 ->
  decode_quanta (map b32tab (digits32 c) ++ rest) decoded acc0
  = decode_quanta rest (decoded ++ to_bytes5 c) c.
Proof.
  intros Hc.
  pose proof (accumulate_digits (digits32 c) 0 (digits32_range c)) as Hacc.
  rewrite (horner32_digits c Hc) in Hacc.
  unfold digits32 in *. cbn [map app] in *. cbn [decode_quanta].
  by rewrite Hacc.
Qed.

Lemma fix_last_quantum_app p decoded x0 x1 x2 x3 x4 acc :
  p <> 0%nat ->
  fix_last_quantum p (decoded ++ [x0; x1; x2; x3; x4]) acc
  = decoded ++ take ((43 - 5 * p) / 8) (to_bytes5 (Z.shiftl acc (5 * Z.of_nat p))).
Proof.
  intros Hp. unfold fix_last_quantum.
  destruct p as [|p]; [done |].
  assert (take (length (decoded ++ [x0; x1; x2; x3; x4]) - 5)
            (decoded ++ [x0; x1; x2; x3; x4]) = decoded) as Htake.
  { rewrite length_app. cbn [length].
    replace (length decoded + 5 - 5)%nat with (length decoded) by lia.
    apply take_app_length. }
  destruct decoded; cbn [app] in *; by rewrite Htake.
Qed.

Lemma to_bytes5_unfold n :
  to_bytes5 n =
    [Z.land (Z.shiftr n 32) 255; Z.land (Z.shiftr n 24) 255; Z.land (Z.shiftr n 16) 255;
     Z.land (Z.shiftr n 8) 255; Z.land (Z.shiftr n 0) 255].
Proof. reflexivity. Qed.

(** A last quantum of fewer than eight characters. *)
Lemma decode_quanta_partial ds decoded acc0 :
  (0 < length ds < 8)%nat ->
  Forall (fun d => 0 <= d < 32) ds ->
  decode_quanta (map b32tab ds) decoded acc0
  = Return (decoded ++ to_bytes5 (horner32 ds 0), horner32 ds 0).
Proof.
  intros Hlen Hds. pose proof (accumulate_digits ds 0 Hds) as Hacc.
  destruct ds as [|d0 [|d1 [|d2 [|d3 [|d4 [|d5 [|d6 [|d7 ds]]]]]]]];
    cbn [length] in Hlen; try lia;
    cbn [map] in *; cbn [decode_quanta]; by rewrite Hacc.
Qed.

Lemma take_digits_range k c : Forall (fun d => 0 <= d < 32) (take k (digits32 c)).
Proof. apply Forall_take, digits32_range. Qed.

(** The four shapes of an incomplete last group: what is left of its
    quantum decodes to the octets of the group. *)

Lemma decode_tail1 a decoded acc0 :
  byte_ok a ->
  exists D acc,
    decode_quanta (unpadded [a]) decoded acc0 = Return (D, acc)
    /\ fix_last_quantum 6 D acc = decoded ++ [a].
Proof.
  intros Ha. set (c := from_bytes [a; 0; 0; 0; 0]).
  assert (0 <= c < 2 ^ 40) as Hc by (apply from_bytes5_bound; auto using byte_ok_0).
  assert (unpadded [a] = map b32tab (take 2 (digits32 c))) as ->.
  { change (b32encode [a]) with (set_tail 6 (encode_quantum c)).
    rewrite encode_quantum_digits by done.
    unfold digits32, set_tail, PyStr.remove_char.
    cbn [map length Nat.sub firstn repeat app List.filter].
    by rewrite !b32tab_not_pad, ?Z.eqb_refl. }
  rewrite decode_quanta_partial by (apply take_digits_range || (cbn; lia)).
  eexists _, _. split; [done |].
  rewrite to_bytes5_unfold at 1. rewrite fix_last_quantum_app by done.
  f_equal. rewrite Z.shiftl_mul_pow2 by lia.
  change (5 * Z.of_nat 6) with 30. rewrite horner32_take2.
  replace (c / 2 ^ 30 mod 2 ^ 10 * 2 ^ 30) with c
    by (unfold c, from_bytes, byte_ok in *; cbn [fold_left]; div_mod_lia).
  unfold c. by rewrite to_bytes5_from_bytes by auto using byte_ok_0.
Qed.

Lemma decode_tail2 a b decoded acc0 :
  byte_ok a -> byte_ok b ->
  exists D acc,
    decode_quanta (unpadded [a; b]) decoded acc0 = Return (D, acc)
    /\ fix_last_quantum 4 D acc = decoded ++ [a; b].
Proof.
  intros Ha Hb. set (c := from_bytes [a; b; 0; 0; 0]).
  assert (0 <= c < 2 ^ 40) as Hc by (apply from_bytes5_bound; auto using byte_ok_0).
  assert (unpadded [a; b] = map b32tab (take 4 (digits32 c))) as ->.
  { change (b32encode [a; b]) with (set_tail 4 (encode_quantum c)).
    rewrite encode_quantum_digits by done.
    unfold digits32, set_tail, PyStr.remove_char.
    cbn [map length Nat.sub firstn repeat app List.filter].
    by rewrite !b32tab_not_pad, ?Z.eqb_refl. }
  rewrite decode_quanta_partial by (apply take_digits_range || (cbn; lia)).
  eexists _, _. split; [done |].
  rewrite to_bytes5_unfold at 1. rewrite fix_last_quantum_app by done.
  f_equal. rewrite Z.shiftl_mul_pow2 by lia.
  change (5 * Z.of_nat 4) with 20. rewrite horner32_take4.
  replace (c / 2 ^ 20 mod 2 ^ 20 * 2 ^ 20) with c
    by (unfold c, from_bytes, byte_ok in *; cbn [fold_left]; div_mod_lia).
  unfold c. by rewrite to_bytes5_from_bytes by auto using byte_ok_0.
Qed.

Lemma decode_tail3 a b c' decoded acc0 :
  byte_ok a -> byte_ok b -> byte_ok c' ->
  exists D acc,
    decode_quanta (unpadded [a; b; c']) decoded acc0 = Return (D, acc)
    /\ fix_last_quantum 3 D acc = decoded ++ [a; b; c'].
Proof.
  intros Ha Hb Hc'. set (c := from_bytes [a; b; c'; 0; 0]).
  assert (0 <= c < 2 ^ 40) as Hc by (apply from_bytes5_bound; auto using byte_ok_0).
  assert (unpadded [a; b; c'] = map b32tab (take 5 (digits32 c))) as ->.
  { change (b32encode [a; b; c']) with (set_tail 3 (encode_quantum c)).
    rewrite encode_quantum_digits by done.
    unfold digits32, set_tail, PyStr.remove_char.
    cbn [map length Nat.sub firstn repeat app List.filter].
    by rewrite !b32tab_not_pad, ?Z.eqb_refl. }
  rewrite decode_quanta_partial by (apply take_digits_range || (cbn; lia)).
  eexists _, _. split; [done |].
  rewrite to_bytes5_unfold at 1. rewrite fix_last_quantum_app by done.
  f_equal. rewrite Z.shiftl_mul_pow2 by lia.
  change (5 * Z.of_nat 3) with 15. rewrite horner32_take5.
  replace (c / 2 ^ 15 mod 2 ^ 25 * 2 ^ 15) with c
    by (unfold c, from_bytes, byte_ok in *; cbn [fold_left]; div_mod_lia).
  unfold c. by rewrite to_bytes5_from_bytes by auto using byte_ok_0.
Qed.

Lemma decode_tail4 a b c' d decoded acc0 :
  byte_ok a -> byte_ok b -> byte_ok c' -> byte_ok d ->
  exists D acc,
    decode_quanta (unpadded [a; b; c'; d]) decoded acc0 = Return (D, acc)
    /\ fix_last_quantum 1 D acc = decoded ++ [a; b; c'; d].
Proof.
  intros Ha Hb Hc' Hd. set (c := from_bytes [a; b; c'; d; 0]).
  assert (0 <= c < 2 ^ 40) as Hc by (apply from_bytes5_bound; auto using byte_ok_0).
  assert (unpadded [a; b; c'; d] = map b32tab (take 7 (digits32 c))) as ->.
  { change (b32encode [a; b; c'; d]) with (set_tail 1 (encode_quantum c)).
    rewrite encode_quantum_digits by done.
    unfold digits32, set_tail, PyStr.remove_char.
    cbn [map length Nat.sub firstn repeat app List.filter].
    by rewrite !b32tab_not_pad, ?Z.eqb_refl. }
  rewrite decode_quanta_partial by (apply take_digits_range || (cbn; lia)).
  eexists _, _. split; [done |].
  rewrite to_bytes5_unfold at 1. rewrite fix_last_quantum_app by done.
  f_equal. rewrite Z.shiftl_mul_pow2 by lia.
  change (5 * Z.of_nat 1) with 5. rewrite horner32_take7.
  replace (c / 2 ^ 5 mod 2 ^ 35 * 2 ^ 5) with c
    by (unfold c, from_bytes, byte_ok in *; cbn [fold_left]; div_mod_lia).
  unfold c. by rewrite to_bytes5_from_bytes by auto using byte_ok_0.
Qed.

(** The loop of [b32decode] over the text without padding, followed by the
    repair of the last quantum, yields the octets that were encoded. *)
Lemma decode_unpadded bs :
  Forall byte_ok bs ->
  forall decoded acc0,
  exists D acc,
    decode_quanta (unpadded bs) decoded acc0 = Return (D, acc)
    /\ fix_last_quantum (pad_count bs) D acc = decoded ++ bs.
Proof.
  induction bs as [|a|a b|a b c|a b c d|a b c d e r IH] using chunk5_ind;
    intros Hok decoded acc0.
  - exists decoded, acc0. split; [done |]. by rewrite app_nil_r.
  - apply Forall_cons in Hok as [Ha _]. by apply decode_tail1.
  - apply Forall_cons in Hok as [Ha Hok]; apply Forall_cons in Hok as [Hb _].
    by apply decode_tail2.
  - apply Forall_cons in Hok as [Ha Hok]; apply Forall_cons in Hok as [Hb Hok];
      apply Forall_cons in Hok as [Hc _].
    by apply decode_tail3.
  - apply Forall_cons in Hok as [Ha Hok]; apply Forall_cons in Hok as [Hb Hok];
      apply Forall_cons in Hok as [Hc Hok]; apply Forall_cons in Hok as [Hd _].
    by apply decode_tail4.
  - apply Forall_cons in Hok as [Ha Hok]; apply Forall_cons in Hok as [Hb Hok];
      apply Forall_cons in Hok as [Hc Hok]; apply Forall_cons in Hok as [Hd Hok];
      apply Forall_cons in Hok as [He Hok].
    rewrite unpadded_chunk, pad_count_chunk by done.
    rewrite decode_quanta_quantum by by apply from_bytes5_bound.
    rewrite to_bytes5_from_bytes by done.
    destruct (IH Hok (decoded ++ [a; b; c; d; e]) (from_bytes [a; b; c; d; e]))
      as (D & acc & -> & HD).
    exists D, acc. split; [done |]. by rewrite HD, <- app_assoc.
Qed.

Lemma unpadded_chars bs : Forall (fun c => exists i, c = b32tab i) (unpadded bs).
Proof.
  pose proof (b32encode_chars bs) as Hchars. unfold PyStr.remove_char.
  induction Hchars as [|c s [Hc | ->] _ IH]; cbn [List.filter].
  - constructor.
  - destruct Hc as [i ->]. rewrite b32tab_not_pad. by constructor; eauto.
  - by rewrite Z.eqb_refl.
Qed.

Lemma remove_pad_id s :
  Forall (fun c => (c =? pad_char) = false) s -> PyStr.remove_char pad_char s = s.
Proof.
  intros Hs. unfold PyStr.remove_char.
  induction Hs as [|c s Hc _ IH]; [done |].
  cbn [List.filter]. by rewrite Hc, IH.
Qed.

Lemma remove_pad_repeat n : PyStr.remove_char pad_char (repeat pad_char n) = [].
Proof.
  unfold PyStr.remove_char.
  induction n as [|n IH]; [done |]. cbn [repeat List.filter]. by rewrite Z.eqb_refl.
Qed.

(** [b32encode] writes its text without padding, then the padding. *)
Lemma b32encode_padding bs :
  b32encode bs = unpadded bs ++ repeat pad_char (pad_count bs)
  /\ (length (b32encode bs) mod 8 = 0)%nat.
Proof.
  unfold b32encode, pad_count.
  set (s := if (length bs mod 5 =? 0)%nat then bs else bs ++ repeat 0 (5 - length bs mod 5)).
  set (E := flat_map encode_quantum (quanta s)).
  assert (Forall (fun c => (c =? pad_char) = false) E) as HE.
  { eapply Forall_impl; [apply encoded_chars |].
    intros c [i ->]. apply b32tab_not_pad. }
  assert (length E mod 8 = 0)%nat as Hlen8.
  { unfold E. rewrite length_encoded, Nat.mul_comm. apply Nat.Div0.mod_mul. }
  assert (forall n, (n <= length E)%nat ->
            set_tail n E = PyStr.remove_char pad_char (set_tail n E) ++ repeat pad_char n
            /\ (length (set_tail n E) mod 8 = 0)%nat) as Htail.
  { intros n Hn. unfold set_tail. split.
    - unfold PyStr.remove_char. rewrite List.filter_app.
      fold (PyStr.remove_char pad_char (take (length E - n) E)).
      fold (PyStr.remove_char pad_char (repeat pad_char n)).
      rewrite remove_pad_repeat, app_nil_r, remove_pad_id; [done |].
      by apply Forall_take.
    - rewrite length_app, length_take, repeat_length, Nat.min_l by lia.
      by rewrite Nat.sub_add. }
  destruct bs as [|b bs]; [done |].
  assert (8 <= length E)%nat as Hnonempty.
  { unfold E. rewrite length_encoded.
    pose proof (quanta_nonempty s) as Hq.
    specialize (Hq ltac:(unfold s; destruct (length (b :: bs) mod 5 =? 0)%nat; cbn [app]; discriminate)). lia. }
  destruct (length (b :: bs) mod 5)%nat as [|[|[|[|[|]]]]];
    try (apply Htail; lia); rewrite remove_pad_id, app_nil_r; done.
Qed.

Lemma rstrip_pad_padding s n :
  Forall (fun c => (c =? pad_char) = false) s ->
  rstrip_pad (s ++ repeat pad_char n) = s.
Proof.
  intros Hs. unfold rstrip_pad. rewrite rev_app_distr, rev_repeat.
  assert (lstrip_pad (repeat pad_char n ++ rev s) = rev s) as ->;
    [| apply rev_involutive].
  induction n as [|n IH]; cbn [repeat app lstrip_pad].
  - apply Forall_rev in Hs. destruct Hs as [|c r Hc _]; [done |].
    cbn [lstrip_pad]. by rewrite Hc.
  - by rewrite Z.eqb_refl.
Qed.

Lemma unpadded_not_pad bs : Forall (fun c => (c =? pad_char) = false) (unpadded bs).
Proof.
  eapply Forall_impl; [apply unpadded_chars |].
  intros c [i ->]. apply b32tab_not_pad.
Qed.

Lemma pad_count_cases bs : pad_count bs ∈ [0; 1; 3; 4; 6]%nat.
Proof.
  unfold pad_count.
  destruct (length bs mod 5)%nat as [|[|[|[|[|]]]]]; set_solver.
Qed.

(** [b32decode] gives back the octets [b32encode] was given. *)
Lemma b32decode_b32encode bs :
  Forall byte_ok bs -> b32decode (b32encode bs) = Return bs.
Proof.
  intros Hok. unfold b32decode.
  destruct (b32encode_padding bs) as [Hpad Hlen8].
  pose proof (b32encode_chars bs) as Hchars.
  assert (forallb (fun c => (0 <=? c) && (c <? 128)) (b32encode bs) = true) as ->.
  { apply forallb_forall. intros c Hc%list_elem_of_In.
    rewrite Forall_forall in Hchars.
    destruct (Hchars c Hc) as [[i ->] | ->]; [apply b32tab_ascii | done]. }
  rewrite Hlen8. cbn [negb Nat.eqb].
  assert (map upper (b32encode bs) = b32encode bs) as ->.
  { clear -Hchars. induction Hchars as [|c s Hc _ IH]; [done |].
    cbn [map]. rewrite IH. f_equal.
    destruct Hc as [[i ->] | ->]; [apply b32tab_upper | done]. }
  rewrite Hlen8. cbn [negb Nat.eqb orb].
  pose proof (unpadded_not_pad bs) as Hnotpad.
  destruct (decode_unpadded bs Hok [] 0) as (D & acc & Hloop & HD).
  set (U := unpadded bs) in *. clearbody U. rewrite Hpad.
  rewrite rstrip_pad_padding by done.
  rewrite length_app, repeat_length.
  replace (length U + pad_count bs - length U)%nat with (pad_count bs) by lia.
  rewrite Hloop. cbn [mbind result_bind].
  rewrite bool_decide_eq_true_2 by apply pad_count_cases.
  cbn [negb]. by rewrite HD.
Qed.

(** The secret that [hex_to_base32] hands to [pyotp] decodes to the octets
    of the seed. *)
Lemma byte_secret_unpadded bs :
  Forall byte_ok bs -> Pyotp.byte_secret (unpadded bs) = Return bs.
Proof.
  intros Hok. unfold Pyotp.byte_secret.
  destruct (b32encode_padding bs) as [Hpad Hlen8].
  pose proof (b32decode_b32encode bs Hok) as Hdec.
  assert (pad_count bs < 8)%nat as Hlt.
  { unfold pad_count. repeat case_match; lia. }
  set (U := unpadded bs) in *. clearbody U.
  rewrite Hpad, length_app, repeat_length in Hlen8.
  assert ((if negb (length U mod 8 =? 0)%nat
           then U ++ repeat pad_char (8 - length U mod 8)
           else U) = b32encode bs) as ->; [| done].
  rewrite Hpad.
  pose proof (Nat.mod_upper_bound (length U) 8 ltac:(lia)) as Hub.
  rewrite <- Nat.Div0.add_mod_idemp_l in Hlen8.
  set (m := (length U mod 8)%nat) in *.
  destruct (Nat.eqb_spec m 0) as [H0 | Hne]; cbn [negb].
  - assert (pad_count bs = 0)%nat as ->; [| by rewrite app_nil_r].
    rewrite H0, Nat.add_0_l, Nat.mod_small in Hlen8; lia.
  - do 2 f_equal.
    assert (m + pad_count bs = 8)%nat; [| lia].
    destruct (Nat.lt_ge_cases (m + pad_count bs) 8) as [Hsmall | Hbig].
    + rewrite Nat.mod_small in Hlen8; lia.
    + replace (m + pad_count bs)%nat with ((m + pad_count bs - 8) + 1 * 8)%nat in Hlen8 by lia.
      rewrite Nat.Div0.mod_add, Nat.mod_small in Hlen8; lia.
Qed.

End RoundTrip.

(** ** The time-based codes *)

Section TotpFacts.
Import Codec.

Lemma string_of_uint_ascii d :
  Forall (fun c => 0 <= c < 128) (lit (NilEmpty.string_of_uint d)).
Proof.
  induction d; cbn [NilEmpty.string_of_uint]; try (constructor; [by vm_compute | done]).
  constructor.
Qed.

Lemma str_of_int_ascii n : Forall (fun c => 0 <= c < 128) (str_of_int n).
Proof.
  unfold str_of_int, NilZero.string_of_int, NilZero.string_of_uint.
  destruct (Z.to_int n) as [d | d].
  - destruct d; (apply (string_of_uint_ascii (Decimal.Nil)) || idtac);
      first [ by apply Forall_cons; split; [by vm_compute | constructor]
            | apply string_of_uint_ascii ].
  - constructor; [by vm_compute |].
    destruct d; first [ by apply Forall_cons; split; [by vm_compute | constructor]
                      | apply string_of_uint_ascii ].
Qed.

Lemma timecode_nonneg now : 0 <= now -> Pyotp.timecode now = now / 30.
Proof. intros Hnow. unfold Pyotp.timecode, Pyotp.interval. apply Z.quot_div_nonneg; lia. Qed.

Lemma timecode_of_counter k : Pyotp.timecode (k * 30) = k.
Proof. unfold Pyotp.timecode, Pyotp.interval. apply Z.quot_mul. lia. Qed.

(** With a secret that decodes, [generate_otp] returns a code for every
    counter that is not negative, and the code is ASCII. *)
Lemma generate_otp_Return secret key input :
  Pyotp.byte_secret secret = Return key ->
  0 <= input ->
  exists code, Pyotp.generate_otp secret input = Return code
               /\ Forall (fun c => 0 <= c < 128) code.
Proof.
  intros Hkey Hin. unfold Pyotp.generate_otp.
  destruct (Z.ltb_spec input 0) as [? | _]; [lia |].
  rewrite Hkey. cbn [mbind result_bind].
  eexists. split; [done |]. apply Forall_drop, str_of_int_ascii.
Qed.

Lemma seed_invariant_valid_hex s : App.seed_invariant s -> valid_hex s.
Proof. intros [Hlen Hhex]. split; [done |]. exists 32%nat. lia. Qed.

(** A valid seed reaches [pyotp] as a secret that decodes to its octets. *)
Lemma hex_seed_secret h :
  valid_hex h ->
  exists b32, App.hex_to_base32 h = Return b32
              /\ Pyotp.byte_secret b32 = Return (hex_pairs h).
Proof.
  intros Hh. pose proof (fromhex_valid h Hh) as Hbytes.
  eexists. split; [by apply hex_to_base32_of_bytes |].
  apply byte_secret_unpadded. by eapply fromhex_bytes_ok.
Qed.

Lemma code_at_spec h b32 k :
  App.hex_to_base32 h = Return b32 ->
  code_at h k = Pyotp.generate_otp b32 k.
Proof.
  intros Hb32. unfold code_at, App.generate_totp_from_hex, Pyotp.now.
  rewrite Hb32, timecode_of_counter. cbn [mbind result_bind].
  by destruct (Pyotp.generate_otp b32 k).
Qed.

End TotpFacts.

(** C4.  For a valid seed and clock readings since the epoch,
    [generate_totp_from_hex] returns a code together with
    [30 - (t mod 30)], [t] being the reading of [time.time()]; that number
    lies in 1..30, is 30 at the start of a step and 1 in its last second. *)
Theorem generate_totp_valid_for (hex_seed : str) (t_code t_valid : Z) :
  App.seed_invariant hex_seed ->
  0 <= t_code ->
  (exists code,
     App.generate_totp_from_hex hex_seed t_code t_valid
     = Return (code, 30 - t_valid mod 30))
  /\ 1 <= 30 - t_valid mod 30 <= 30
  /\ (t_valid mod 30 = 0 -> 30 - t_valid mod 30 = 30)
  /\ (t_valid mod 30 = 29 -> 30 - t_valid mod 30 = 1).
Proof.
  intros Hseed Ht. split; [| pose proof (Z.mod_pos_bound t_valid 30); lia].
  destruct (hex_seed_secret hex_seed (seed_invariant_valid_hex _ Hseed))
    as (b32 & Hb32 & Hkey).
  destruct (generate_otp_Return b32 _ (Pyotp.timecode t_code) Hkey) as (code & Hcode & _).
  { rewrite timecode_nonneg by done. apply Z.div_pos; lia. }
  exists code. unfold App.generate_totp_from_hex, Pyotp.now.
  rewrite Hb32. cbn [mbind result_bind]. by rewrite Hcode.
Qed.

Lemma generate_totp_valid_for_witness :
  App.generate_totp_from_hex seed0 1719587640 1719587669
  = Return (lit "181890", 1)
  /\ 1 <= 30 - 1719587669 mod 30 <= 30.
Proof.
  destruct (generate_totp_valid_for seed0 1719587640 1719587669) as [_ [Hrange _]].
  - split; [done |]. unfold seed0. vm_compute. repeat constructor.
  - lia.
  - split; [by vm_compute | exact Hrange].
Defined.

Section Utf8EncodeFacts.
Import Utf8.

Lemma ascii_not_surrogate c : 0 <= c < 128 -> surrogate c = false.
Proof. unfold surrogate. lia. Qed.

Lemma ascii_encodable s : Forall (fun c => 0 <= c < 128) s -> encodable s.
Proof.
  intros Hs. eapply Forall_impl; [exact Hs |]. intros c. apply ascii_not_surrogate.
Qed.

(** A code point is encoded as itself when it is below 128, and else as
    octets that start with one from 192 on. *)
Lemma encode_char_cases c b :
  encode_char c = Some b ->
  (c < 128 /\ b = [c]) \/ (128 <= c /\ exists b0 r, b = b0 :: r /\ 192 <= b0).
Proof.
  unfold encode_char. intros Henc.
  destruct (Z.ltb_spec c 128); [injection Henc as <-; by left |].
  right. split; [done |].
  destruct (c <? 2048) eqn:H2.
  { injection Henc as <-. eexists _, _. split; [reflexivity |].
    assert (0 <= c / 64) by (apply Z.div_pos; lia). lia. }
  destruct (surrogate c); [discriminate |].
  destruct (c <? 65536) eqn:H3; injection Henc as <-; eexists _, _;
    (split; [reflexivity |]).
  - assert (0 <= c / 4096) by (apply Z.div_pos; lia). lia.
  - assert (0 <= c / 262144) by (apply Z.div_pos; lia). lia.
Qed.

Lemma encode_char_None c : encode_char c = None <-> surrogate c = true.
Proof.
  unfold encode_char, surrogate.
  destruct (Z.ltb_spec c 128); [split; [discriminate | lia] |].
  destruct (Z.ltb_spec c 2048); [split; [discriminate | lia] |].
  destruct ((55296 <=? c) && (c <=? 57343)); [done |].
  destruct (c <? 65536); split; discriminate.
Qed.

Lemma encode_opt_Some s : encodable s -> exists bs, encode_opt s = Some bs.
Proof.
  induction 1 as [|c s Hc _ [bs IH]]; cbn [encode_opt]; [by eexists |].
  destruct (encode_char c) as [b |] eqn:Hb.
  - rewrite IH. by eexists.
  - apply encode_char_None in Hb. congruence.
Qed.

Lemma encode_opt_None s : ¬ encodable s -> encode_opt s = None.
Proof.
  intros Hs. destruct (encode_opt s) as [bs |] eqn:Hbs; [| done].
  exfalso. apply Hs. clear Hs. revert bs Hbs.
  induction s as [|c s IH]; intros bs; [constructor |].
  cbn [encode_opt].
  destruct (encode_char c) as [b |] eqn:Hb; [| discriminate].
  destruct (encode_opt s) as [bs' |]; [| discriminate].
  intros _. constructor; [| by eapply IH].
  destruct (surrogate c) eqn:Hc; [| done].
  apply encode_char_None in Hc. congruence.
Qed.

(** Text of ASCII is encoded as itself, and nothing else is encoded as it. *)
Lemma encode_opt_ascii s : Forall (fun c => 0 <= c < 128) s -> encode_opt s = Some s.
Proof.
  induction 1 as [|c s Hc _ IH]; cbn [encode_opt]; [done |].
  unfold encode_char. destruct (Z.ltb_spec c 128); [| lia]. by rewrite IH.
Qed.

Lemma encode_opt_eq_ascii t b c :
  encode_opt t = Some b ->
  Forall (fun x => 0 <= x < 128) c ->
  b = c <-> t = c.
Proof.
  revert b c. induction t as [|x t IH]; intros b c; cbn [encode_opt].
  { by intros [= <-]. }
  destruct (encode_char x) as [bx |] eqn:Hx; [| discriminate].
  destruct (encode_opt t) as [bt |] eqn:Ht; [| discriminate].
  intros [= <-] Hc.
  destruct (encode_char_cases x bx Hx) as [[_ ->] | [Hhigh (b0 & r & -> & Hb0)]].
  - destruct Hc as [|y c Hy Hc]; [done |].
    cbn [app]. specialize (IH bt c eq_refl Hc).
    split; intros [= -> Heq]; f_equal; by apply IH.
  - destruct Hc as [|y c Hy Hc]; [done |].
    cbn [app]. split; intros [= -> _]; lia.
Qed.

(** [encode] returns on the texts without surrogate and raises on the
    others. *)
Lemma encode_cases s :
  (encodable s /\ exists bs, encode s = Return bs)
  \/ (¬ encodable s /\ encode s = Raise (UnicodeEncodeError s)).
Proof.
  unfold encode. destruct (encode_opt s) as [bs |] eqn:Hbs.
  - left. split; [| by eexists].
    destruct (decide (encodable s)) as [| Hno]; [done |].
    apply encode_opt_None in Hno. congruence.
  - right. split; [| done]. intros [bs Hsome]%encode_opt_Some. congruence.
Qed.

Lemma encodable_newline s : encodable (s ++ newline) <-> encodable s.
Proof.
  unfold encodable. rewrite Forall_app. split; [by intros [? _] |].
  intros Hs. split; [done |]. by repeat constructor.
Qed.

End Utf8EncodeFacts.

Section VerifyFacts.
Context `{Unicode}.

(** The comparison of a submitted text with a code of ASCII: it raises
    when the normal form of the text cannot be encoded, and else tells
    whether the normal form is the code. *)
Lemma strings_equal_ascii otp c :
  nfkc_fixes_ascii ->
  Forall (fun x => 0 <= x < 128) c ->
  encodable (nfkc otp) ->
  Pyotp.strings_equal otp c = Return (bool_decide (nfkc otp = c)).
Proof.
  intros Hnfkc Hc [bs Hbs]%encode_opt_Some. unfold Pyotp.strings_equal, Utf8.encode.
  rewrite Hbs, (Hnfkc c Hc), (encode_opt_ascii c Hc). cbn [mbind result_bind].
  f_equal. apply bool_decide_ext. by apply encode_opt_eq_ascii.
Qed.

Lemma strings_equal_ascii_both s c :
  nfkc_fixes_ascii ->
  Forall (fun x => 0 <= x < 128) s ->
  Forall (fun x => 0 <= x < 128) c ->
  Pyotp.strings_equal s c = Return (bool_decide (s = c)).
Proof.
  intros Hnfkc Hs Hc. rewrite (strings_equal_ascii s c Hnfkc Hc).
  - by rewrite (Hnfkc s Hs).
  - rewrite (Hnfkc s Hs). by apply ascii_encodable.
Qed.

Lemma strings_equal_Raise otp c :
  ¬ encodable (nfkc otp) ->
  Pyotp.strings_equal otp c = Raise (UnicodeEncodeError (nfkc otp)).
Proof.
  intros Hbad%encode_opt_None. unfold Pyotp.strings_equal, Utf8.encode.
  by rewrite Hbad.
Qed.

Lemma strings_equal_true otp c :
  nfkc_fixes_ascii ->
  Forall (fun x => 0 <= x < 128) c ->
  Pyotp.strings_equal otp c = Return true ->
  nfkc otp = c.
Proof.
  intros Hnfkc Hc. unfold Pyotp.strings_equal, Utf8.encode.
  destruct (Utf8.encode_opt (nfkc otp)) as [bs |] eqn:Hbs; [| discriminate].
  rewrite (Hnfkc c Hc), (encode_opt_ascii c Hc). cbn [mbind result_bind].
  intros Heq. injection Heq as Heq. apply bool_decide_eq_true in Heq.
  exact (proj1 (encode_opt_eq_ascii _ bs c Hbs Hc) Heq).
Qed.

(** [verify] with a window of one step compares the submitted text with
    the codes of the step before, the current step and the step after, in
    that order. *)
Lemma verify_window_1 secret otp now c_prev c_cur c_next b_prev b_cur b_next :
  0 <= now ->
  Pyotp.generate_otp secret (now / 30 - 1) = Return c_prev ->
  Pyotp.generate_otp secret (now / 30) = Return c_cur ->
  Pyotp.generate_otp secret (now / 30 + 1) = Return c_next ->
  Pyotp.strings_equal otp c_prev = Return b_prev ->
  Pyotp.strings_equal otp c_cur = Return b_cur ->
  Pyotp.strings_equal otp c_next = Return b_next ->
  Pyotp.verify secret otp now 1 = Return (b_prev || b_cur || b_next).
Proof.
  intros Hnow Hprev Hcur Hnext Heq1 Heq2 Heq3. unfold Pyotp.verify.
  change (negb (1 =? 0)) with true. cbn iota.
  change (seqZ (- (1)) (2 * 1 + 1)) with [-1; 0; 1].
  cbn [Pyotp.verify_loop]. unfold Pyotp.at_time.
  rewrite (timecode_nonneg now Hnow).
  change (now / 30 + -1) with (now / 30 - 1). rewrite Z.add_0_r.
  rewrite Hprev, Hcur, Hnext. cbn [mbind result_bind].
  rewrite Heq1, Heq2, Heq3. cbn [mbind result_bind].
  by destruct b_prev, b_cur, b_next.
Qed.

(** It raises when the first comparison does. *)
Lemma verify_window_1_Raise secret otp now c_prev e :
  0 <= now ->
  Pyotp.generate_otp secret (now / 30 - 1) = Return c_prev ->
  Pyotp.strings_equal otp c_prev = Raise e ->
  Pyotp.verify secret otp now 1 = Raise e.
Proof.
  intros Hnow Hprev Heq. unfold Pyotp.verify.
  change (negb (1 =? 0)) with true. cbn iota.
  change (seqZ (- (1)) (2 * 1 + 1)) with [-1; 0; 1].
  cbn [Pyotp.verify_loop]. unfold Pyotp.at_time.
  rewrite (timecode_nonneg now Hnow).
  change (now / 30 + -1) with (now / 30 - 1).
  rewrite Hprev. cbn [mbind result_bind]. by rewrite Heq.
Qed.

End VerifyFacts.

(** C3, as the code has it.  For a valid seed and a clock reading [now] in
    a step [C = now / 30 >= 1], the codes of the steps [C-1], [C] and [C+1]
    exist.  For a submitted text whose normal form can be encoded as UTF-8,
    [verify_totp_from_hex] with a window of one step returns true exactly
    when that normal form is one of the three codes; for any other text it
    raises the [UnicodeEncodeError] of the comparison.  So it returns true
    for each of the three codes, and for a code derived at step [C-2] or
    [C+2] it returns false unless that code coincides with one of the
    three. *)
Theorem verify_totp_window `{Unicode} (hex_seed : str) (now : Z) :
  nfkc_fixes_ascii ->
  App.seed_invariant hex_seed ->
  30 <= now ->
  exists c_prev c_cur c_next,
    code_at hex_seed (now / 30 - 1) = Return c_prev
    /\ code_at hex_seed (now / 30) = Return c_cur
    /\ code_at hex_seed (now / 30 + 1) = Return c_next
    /\ (forall code,
          encodable (nfkc code) ->
          App.verify_totp_from_hex hex_seed code 1 now
          = Return (bool_decide (nfkc code ∈ [c_prev; c_cur; c_next])))
    /\ (forall code,
          ¬ encodable (nfkc code) ->
          App.verify_totp_from_hex hex_seed code 1 now
          = Raise (UnicodeEncodeError (nfkc code)))
    /\ (forall code,
          code ∈ [c_prev; c_cur; c_next] ->
          App.verify_totp_from_hex hex_seed code 1 now = Return true)
    /\ (forall k code,
          k = now / 30 - 2 \/ k = now / 30 + 2 ->
          code_at hex_seed k = Return code ->
          App.verify_totp_from_hex hex_seed code 1 now
          = Return (bool_decide (code ∈ [c_prev; c_cur; c_next]))).
Proof.
  intros Hnfkc Hseed Hnow.
  destruct (hex_seed_secret hex_seed (seed_invariant_valid_hex _ Hseed))
    as (b32 & Hb32 & Hkey).
  assert (1 <= now / 30) as HC by (apply Z.div_le_lower_bound; lia).
  destruct (generate_otp_Return b32 _ (now / 30 - 1) Hkey) as (c_prev & Hprev & Hprev_ascii);
    [lia |].
  destruct (generate_otp_Return b32 _ (now / 30) Hkey) as (c_cur & Hcur & Hcur_ascii);
    [lia |].
  destruct (generate_otp_Return b32 _ (now / 30 + 1) Hkey) as (c_next & Hnext & Hnext_ascii);
    [lia |].
  exists c_prev, c_cur, c_next.
  rewrite !(code_at_spec hex_seed b32) by done.
  assert (forall code,
            encodable (nfkc code) ->
            App.verify_totp_from_hex hex_seed code 1 now
            = Return (bool_decide (nfkc code ∈ [c_prev; c_cur; c_next]))) as Hverify.
  { intros code Hcode. unfold App.verify_totp_from_hex. rewrite Hb32.
    cbn [mbind result_bind].
    rewrite (verify_window_1 b32 code now c_prev c_cur c_next _ _ _
               ltac:(lia) Hprev Hcur Hnext
               (strings_equal_ascii code c_prev Hnfkc Hprev_ascii Hcode)
               (strings_equal_ascii code c_cur Hnfkc Hcur_ascii Hcode)
               (strings_equal_ascii code c_next Hnfkc Hnext_ascii Hcode)).
    f_equal. apply eq_true_iff_eq.
    rewrite !orb_true_iff, !bool_decide_eq_true, !elem_of_cons, elem_of_nil. tauto. }
  assert (forall code,
            Forall (fun c => 0 <= c < 128) code ->
            App.verify_totp_from_hex hex_seed code 1 now
            = Return (bool_decide (code ∈ [c_prev; c_cur; c_next]))) as Hascii.
  { intros code Hcode. rewrite Hverify; rewrite (Hnfkc code Hcode);
      [reflexivity | by apply ascii_encodable]. }
  split; [exact Hprev |]. split; [exact Hcur |]. split; [exact Hnext |].
  split; [exact Hverify |]. split; [| split].
  - intros code Hcode. unfold App.verify_totp_from_hex. rewrite Hb32.
    cbn [mbind result_bind].
    apply (verify_window_1_Raise b32 code now c_prev); [lia | exact Hprev |].
    by apply strings_equal_Raise.
  - intros code Hin. rewrite Hascii; [by rewrite bool_decide_eq_true_2 |].
    rewrite !elem_of_cons, elem_of_nil in Hin.
    destruct Hin as [-> | [-> | [-> | []]]]; assumption.
  - intros k code Hk. rewrite (code_at_spec hex_seed b32) by done. intros Hcode.
    apply Hascii.
    destruct (Z.ltb_spec k 0) as [Hneg | Hpos].
    + unfold Pyotp.generate_otp in Hcode.
      apply Z.ltb_lt in Hneg. rewrite Hneg in Hcode. discriminate Hcode.
    + destruct (generate_otp_Return b32 _ k Hkey Hpos) as (code' & Hcode' & Hc).
      rewrite Hcode' in Hcode. injection Hcode as <-. exact Hc.
Qed.

Lemma ascii_unicode_nfkc : @nfkc_fixes_ascii ascii_unicode.
Proof. by intros s _. Qed.

(** At 2024-06-28 15:13:30 UTC the codes of three steps are accepted. *)
Lemma verify_totp_window_witness :
  @App.verify_totp_from_hex ascii_unicode seed0 (lit "181890") 1 1719587610
  = Return true.
Proof.
  destruct (@verify_totp_window ascii_unicode seed0 1719587610 ascii_unicode_nfkc)
    as (c_prev & c_cur & c_next & Hprev & Hcur & Hnext & _ & _ & Hin & _).
  - split; [done |]. unfold seed0. vm_compute. repeat constructor.
  - lia.
  - apply Hin. assert (c_next = lit "181890") as ->.
    + assert (code_at seed0 (1719587610 / 30 + 1) = Return (lit "181890")) as Heq
        by (vm_compute; reflexivity).
      rewrite Heq in Hnext. injection Hnext as <-. reflexivity.
    + apply elem_of_cons. right. apply elem_of_cons. right. apply elem_of_cons. by left.
Defined.

(** C3, as the claim has it, fails.  With clock reading 1719587610 (step
    57319587) the code derived two steps later, at step 57319589, is
    accepted, because the codes of steps 57319588 and 57319589 are both
    181890.  The submitted text is not padded to six digits: at clock
    reading 1719587520 (step 57319584) the code is 049990, and the text
    49990 is not accepted.  And in step 0 nothing is verified: [pyotp]
    raises on the counter -1 of the step before. *)
Lemma verify_accepts_code_two_steps_ahead :
  let now := 1719587610 in
  code_at seed0 (now / 30 + 2) = Return (lit "181890")
  /\ code_at seed0 (now / 30 + 1) = Return (lit "181890")
  /\ @App.verify_totp_from_hex ascii_unicode seed0 (lit "181890") 1 now = Return true
  /\ code_at seed0 (1719587520 / 30) = Return (lit "049990")
  /\ @App.verify_totp_from_hex ascii_unicode seed0 (lit "49990") 1 1719587520
     = Return false
  /\ @App.verify_totp_from_hex ascii_unicode seed0 (lit "181890") 1 15
     = Raise (ValueError (lit "input must be positive integer")).
Proof. vm_compute. repeat split; reflexivity. Qed.

(** ** The codec of [hex_to_base32] *)

(** What [hex_to_base32] does meet of the codec contract.  On valid
    hexadecimal text it returns the base32 text of RFC 4648 for the octets
    the text stands for, without the padding; whatever it returns holds no
    padding character; it raises [ValueError("Invalid hex seed")] on every
    text with a character that is neither a hexadecimal digit nor a blank
    of ASCII, and on every text whose characters other than blanks are odd
    in number. *)
Theorem hex_to_base32_codec :
  (forall h,
     valid_hex h ->
     App.hex_to_base32 h = Return (Rfc4648.base32_unpadded (hex_pairs h)))
  /\ (forall h s, App.hex_to_base32 h = Return s -> ¬ List.In Codec.pad_char s)
  /\ (forall h,
        Exists (fun c => PyStr.is_hex_digit c = false /\ Codec.Py_ISSPACE c = false) h ->
        App.hex_to_base32 h = Raise (ValueError (lit "Invalid hex seed")))
  /\ (forall h,
        Nat.Odd (length (List.filter (fun c => negb (Codec.Py_ISSPACE c)) h)) ->
        App.hex_to_base32 h = Raise (ValueError (lit "Invalid hex seed"))).
Proof.
  split; [| split; [| split]].
  - intros h Hh. pose proof (fromhex_valid h Hh) as Hbytes.
    rewrite (hex_to_base32_of_bytes h _ Hbytes).
    f_equal. apply b32encode_unpadded. by eapply fromhex_bytes_ok.
  - intros h s. unfold App.hex_to_base32.
    destruct (Codec.fromhex h) as [bs | e]; [| discriminate].
    destruct (Utf8.decode (Codec.b32encode bs)) as [t | e]; [| discriminate].
    intros [= <-]. apply remove_char_not_in.
  - intros h Hbad. destruct (fromhex_bad_char h Hbad) as [e He].
    unfold App.hex_to_base32. by rewrite He.
  - intros h Hodd. destruct (fromhex_odd h Hodd) as [e He].
    unfold App.hex_to_base32. by rewrite He.
Qed.

(** C7 (the part the code breaks): text with a blank between two pairs of
    digits is not valid hexadecimal text, and [hex_to_base32] does not
    reject it; it converts the digits, as [bytes.fromhex] skips the blank. *)
Lemma hex_to_base32_accepts_blanks :
  ¬ valid_hex (lit "ab cd")
  /\ App.hex_to_base32 (lit "ab cd") = Return (lit "VPGQ").
Proof.
  split; [| vm_compute; reflexivity].
  intros [_ [k Hk]].
  assert (length (lit "ab cd") = 5%nat) as Hlen by reflexivity.
  rewrite Hlen in Hk. lia.
Qed.

Example hex_to_base32_seed0 :
  App.hex_to_base32 seed0
  = Return (lit "AERUKZ4JVPG66AJDIVTYTK6N54ASGRLHRGV433YBENCWPCNLZXXQ").
Proof. vm_compute. reflexivity. Qed.

(** ** Test vectors *)

Example sha1_abc :
  Sha1.sha1 (lit "abc")
  = [0xa9; 0x99; 0x3e; 0x36; 0x47; 0x06; 0x81; 0x6a; 0xba; 0x3e;
     0x25; 0x71; 0x78; 0x50; 0xc2; 0x6c; 0x9c; 0xd0; 0xd8; 0x9d].
Proof. vm_compute. reflexivity. Qed.

(** The first codes of RFC 4226, appendix D. *)
Example hotp_rfc4226 :
  map (Pyotp.generate_otp (lit "GEZDGNBVGY3TQOJQGEZDGNBVGY3TQOJQ")) [0; 1; 2; 3]
  = map Return [lit "755224"; lit "287082"; lit "359152"; lit "969429"].
Proof. vm_compute. reflexivity. Qed.

Example b32decode_foobar :
  Codec.b32decode (lit "mzxw6ytboi======") = Return (lit "foobar").
Proof. vm_compute. reflexivity. Qed.

Example utf8_decode_euro :
  Utf8.decode [0xE2; 0x82; 0xAC; 0x41] = Return [0x20AC; 0x41].
Proof. vm_compute. reflexivity. Qed.

(** * Further properties of the code *)

(** ** Saving *)

Section SaveFacts.
Import Os App.

Lemma rfind_sep_end_no_sep p :
  forallb (fun c => negb (c =? sep)) p = true -> rfind_sep_end p = 0%nat.
Proof.
  intros Hp. rewrite <- (app_nil_l p). by rewrite rfind_sep_end_app.
Qed.

Lemma length_lstrip_sep s : (length (lstrip_sep s) <= length s)%nat.
Proof.
  induction s as [|c s IH]; cbn [lstrip_sep length]; [lia |].
  destruct (c =? sep); cbn [length]; lia.
Qed.

Lemma length_rstrip_sep s : (length (rstrip_sep s) <= length s)%nat.
Proof.
  unfold rstrip_sep. rewrite length_rev.
  pose proof (length_lstrip_sep (rev s)) as Hle. by rewrite length_rev in Hle.
Qed.

Lemma rfind_sep_end_full p :
  p <> [] -> rfind_sep_end p = length p -> exists q, p = q ++ [sep].
Proof.
  induction p as [|c p IH]; [done |]. intros _. cbn [rfind_sep_end length].
  pose proof (rfind_sep_end_le p) as Hle.
  destruct (rfind_sep_end p) as [|k] eqn:Hk.
  - destruct (Z.eqb_spec c sep) as [-> | _]; [| lia].
    intros Hlen. destruct p; [by exists [] | simpl in Hlen; lia].
  - intros Hlen. destruct IH as [q ->]; [by intros -> | lia |].
    by exists (c :: q).
Qed.

(** The directory part of a path other than the root is shorter than it. *)
Lemma dirname_shorter p :
  p <> [] -> is_root p = false -> (length (dirname p) < length p)%nat.
Proof.
  intros Hp Hroot. unfold dirname. cbv zeta.
  pose proof (rfind_sep_end_le p) as Hle.
  destruct (Nat.eq_dec (rfind_sep_end p) (length p)) as [Heq | Hne].
  - rewrite Heq, firstn_all, Hroot.
    destruct (rfind_sep_end_full p Hp Heq) as [q ->].
    unfold rstrip_sep. rewrite rev_app_distr. cbn [rev app lstrip_sep].
    rewrite Z.eqb_refl, length_rev, length_app. cbn [length].
    pose proof (length_lstrip_sep (rev q)) as Hq. rewrite length_rev in Hq. lia.
  - assert (length (take (rfind_sep_end p) p) < length p)%nat as Hhead
      by (rewrite length_take; lia).
    destruct (is_root (take _ _)); [done |].
    pose proof (length_rstrip_sep (take (rfind_sep_end p) p)). lia.
Qed.

Lemma ancestors_from_shorter pre p a :
  a ∈ ancestors_from pre p -> (length a < length pre + length p)%nat.
Proof.
  revert pre. induction p as [|c p IH]; intros pre; cbn [ancestors_from length].
  - by intros ?%elem_of_nil.
  - rewrite elem_of_app. intros [Ha | Ha].
    + destruct ((c =? sep) && negb (bool_decide (pre = []))); [| by apply elem_of_nil in Ha].
      apply list_elem_of_singleton in Ha as ->. lia.
    + apply IH in Ha. rewrite length_app in Ha. cbn [length] in Ha. lia.
Qed.

Lemma ancestors_shorter d a : a ∈ ancestors d -> (length a < length d)%nat.
Proof. intros Ha%ancestors_from_shorter. by cbn [length] in Ha. Qed.

Lemma dirname_le p : (length (dirname p) <= length p)%nat.
Proof.
  unfold dirname. cbv zeta.
  assert (length (take (rfind_sep_end p) p) <= length p)%nat as Hhead
    by (rewrite length_take; lia).
  destruct (is_root (take _ _)); [done |].
  pose proof (length_rstrip_sep (take (rfind_sep_end p) p)). lia.
Qed.

(** A path longer than [d] is none of the directories [makedirs d] makes. *)
Lemma isdir_after_makedirs (d q : str) (σ : fs) (m : gmap str str) :
  (length d < length q)%nat ->
  isdir (Fs m (list_to_set (d :: ancestors d) ∪ dirs σ)) q = isdir σ q.
Proof.
  intros Hlen. unfold isdir. cbn [dirs]. f_equal. apply bool_decide_ext.
  rewrite elem_of_union, elem_of_list_to_set, elem_of_cons.
  split; [| tauto].
  intros [[-> | Ha%ancestors_shorter] | ?]; [lia | lia | done].
Qed.

(** What a save does, read off the file system it starts from: the error
    of the first call that fails and the state left behind, or the state
    after the replace. *)
Lemma save_seed_atomic_outcome seed path σ :
  save_seed_atomic seed path σ =
    let d := dirname path in
    let tmp := path ++ lit ".tmp" in
    let text := PyStr.strip seed ++ newline in
    let made := list_to_set (d :: ancestors d) ∪ dirs σ in
    if bool_decide (d = []) then (Raise enoent, σ)
    else if existsb (is_file σ) (ancestors d) then (Raise NotADirectoryError, σ)
    else if is_file σ d then (Raise FileExistsError, σ)
    else if isdir σ tmp then (Raise IsADirectoryError, Fs (files σ) made)
    else match Utf8.encode text with
         | Raise e => (Raise e, Fs (<[tmp := []]> (files σ)) made)
         | Return _ =>
             if isdir σ path
             then (Raise IsADirectoryError, Fs (<[tmp := text]> (files σ)) made)
             else (Return (), Fs (<[path := text]> (delete tmp (files σ))) made)
         end.
Proof.
  cbv zeta. unfold save_seed_atomic, mbind, io_bind. cbv zeta.
  unfold makedirs. case_bool_decide as Hd; [by rewrite Hd |].
  destruct (dirname path) as [|c d] eqn:Hdir; [done |]. rewrite <- Hdir in *.
  destruct (existsb _ _); [done |].
  destruct (is_file σ (dirname path)) eqn:Hfile; [done |].
  assert (path <> []) as Hne by (intros ->; by apply Hd).
  pose proof (dirname_le path) as Hle.
  unfold open_w. cbv zeta. cbn [files dirs]. rewrite dirname_tmp.
  rewrite isdir_after_makedirs by (rewrite length_app; change (length (lit ".tmp")) with 4%nat; lia).
  destruct (isdir σ (path ++ lit ".tmp")); [done |].
  unfold is_file at 1. cbn [files]. fold (is_file σ (dirname path)). rewrite Hfile.
  assert (isdir (Fs (files σ) (list_to_set (dirname path :: ancestors (dirname path)) ∪ dirs σ))
            (dirname path) = true) as ->.
  { unfold isdir. cbn [dirs]. rewrite bool_decide_eq_true_2; [apply orb_true_r |].
    set_solver. }
  rewrite orb_true_r. unfold write. cbn [files dirs].
  destruct (Utf8.encode (PyStr.strip seed ++ newline)) as [bs | e]; [| done].
  unfold replace. cbn [files dirs].
  rewrite lookup_alter_eq, lookup_insert_eq. cbn [fmap option_fmap option_map app].
  assert (alter (fun c => c ++ (PyStr.strip seed ++ newline)) (path ++ lit ".tmp")
            (<[path ++ lit ".tmp" := []]> (files σ))
          = <[path ++ lit ".tmp" := PyStr.strip seed ++ newline]> (files σ)) as ->.
  { apply map_eq. intros q. destruct (decide (q = path ++ lit ".tmp")) as [-> | Hq].
    - by rewrite lookup_alter_eq, !lookup_insert_eq.
    - by rewrite lookup_alter_ne, !lookup_insert_ne. }
  assert (isdir (Fs (<[path ++ lit ".tmp" := PyStr.strip seed ++ newline]> (files σ))
                    (list_to_set (dirname path :: ancestors (dirname path)) ∪ dirs σ)) path
          = isdir σ path) as ->.
  { destruct (is_root path) eqn:Hroot; [unfold isdir; by rewrite Hroot |].
    apply isdir_after_makedirs. by apply dirname_shorter. }
  destruct (isdir σ path); [done |].
  do 2 f_equal. f_equal.
  apply map_eq. intros q. destruct (decide (q = path ++ lit ".tmp")) as [-> | Hq].
  - by rewrite !lookup_delete_eq.
  - by rewrite !lookup_delete_ne, lookup_insert_ne.
Qed.

(** Nothing becomes a directory at the path of a save. *)
Lemma save_seed_atomic_isdir seed path σ :
  isdir σ path = false -> isdir (save_seed_atomic seed path σ).2 path = false.
Proof.
  intros Hpath. rewrite save_seed_atomic_outcome. cbv zeta.
  assert (forall m, dirname path <> [] ->
            isdir (Fs m (list_to_set (dirname path :: ancestors (dirname path)) ∪ dirs σ)) path
            = false) as Hmade.
  { intros m Hd. rewrite isdir_after_makedirs; [done |].
    apply dirname_shorter; [intros ->; by apply Hd |].
    unfold isdir in Hpath. by apply orb_false_iff in Hpath as [-> _]. }
  case_bool_decide as Hd; [done |].
  destruct (existsb _ _); [done |].
  destruct (is_file σ (dirname path)); [done |].
  destruct (isdir σ (path ++ lit ".tmp")); [by apply Hmade |].
  destruct (Utf8.encode _); [destruct (isdir σ path) |]; by apply Hmade.
Qed.

Lemma existsb_eq_on {A} (f g : A -> bool) l :
  Forall (fun a => f a = g a) l -> existsb f l = existsb g l.
Proof. induction 1 as [|a l Ha _ IH]; cbn [existsb]; [done | by rewrite Ha, IH]. Qed.

(** A save that has returned returns again from the state it left, and
    leaves that state as it is. *)
Lemma save_seed_atomic_twice seed path σ σ' :
  save_seed_atomic seed path σ = (Return (), σ') ->
  save_seed_atomic seed path σ' = (Return (), σ').
Proof.
  rewrite (save_seed_atomic_outcome seed path σ). cbv zeta.
  case_bool_decide as Hd; [discriminate |].
  destruct (existsb _ _) eqn:Hanc; [discriminate |].
  destruct (is_file σ (dirname path)) eqn:Hfile; [discriminate |].
  destruct (isdir σ (path ++ lit ".tmp")) eqn:Htmp; [discriminate |].
  destruct (Utf8.encode (PyStr.strip seed ++ newline)) as [bs | e] eqn:Henc;
    [| discriminate].
  destruct (isdir σ path) eqn:Hpath; [discriminate |].
  intros Heq. injection Heq as <-.
  assert (path <> []) as Hne by (intros ->; by apply Hd).
  assert (is_root path = false) as Hroot
    by (unfold isdir in Hpath; by apply orb_false_iff in Hpath as [-> _]).
  pose proof (dirname_shorter path Hne Hroot) as Hshort.
  set (text := PyStr.strip seed ++ newline).
  set (made := list_to_set (dirname path :: ancestors (dirname path)) ∪ dirs σ).
  set (m := <[path := text]> (delete (path ++ lit ".tmp") (files σ))).
  assert (forall a, (length a <= length (dirname path))%nat ->
            is_file (Fs m made) a = is_file σ a) as Hsame.
  { intros a Ha. unfold is_file, m. cbn [files].
    rewrite lookup_insert_ne by (intros <-; lia).
    rewrite lookup_delete_ne; [done |].
    intros <-. rewrite length_app in Ha. lia. }
  change ({[dirname path]} ∪ list_to_set (ancestors (dirname path)) ∪ dirs σ) with made.
  rewrite (save_seed_atomic_outcome seed path (Fs m made)). cbv zeta.
  rewrite bool_decide_eq_false_2 by done.
  rewrite (existsb_eq_on (is_file (Fs m made)) (is_file σ)), Hanc.
  2:{ apply Forall_forall. intros a Ha%ancestors_shorter. apply Hsame. lia. }
  rewrite Hsame, Hfile by lia.
  assert (forall q, (length (dirname path) < length q)%nat ->
            isdir (Fs m made) q = isdir σ q) as Hisdir
    by (intros q Hq; by apply isdir_after_makedirs).
  rewrite (Hisdir (path ++ lit ".tmp")), Htmp
    by (rewrite length_app; change (length (lit ".tmp")) with 4%nat; lia).
  rewrite Henc, (Hisdir path), Hpath by lia.
  f_equal. cbn [files dirs]. f_equal.
  - apply map_eq. intros q. unfold m, text.
    destruct (decide (q = path)) as [Hq | Hq]; [rewrite Hq; by rewrite !lookup_insert_eq |].
    rewrite !lookup_insert_ne by done.
    destruct (decide (q = path ++ lit ".tmp")) as [Hq' | Hq'];
      [rewrite Hq'; by rewrite !lookup_delete_eq |].
    by rewrite lookup_delete_ne, lookup_insert_ne.
  - unfold made. apply set_eq. intros x. rewrite !elem_of_union. tauto.
Qed.

End SaveFacts.

(** ** The decimal rendering of a code *)

Section DecimalFacts.

Ltac digit_cases n Hn :=
  do 10 (destruct n as [|n]; [try reflexivity |]); [exfalso; lia].

Lemma revapp_dign n d a : Decimal.revapp (dign n d) a = Decimal.revapp d (dign n a).
Proof. unfold dign. do 9 (destruct n as [|n]; [reflexivity |]). reflexivity. Qed.

Lemma of_lu_dign n d :
  (n <= 9)%nat ->
  DecimalPos.Unsigned.of_lu (dign n d) = (N.of_nat n + 10 * DecimalPos.Unsigned.of_lu d)%N.
Proof. intros Hn. digit_cases n Hn. Qed.

Lemma lit_string_of_dign n d :
  (n <= 9)%nat ->
  lit (NilEmpty.string_of_uint (dign n d))
  = (48 + Z.of_nat n) :: lit (NilEmpty.string_of_uint d).
Proof. intros Hn. digit_cases n Hn. Qed.

Lemma str_of_int_code m :
  0 <= m < 10 ^ 6 ->
  str_of_int (10000000000 + m)
  = lit "10000" ++ map (fun i => 48 + digit_at m i) [5; 4; 3; 2; 1; 0].
Proof.
  intros Hm.
  set (n := fun i => Z.to_nat (digit_at m i)).
  assert (forall i, (n i <= 9)%nat /\ Z.of_nat (n i) = digit_at m i) as Hn.
  { intros i. unfold n, digit_at. pose proof (Z.mod_pos_bound (m / 10 ^ i) 10). lia. }
  set (d := Decimal.D1 (Decimal.D0 (Decimal.D0 (Decimal.D0 (Decimal.D0
              (dign (n 5) (dign (n 4) (dign (n 3) (dign (n 2) (dign (n 1) (dign (n 0)
                 Decimal.Nil))))))))))).
  assert (Z.of_int (Decimal.Pos d) = 10000000000 + m) as Hval.
  { unfold Z.of_int, Z.of_uint. rewrite DecimalPos.Unsigned.of_uint_alt.
    unfold d, Decimal.rev. cbn [Decimal.revapp]. rewrite !revapp_dign.
    cbn [Decimal.revapp]. rewrite !of_lu_dign by apply Hn.
    cbn [DecimalPos.Unsigned.of_lu].
    destruct (Hn 0) as [_ H0], (Hn 1) as [_ H1], (Hn 2) as [_ H2],
      (Hn 3) as [_ H3], (Hn 4) as [_ H4], (Hn 5) as [_ H5].
    unfold digit_at in *.
    assert (m = m / 10 ^ 0 mod 10 + 10 * (m / 10 ^ 1 mod 10) + 100 * (m / 10 ^ 2 mod 10)
                + 1000 * (m / 10 ^ 3 mod 10) + 10000 * (m / 10 ^ 4 mod 10)
                + 100000 * (m / 10 ^ 5 mod 10)) as Hdec.
    { change (10 ^ 0) with 1. change (10 ^ 1) with 10. change (10 ^ 2) with 100.
      change (10 ^ 3) with 1000. change (10 ^ 4) with 10000. change (10 ^ 5) with 100000.
      change (10 ^ 6) with 1000000 in Hm.
      Z.div_mod_to_equations. lia. }
    lia. }
  unfold str_of_int. rewrite <- Hval, DecimalZ.to_of.
  change (norm (Decimal.Pos d)) with (Decimal.Pos d).
  unfold NilZero.string_of_int, NilZero.string_of_uint, d.
  cbn [NilEmpty.string_of_uint]. 
  change (lit (String "1" (String "0" (String "0" (String "0" (String "0" ?s))))))
    with (lit "10000" ++ lit s).
  rewrite !lit_string_of_dign by apply Hn.
  cbn [map]. repeat f_equal; apply Hn.
Qed.

End DecimalFacts.

(** ** Codes and the endpoints that read the seed *)

Section CodeFacts.
Import App.

Lemma digit_at_range m i : 0 <= digit_at m i < 10.
Proof. unfold digit_at. apply Z.mod_pos_bound. lia. Qed.

(** What [generate_otp] returns is the six decimal digits of a number
    below a million. *)
Lemma generate_otp_code secret input code :
  Pyotp.generate_otp secret input = Return code ->
  exists m, 0 <= m < 10 ^ 6
            /\ code = map (fun i => 48 + digit_at m i) [5; 4; 3; 2; 1; 0].
Proof.
  unfold Pyotp.generate_otp. destruct (input <? 0); [done |].
  destruct (Pyotp.byte_secret secret) as [key | e]; [| done].
  cbn [mbind result_bind]. cbv zeta.
  match goal with |- context [?c mod 10 ^ Pyotp.digits] => set (m := c mod 10 ^ Pyotp.digits) end.
  assert (0 <= m < 10 ^ 6) as Hm by (apply Z.mod_pos_bound; lia).
  clearbody m. rewrite (str_of_int_code m Hm).
  intros [= <-]. exists m. split; [done |]. reflexivity.
Qed.

Lemma six_digits m :
  length (map (fun i => 48 + digit_at m i) [5; 4; 3; 2; 1; 0]) = 6%nat
  /\ Forall (fun c => 48 <= c <= 57) (map (fun i => 48 + digit_at m i) [5; 4; 3; 2; 1; 0]).
Proof.
  split; [reflexivity |]. apply Forall_map, Forall_forall. intros i _.
  pose proof (digit_at_range m i). cbn beta. lia.
Qed.

Lemma generate_otp_inv secret input code :
  Pyotp.generate_otp secret input = Return code ->
  0 <= input /\ exists key, Pyotp.byte_secret secret = Return key.
Proof.
  unfold Pyotp.generate_otp. destruct (Z.ltb_spec input 0); [done |].
  destruct (Pyotp.byte_secret secret) as [key | e]; [| done]. eauto.
Qed.

Lemma generate_totp_from_hex_inv seed t_code t_valid code valid_for :
  generate_totp_from_hex seed t_code t_valid = Return (code, valid_for) ->
  exists b32, hex_to_base32 seed = Return b32
              /\ Pyotp.generate_otp b32 (Pyotp.timecode t_code) = Return code
              /\ valid_for = 30 - t_valid mod 30.
Proof.
  unfold generate_totp_from_hex, Pyotp.now.
  destruct (hex_to_base32 seed) as [b32 | e]; [| done]. cbn [mbind result_bind].
  destruct (Pyotp.generate_otp b32 _) as [c | e] eqn:Hcode; [| done].
  cbn [mbind result_bind mret result_ret]. cbv zeta.
  intros Heq. injection Heq as -> <-. by exists b32.
Qed.

Lemma generate_totp_from_hex_of_otp seed b32 t_code t_valid code :
  hex_to_base32 seed = Return b32 ->
  Pyotp.generate_otp b32 (Pyotp.timecode t_code) = Return code ->
  generate_totp_from_hex seed t_code t_valid = Return (code, 30 - t_valid mod 30).
Proof.
  intros Hb32 Hcode. unfold generate_totp_from_hex, Pyotp.now.
  rewrite Hb32. cbn [mbind result_bind]. by rewrite Hcode.
Qed.

Lemma generate_2fa_endpoint_Ok `{Crypto} (p : process) t_code t_valid σ code valid_for :
  generate_2fa_endpoint p t_code t_valid σ = Ok (code, valid_for) ->
  exists seed, read_seed SEED_PATH σ = Return seed
               /\ generate_totp_from_hex seed t_code t_valid = Return (code, valid_for).
Proof.
  unfold generate_2fa_endpoint.
  destruct (read_seed SEED_PATH σ) as [seed | e];
    [| destruct (is_FileNotFoundError e); discriminate].
  destruct (generate_totp_from_hex seed t_code t_valid) as [[c v] | e] eqn:Hgen;
    [| discriminate].
  intros Heq. injection Heq as -> ->. by exists seed.
Qed.

(** Where something stands at the path, [read_seed] returns or raises an
    error other than [FileNotFoundError]. *)
Lemma read_seed_exists path σ :
  Os.path_exists σ path = true ->
  (exists s, read_seed path σ = Return s)
  \/ (exists e, read_seed path σ = Raise e /\ is_FileNotFoundError e = false).
Proof.
  intros Hpath. unfold read_seed, Os.read_text. rewrite Hpath. cbn [negb].
  unfold Os.path_exists, Os.is_file in Hpath.
  destruct (files σ !! path) as [c |].
  - cbn [mbind result_bind].
    destruct (negb _); [right | left]; eauto.
  - cbn [orb] in Hpath. rewrite Hpath. right. eauto.
Qed.

Lemma timecode_before_first_step now : now < 30 -> Pyotp.timecode now <= 0.
Proof.
  intros Hnow. unfold Pyotp.timecode, Pyotp.interval.
  Z.quot_rem_to_equations. lia.
Qed.

Lemma verify_before_first_step `{Unicode} secret otp now :
  now < 30 ->
  Pyotp.verify secret otp now 1 = Raise (ValueError (lit "input must be positive integer")).
Proof.
  intros Hnow%timecode_before_first_step. unfold Pyotp.verify.
  change (negb (1 =? 0)) with true. cbn iota.
  change (seqZ (- (1)) (2 * 1 + 1)) with [-1; 0; 1].
  cbn [Pyotp.verify_loop]. unfold Pyotp.at_time, Pyotp.generate_otp.
  destruct (Z.ltb_spec (Pyotp.timecode now + -1) 0); [done | lia].
Qed.

End CodeFacts.

Section StripMore.
Import PyStr.

Lemma lstrip_head s :
  lstrip s = [] \/ exists c r, lstrip s = c :: r /\ isspace c = false.
Proof.
  induction s as [|c s IH]; cbn [lstrip]; [by left |].
  destruct (isspace c) eqn:Hc; [done |]. right. eauto.
Qed.

Lemma lstrip_snoc l c : isspace c = false -> lstrip (l ++ [c]) = lstrip l ++ [c].
Proof.
  intros Hc. induction l as [|d l IH]; cbn [app lstrip]; [by rewrite Hc |].
  by destruct (isspace d).
Qed.

Lemma rstrip_cons c r : isspace c = false -> rstrip (c :: r) = c :: rstrip r.
Proof.
  intros Hc. unfold rstrip. cbn [rev]. rewrite lstrip_snoc by done.
  by rewrite rev_app_distr.
Qed.

Lemma lstrip_lstrip s : lstrip (lstrip s) = lstrip s.
Proof.
  destruct (lstrip_head s) as [-> | (c & r & -> & Hc)]; [done |].
  cbn [lstrip]. by rewrite Hc.
Qed.

(** [strip] leaves nothing for a second [strip] to remove. *)
Lemma strip_strip s : strip (strip s) = strip s.
Proof.
  unfold strip.
  assert (lstrip (rstrip (lstrip s)) = rstrip (lstrip s)) as ->.
  { destruct (lstrip_head s) as [-> | (c & r & -> & Hc)]; [done |].
    rewrite rstrip_cons by done. cbn [lstrip]. by rewrite Hc. }
  unfold rstrip. by rewrite rev_involutive, lstrip_lstrip.
Qed.

End StripMore.

(** X1.  Every code [GET /generate-2fa] answers is six decimal digits, and the
    validity it announces lies in 1..30. *)
Theorem generate_2fa_endpoint_code_format `{Crypto}
    (p : App.process) (t_code t_valid : Z) (σ : fs) (code : str) (valid_for : Z) :
  App.generate_2fa_endpoint p t_code t_valid σ = App.Ok (code, valid_for) ->
  length code = 6%nat
  /\ Forall (fun c => 48 <= c <= 57) code
  /\ 1 <= valid_for <= 30.
Proof.
  intros (seed & _ & Hgen)%generate_2fa_endpoint_Ok.
  apply generate_totp_from_hex_inv in Hgen as (b32 & _ & Hcode & ->).
  apply generate_otp_code in Hcode as (m & _ & ->).
  destruct (six_digits m) as [Hlen Hdigits].
  split; [exact Hlen |]. split; [exact Hdigits |].
  pose proof (Z.mod_pos_bound t_valid 30). lia.
Qed.

Lemma generate_2fa_endpoint_code_format_witness :
  exists code valid_for,
    App.generate_2fa_endpoint toy_process 1719587640 1719587669 store1
    = App.Ok (code, valid_for)
    /\ length code = 6%nat
    /\ Forall (fun c => 48 <= c <= 57) code
    /\ 1 <= valid_for <= 30.
Proof.
  eexists _, _. split; [vm_compute; reflexivity |].
  apply (generate_2fa_endpoint_code_format toy_process 1719587640 1719587669 store1).
  vm_compute. reflexivity.
Defined.

(** X2.  A code answered by [GET /generate-2fa] is accepted by
    [POST /verify-2fa] as long as the clock has moved by no more than 30
    seconds, whatever the stored text is. *)
Theorem generated_code_verifies `{Unicode} `{Crypto}
    (p : App.process) (t_code t_valid now : Z) (σ : fs) (code : str) (valid_for : Z) :
  nfkc_fixes_ascii ->
  App.generate_2fa_endpoint p t_code t_valid σ = App.Ok (code, valid_for) ->
  0 <= t_code ->
  30 <= now ->
  t_code - 30 <= now <= t_code + 30 ->
  App.verify_2fa_endpoint p code now σ = App.Ok true.
Proof.
  intros Hnfkc (seed & Hread & Hgen)%generate_2fa_endpoint_Ok Ht Hnow Hnear.
  apply generate_totp_from_hex_inv in Hgen as (b32 & Hb32 & Hcode & _).
  rewrite timecode_nonneg in Hcode by exact Ht.
  destruct (generate_otp_inv _ _ _ Hcode) as (_ & key & Hkey).
  assert (1 <= now / 30) as HC by (apply Z.div_le_lower_bound; lia).
  assert (0 <= t_code / 30) as Hstep by (apply Z.div_pos; lia).
  destruct (generate_otp_Return b32 _ (t_code / 30) Hkey Hstep) as (code' & Hcode' & Hascii).
  rewrite Hcode in Hcode'. injection Hcode' as <-.
  destruct (generate_otp_Return b32 _ (now / 30 - 1) Hkey) as (c_prev & Hprev & Hprev_ascii);
    [lia |].
  destruct (generate_otp_Return b32 _ (now / 30) Hkey) as (c_cur & Hcur & Hcur_ascii);
    [lia |].
  destruct (generate_otp_Return b32 _ (now / 30 + 1) Hkey) as (c_next & Hnext & Hnext_ascii);
    [lia |].
  assert (bool_decide (code = c_prev) || bool_decide (code = c_cur)
          || bool_decide (code = c_next) = true) as Hmatch.
  { assert (forall c, Return (A := str) code = Return c -> bool_decide (code = c) = true)
      as Heq.
    { intros c Hc. injection Hc as <-. apply bool_decide_eq_true_2. reflexivity. }
    assert (t_code / 30 = now / 30 - 1 \/ t_code / 30 = now / 30
            \/ t_code / 30 = now / 30 + 1) as [Hk | [Hk | Hk]]
      by (Z.div_mod_to_equations; lia);
      rewrite Hk in Hcode.
    - rewrite (Heq c_prev) by (rewrite <- Hcode; exact Hprev). reflexivity.
    - rewrite (Heq c_cur) by (rewrite <- Hcode; exact Hcur).
      by rewrite orb_true_r.
    - rewrite (Heq c_next) by (rewrite <- Hcode; exact Hnext). apply orb_true_r. }
  destruct (generate_otp_code _ _ _ Hcode) as (m & _ & Hm).
  unfold App.verify_2fa_endpoint.
  destruct code as [|c0 code']; [discriminate Hm |].
  rewrite Hread. unfold App.verify_totp_from_hex. rewrite Hb32.
  cbn [mbind result_bind].
  rewrite (verify_window_1 b32 _ now c_prev c_cur c_next _ _ _
             ltac:(lia) Hprev Hcur Hnext
             (strings_equal_ascii_both _ c_prev Hnfkc Hascii Hprev_ascii)
             (strings_equal_ascii_both _ c_cur Hnfkc Hascii Hcur_ascii)
             (strings_equal_ascii_both _ c_next Hnfkc Hascii Hnext_ascii)).
  rewrite Hmatch. reflexivity.
Qed.

Lemma generated_code_verifies_witness :
  exists code valid_for,
    App.generate_2fa_endpoint toy_process 1719587640 1719587640 store1
    = App.Ok (code, valid_for)
    /\ @App.verify_2fa_endpoint ascii_unicode toy_crypto toy_process code 1719587669 store1
       = App.Ok true.
Proof.
  eexists _, _. split; [vm_compute; reflexivity |].
  apply (@generated_code_verifies ascii_unicode toy_crypto toy_process
           1719587640 1719587640 1719587669 store1 _ 30).
  - exact ascii_unicode_nfkc.
  - vm_compute. reflexivity.
  - lia.
  - lia.
  - lia.
Defined.

(** X3.  The validity answered with a code is the time the code lasts: read
    [d] seconds later, [d] below the validity, the code is the same and
    its validity is [d] less; when the validity has run out the counter has
    moved on by one. *)
Theorem code_lasts_valid_for (hex_seed : str) (t : Z) (code : str) (valid_for : Z) :
  0 <= t ->
  App.generate_totp_from_hex hex_seed t t = Return (code, valid_for) ->
  (forall d, 0 <= d < valid_for ->
     App.generate_totp_from_hex hex_seed (t + d) (t + d) = Return (code, valid_for - d))
  /\ Pyotp.timecode (t + valid_for) = Pyotp.timecode t + 1.
Proof.
  intros Ht (b32 & Hb32 & Hcode & ->)%generate_totp_from_hex_inv.
  pose proof (Z.mod_pos_bound t 30) as Hmod. split.
  - intros d Hd.
    assert (Pyotp.timecode (t + d) = Pyotp.timecode t) as Hstep.
    { rewrite !timecode_nonneg by lia. Z.div_mod_to_equations. lia. }
    rewrite <- Hstep in Hcode.
    rewrite (generate_totp_from_hex_of_otp hex_seed b32 _ (t + d) code Hb32 Hcode).
    do 2 f_equal. Z.div_mod_to_equations. lia.
  - rewrite !timecode_nonneg by lia. Z.div_mod_to_equations. lia.
Qed.

Lemma code_lasts_valid_for_witness :
  App.generate_totp_from_hex seed0 (1719587640 + 29) (1719587640 + 29)
  = Return (lit "181890", 30 - 29)
  /\ Pyotp.timecode (1719587640 + 30) = Pyotp.timecode 1719587640 + 1.
Proof.
  destruct (code_lasts_valid_for seed0 1719587640 (lit "181890") 30) as [Hsame Hnext].
  - lia.
  - vm_compute. reflexivity.
  - split; [apply Hsame; lia | exact Hnext].
Defined.

(** X4.  Before the second time step (a clock reading below 30) nothing is
    verified: whatever the stored seed and the submitted code,
    [POST /verify-2fa] answers 500, [pyotp] raising on the counter of the
    step before. *)
Theorem verify_2fa_endpoint_first_step `{Unicode} `{Crypto}
    (p : App.process) (code : str) (now : Z) (σ : fs) (seed : str) :
  App.read_seed App.SEED_PATH σ = Return seed ->
  code <> [] ->
  now < 30 ->
  App.verify_2fa_endpoint p code now σ
  = App.HTTPException 500 (App.Error (lit "Verification failed")).
Proof.
  intros Hread Hcode Hnow. unfold App.verify_2fa_endpoint.
  destruct code as [|c0 code']; [contradiction |].
  rewrite Hread. unfold App.verify_totp_from_hex.
  destruct (App.hex_to_base32 seed) as [b32 | e]; [| reflexivity].
  cbn [mbind result_bind]. rewrite verify_before_first_step by exact Hnow.
  reflexivity.
Qed.

Lemma verify_2fa_endpoint_first_step_witness :
  @App.verify_2fa_endpoint ascii_unicode toy_crypto toy_process (lit "000000") 29 store1
  = App.HTTPException 500 (App.Error (lit "Verification failed")).
Proof.
  apply (@verify_2fa_endpoint_first_step ascii_unicode toy_crypto toy_process
           (lit "000000") 29 store1 seed1).
  - vm_compute. reflexivity.
  - discriminate.
  - lia.
Defined.

(** X5.  The endpoints that read the seed answer [Seed not decrypted yet]
    exactly when nothing stands at the seed path. *)
Theorem seed_not_decrypted_yet_iff `{Unicode} `{Crypto} (p : App.process) (σ : fs) :
  (forall t_code t_valid,
     App.generate_2fa_endpoint p t_code t_valid σ
     = App.HTTPException 500 (App.Error (lit "Seed not decrypted yet"))
     <-> Os.path_exists σ App.SEED_PATH = false)
  /\ (forall code now,
        code <> [] ->
        App.verify_2fa_endpoint p code now σ
        = App.HTTPException 500 (App.Error (lit "Seed not decrypted yet"))
        <-> Os.path_exists σ App.SEED_PATH = false).
Proof.
  split.
  - intros t_code t_valid. unfold App.generate_2fa_endpoint.
    destruct (Os.path_exists σ App.SEED_PATH) eqn:Hpath.
    + split; [| discriminate].
      destruct (read_seed_exists _ _ Hpath) as [[s ->] | (e & -> & ->)].
      * destruct (App.generate_totp_from_hex s t_code t_valid) as [[c v] | e];
          [discriminate |].
        intros Heq. exfalso. revert Heq. vm_compute. discriminate.
      * intros Heq. exfalso. revert Heq. vm_compute. discriminate.
    + by rewrite (read_seed_missing _ _ Hpath).
  - intros code now Hcode. unfold App.verify_2fa_endpoint.
    destruct code as [|c0 code']; [contradiction |].
    destruct (Os.path_exists σ App.SEED_PATH) eqn:Hpath.
    + split; [| discriminate].
      destruct (read_seed_exists _ _ Hpath) as [[s ->] | (e & -> & ->)].
      * destruct (App.verify_totp_from_hex s (c0 :: code') 1 now) as [b | e];
          [discriminate |].
        intros Heq. exfalso. revert Heq. vm_compute. discriminate.
      * intros Heq. exfalso. revert Heq. vm_compute. discriminate.
    + by rewrite (read_seed_missing _ _ Hpath).
Qed.

(** X6.  What [read_seed] returns is the trimmed text of the file at the
    path, as the text layer reads it (line endings as line feeds): 64
    characters that a further [strip] leaves as they are. *)
Theorem read_seed_returns_trimmed (path : str) (σ : fs) (s : str) :
  App.read_seed path σ = Return s ->
  (exists c, files σ !! path = Some c /\ s = PyStr.strip (Os.universal_newlines c))
  /\ length s = 64%nat
  /\ PyStr.strip s = s.
Proof.
  unfold App.read_seed, Os.read_text.
  destruct (negb (Os.path_exists σ path)); [discriminate |].
  destruct (files σ !! path) as [c |]; [| by destruct (Os.isdir σ path)].
  cbn [mbind result_bind]. cbv zeta.
  destruct (Z.eqb_spec (Z.of_nat (length (PyStr.strip (Os.universal_newlines c)))) 64)
    as [Hlen | _]; [| discriminate].
  cbn [negb]. intros Heq. injection Heq as <-.
  split; [by exists c |]. split; [lia | apply strip_strip].
Qed.

Lemma read_seed_returns_trimmed_witness :
  (exists c, files store1 !! App.SEED_PATH = Some c
             /\ seed1 = PyStr.strip (Os.universal_newlines c))
  /\ length seed1 = 64%nat
  /\ PyStr.strip seed1 = seed1.
Proof.
  apply (read_seed_returns_trimmed App.SEED_PATH store1 seed1).
  vm_compute. reflexivity.
Defined.

(** X7.  What the missing check of [read_seed] leads to: a stored text of 64
    characters with one that is neither a hexadecimal digit nor a blank of
    ASCII is handed on as the seed, and both endpoints answer 500. *)
Theorem stored_non_hex_seed_fails `{Unicode} `{Crypto}
    (p : App.process) (σ : fs) (seed : str) :
  App.read_seed App.SEED_PATH σ = Return seed ->
  Exists (fun c => PyStr.is_hex_digit c = false /\ Codec.Py_ISSPACE c = false) seed ->
  (forall t_code t_valid,
     App.generate_2fa_endpoint p t_code t_valid σ
     = App.HTTPException 500 (App.Error (lit "Failed to generate TOTP")))
  /\ (forall code now,
        code <> [] ->
        App.verify_2fa_endpoint p code now σ
        = App.HTTPException 500 (App.Error (lit "Verification failed"))).
Proof.
  intros Hread [e Hbad]%fromhex_bad_char.
  assert (App.hex_to_base32 seed = Raise (ValueError (lit "Invalid hex seed"))) as Hb32
    by (unfold App.hex_to_base32; by rewrite Hbad).
  split.
  - intros t_code t_valid. unfold App.generate_2fa_endpoint, App.generate_totp_from_hex.
    by rewrite Hread, Hb32.
  - intros code now Hcode. unfold App.verify_2fa_endpoint, App.verify_totp_from_hex.
    destruct code as [|c0 code']; [contradiction |].
    by rewrite Hread, Hb32.
Qed.

Lemma stored_non_hex_seed_fails_witness :
  let σ := Fs {[ App.SEED_PATH := tampered_seed ++ newline ]} {[ lit "/data" ]} in
  App.generate_2fa_endpoint toy_process 1719587640 1719587640 σ
  = App.HTTPException 500 (App.Error (lit "Failed to generate TOTP")).
Proof.
  intros σ.
  apply (@stored_non_hex_seed_fails ascii_unicode toy_crypto toy_process σ tampered_seed).
  - vm_compute. reflexivity.
  - unfold tampered_seed. apply Exists_exists. exists 103. split; [| by vm_compute].
    vm_compute. set_solver.
Defined.

(** ** The outcomes of a save *)



(** X9.  A path without a directory part cannot be saved to: [os.makedirs] is
    called on the empty string and raises, and nothing is written. *)
Theorem save_seed_atomic_bare_filename (seed path : str) (σ : fs) :
  forallb (fun c => negb (c =? Os.sep)) path = true ->
  App.save_seed_atomic seed path σ = (Raise Os.enoent, σ).
Proof.
  intros Hpath. rewrite save_seed_atomic_outcome. cbv zeta.
  unfold Os.dirname. cbv zeta. by rewrite rfind_sep_end_no_sep.
Qed.

Lemma save_seed_atomic_bare_filename_witness :
  App.save_seed_atomic seed0 (lit "seed.txt") (Fs ∅ ∅) = (Raise Os.enoent, Fs ∅ ∅).
Proof. apply save_seed_atomic_bare_filename. vm_compute. reflexivity. Defined.

(** X10.  Whatever its outcome, a save touches no file but the one at the path
    and the temporary one, and removes no directory. *)
Theorem save_seed_atomic_frame (seed path : str) (σ : fs) :
  (forall q, q <> path -> q <> path ++ lit ".tmp" ->
     files (App.save_seed_atomic seed path σ).2 !! q = files σ !! q)
  /\ dirs σ ⊆ dirs (App.save_seed_atomic seed path σ).2.
Proof.
  rewrite save_seed_atomic_outcome. cbv zeta. split.
  - intros q Hpath Htmp.
    repeat (match goal with |- context [if ?b then _ else _] => destruct b end);
      try destruct (Utf8.encode _);
      repeat (match goal with |- context [if ?b then _ else _] => destruct b end);
      cbn [snd files];
      rewrite ?lookup_insert_ne, ?lookup_delete_ne by done; reflexivity.
  - repeat (match goal with |- context [if ?b then _ else _] => destruct b end);
      try destruct (Utf8.encode _);
      repeat (match goal with |- context [if ?b then _ else _] => destruct b end);
      cbn [snd dirs]; set_solver.
Qed.

(** X11.  A directory standing at the path makes the save of a seed
    that can be encoded fail at its replace: the save raises, the temporary
    file is left behind holding the whole text, and what stands at the path
    is untouched. *)
Theorem save_seed_atomic_over_directory (seed path : str) (σ : fs) :
  let d := Os.dirname path in
  let tmp := path ++ lit ".tmp" in
  d <> [] ->
  existsb (Os.is_file σ) (Os.ancestors d) = false ->
  Os.is_file σ d = false ->
  Os.isdir σ tmp = false ->
  encodable (PyStr.strip seed) ->
  Os.isdir σ path = true ->
  exists e σ',
    App.save_seed_atomic seed path σ = (Raise e, σ')
    /\ files σ' !! tmp = Some (PyStr.strip seed ++ newline)
    /\ files σ' !! path = files σ !! path.
Proof.
  intros d tmp Hd Hanc Hfile Htmp Hseed Hpath.
  rewrite save_seed_atomic_outcome. cbv zeta.
  fold d tmp. rewrite bool_decide_eq_false_2 by done.
  rewrite Hanc, Hfile, Htmp, Hpath.
  destruct (encode_cases (PyStr.strip seed ++ newline)) as [[_ [bs ->]] | [Hno _]];
    [| by rewrite encodable_newline in Hno].
  eexists _, _. split; [reflexivity |].
  cbn [files]. split; [apply lookup_insert_eq |].
  apply lookup_insert_ne, tmp_path_ne.
Qed.

Lemma save_seed_atomic_over_directory_witness :
  exists e σ',
    App.save_seed_atomic seed0 App.SEED_PATH (Fs ∅ {[ App.SEED_PATH ]}) = (Raise e, σ')
    /\ files σ' !! (App.SEED_PATH ++ lit ".tmp") = Some (PyStr.strip seed0 ++ newline)
    /\ files σ' !! App.SEED_PATH = files (Fs ∅ {[ App.SEED_PATH ]}) !! App.SEED_PATH.
Proof.
  apply (save_seed_atomic_over_directory seed0 App.SEED_PATH (Fs ∅ {[ App.SEED_PATH ]}));
    try (vm_compute; (discriminate || reflexivity)).
  apply ascii_encodable. vm_compute. repeat constructor; discriminate.
Defined.

(** X27.  A seed that holds a surrogate code point cannot be written: the
    text layer raises [UnicodeEncodeError] at the write, after the
    temporary file has been created; the save leaves the temporary file
    empty and what stands at the path untouched. *)
Theorem save_seed_atomic_unencodable (seed path : str) (σ : fs) :
  let d := Os.dirname path in
  let tmp := path ++ lit ".tmp" in
  d <> [] ->
  existsb (Os.is_file σ) (Os.ancestors d) = false ->
  Os.is_file σ d = false ->
  Os.isdir σ tmp = false ->
  ¬ encodable (PyStr.strip seed) ->
  exists σ',
    App.save_seed_atomic seed path σ
    = (Raise (UnicodeEncodeError (PyStr.strip seed ++ newline)), σ')
    /\ files σ' !! tmp = Some []
    /\ files σ' !! path = files σ !! path.
Proof.
  intros d tmp Hd Hanc Hfile Htmp Hseed.
  rewrite save_seed_atomic_outcome. cbv zeta.
  fold d tmp. rewrite bool_decide_eq_false_2 by done.
  rewrite Hanc, Hfile, Htmp.
  destruct (encode_cases (PyStr.strip seed ++ newline)) as [[Hyes _] | [_ ->]];
    [by rewrite encodable_newline in Hyes |].
  eexists. split; [reflexivity |].
  cbn [files]. split; [apply lookup_insert_eq |].
  apply lookup_insert_ne, tmp_path_ne.
Qed.

Lemma save_seed_atomic_unencodable_witness :
  exists σ',
    App.save_seed_atomic [0xD800] App.SEED_PATH store1
    = (Raise (UnicodeEncodeError (PyStr.strip [0xD800] ++ newline)), σ')
    /\ files σ' !! (App.SEED_PATH ++ lit ".tmp") = Some []
    /\ files σ' !! App.SEED_PATH = files store1 !! App.SEED_PATH.
Proof.
  apply (save_seed_atomic_unencodable [0xD800] App.SEED_PATH store1);
    try (vm_compute; (discriminate || reflexivity)).
  intros Hseed. apply Forall_cons in Hseed as [Hc _]. discriminate Hc.
Defined.

(** ** Provisioning as a whole *)

Section StripBlanks.
Import PyStr.

Lemma lstrip_blank_app w s :
  Forall (fun c => isspace c = true) w -> lstrip (w ++ s) = lstrip s.
Proof. induction 1 as [|c w Hc _ IH]; cbn [app lstrip]; [done | by rewrite Hc]. Qed.

Lemma rstrip_app_blank s w :
  Forall (fun c => isspace c = true) w -> rstrip (s ++ w) = rstrip s.
Proof.
  intros Hw. unfold rstrip. rewrite rev_app_distr, lstrip_blank_app; [done |].
  by apply Forall_rev.
Qed.

(** White space around a text without any is what [strip] removes. *)
Lemma strip_blank_padded w1 s w2 :
  Forall (fun c => isspace c = true) w1 ->
  Forall (fun c => isspace c = true) w2 ->
  Forall (fun c => isspace c = false) s ->
  strip (w1 ++ s ++ w2) = s.
Proof.
  intros Hw1 Hw2 Hs. unfold strip. rewrite lstrip_blank_app by done.
  destruct Hs as [|c s Hc Hs].
  - cbn [app]. rewrite <- (app_nil_r w2), lstrip_blank_app by done. done.
  - assert (lstrip ((c :: s) ++ w2) = (c :: s) ++ w2) as ->
      by (cbn [app lstrip]; by rewrite Hc).
    rewrite rstrip_app_blank by done.
    unfold rstrip. rewrite lstrip_no_space, rev_involutive; [done |].
    apply Forall_rev. by constructor.
Qed.

End StripBlanks.

Section ProvisionMore.
Context `{Unicode} `{Crypto}.
Import App.

(** What [decrypt_seed_from_bytes] returns satisfies the Seed invariant. *)
Lemma decrypt_seed_from_bytes_sound ciphertext key seed :
  lower_keeps_ascii_hex ->
  decrypt_seed_from_bytes ciphertext key = Return seed ->
  seed_invariant seed.
Proof.
  intros Hlow. unfold decrypt_seed_from_bytes.
  destruct (oaep_sha256_decrypt key ciphertext) as [plaintext | e]; [| discriminate].
  destruct (Utf8.decode plaintext) as [s | e]; [| discriminate].
  cbn [mbind result_bind]. cbv zeta.
  destruct (Z.eqb_spec (Z.of_nat (length (PyStr.strip s))) 64) as [Hlen | _];
    [| discriminate].
  cbn [negb]. rewrite forallb_lower_in_hex_chars by done.
  destruct (forallb PyStr.is_hex_digit (PyStr.strip s)) eqn:Hall; [| discriminate].
  cbn [negb]. intros Heq. injection Heq as <-. split; [lia |].
  apply Forall_forall. intros c Hc. rewrite forallb_forall in Hall.
  by apply Hall, list_elem_of_In.
Qed.

(** A request that passes the decryptor reaches the save, and is answered
    from the outcome of the save. *)
Lemma provision_reaches_save (p : process) key encrypted_seed ciphertext seed σ :
  encrypted_seed <> [] ->
  PRIVATE_KEY p = Some key ->
  b64decode encrypted_seed = Return ciphertext ->
  decrypt_seed_from_bytes ciphertext key = Return seed ->
  decrypt_seed_endpoint p encrypted_seed σ
  = match save_seed_atomic seed SEED_PATH σ with
    | (Raise _, σ') => (HTTPException 500 (Error (lit "Failed to persist seed")), σ')
    | (Return _, σ') => (Ok (), σ')
    end.
Proof.
  intros Hreq Hkey Hb64 Hdec. unfold decrypt_seed_endpoint.
  rewrite Hkey, Hb64, Hdec. by destruct encrypted_seed.
Qed.

(** Any other request is answered without the store being touched. *)
Lemma provision_cases (p : process) (encrypted_seed : str) (σ : fs) :
  (exists code d, decrypt_seed_endpoint p encrypted_seed σ = (HTTPException code d, σ))
  \/ (exists key ciphertext seed,
        encrypted_seed <> []
        /\ PRIVATE_KEY p = Some key
        /\ b64decode encrypted_seed = Return ciphertext
        /\ decrypt_seed_from_bytes ciphertext key = Return seed).
Proof.
  unfold decrypt_seed_endpoint.
  destruct encrypted_seed as [|c req]; [left; eauto |].
  destruct (PRIVATE_KEY p) as [key |]; [| left; eauto].
  destruct (b64decode (c :: req)) as [ciphertext | e]; [| left; eauto].
  destruct (decrypt_seed_from_bytes ciphertext key) as [seed | ve] eqn:Hdec.
  - right. exists key, ciphertext, seed. by repeat split.
  - left. destruct (is_ValueError ve); eauto.
Qed.

Lemma seed_path_parts :
  Os.dirname SEED_PATH = lit "/data"
  /\ Os.ancestors (lit "/data") = []
  /\ Os.is_root SEED_PATH = false.
Proof. by vm_compute. Qed.

(** The text saved for a valid seed is ASCII, which the text layer
    encodes. *)
Lemma seed_text_encode seed :
  seed_invariant seed -> Utf8.encode (seed ++ newline) = Return (seed ++ newline).
Proof.
  intros [_ Hhex]. unfold Utf8.encode. rewrite encode_opt_ascii; [done |].
  apply Forall_app. split; [| by repeat constructor].
  eapply Forall_impl; [exact Hhex |]. intros c. unfold PyStr.is_hex_digit. lia.
Qed.

(** The text a completed save leaves is read back as the seed. *)
Lemma read_saved_seed seed σ :
  seed_invariant seed ->
  files σ !! SEED_PATH = Some (seed ++ newline) ->
  read_seed SEED_PATH σ = Return seed.
Proof.
  intros Hseed Hfile. rewrite (read_seed_of_text _ _ _ Hfile).
  rewrite universal_newlines_seed by by apply seed_invariant_no_space.
  rewrite strip_newline_no_space by by apply seed_invariant_no_space.
  destruct Hseed as [-> _]. reflexivity.
Qed.

Lemma generate_2fa_endpoint_of_seed (p : process) seed σ t_code t_valid :
  seed_invariant seed ->
  read_seed SEED_PATH σ = Return seed ->
  0 <= t_code ->
  exists code, generate_2fa_endpoint p t_code t_valid σ = Ok (code, 30 - t_valid mod 30).
Proof.
  intros Hseed Hread Ht.
  destruct (hex_seed_secret seed (seed_invariant_valid_hex _ Hseed)) as (b32 & Hb32 & Hkey).
  destruct (generate_otp_Return b32 _ (Pyotp.timecode t_code) Hkey) as (code & Hcode & _).
  { rewrite timecode_nonneg by done. apply Z.div_pos; lia. }
  exists code. unfold generate_2fa_endpoint. rewrite Hread.
  by rewrite (generate_totp_from_hex_of_otp seed b32 t_code t_valid code Hb32 Hcode).
Qed.

Lemma verify_2fa_endpoint_of_seed (p : process) seed σ code now :
  nfkc_fixes_ascii ->
  seed_invariant seed ->
  read_seed SEED_PATH σ = Return seed ->
  code <> [] ->
  30 <= now ->
  (encodable (nfkc code) -> exists valid, verify_2fa_endpoint p code now σ = Ok valid)
  /\ (¬ encodable (nfkc code) ->
      verify_2fa_endpoint p code now σ
      = HTTPException 500 (Error (lit "Verification failed"))).
Proof.
  intros Hnfkc Hseed Hread Hcode Hnow.
  destruct (hex_seed_secret seed (seed_invariant_valid_hex _ Hseed)) as (b32 & Hb32 & Hkey).
  assert (1 <= now / 30) as HC by (apply Z.div_le_lower_bound; lia).
  destruct (generate_otp_Return b32 _ (now / 30 - 1) Hkey) as (c_prev & Hprev & Hprev_ascii);
    [lia |].
  destruct (generate_otp_Return b32 _ (now / 30) Hkey) as (c_cur & Hcur & Hcur_ascii);
    [lia |].
  destruct (generate_otp_Return b32 _ (now / 30 + 1) Hkey) as (c_next & Hnext & Hnext_ascii);
    [lia |].
  unfold verify_2fa_endpoint. destruct code as [|c0 code']; [contradiction |].
  rewrite Hread. unfold verify_totp_from_hex. rewrite Hb32. cbn [mbind result_bind].
  split.
  - intros Henc.
    rewrite (verify_window_1 b32 _ now c_prev c_cur c_next _ _ _
               ltac:(lia) Hprev Hcur Hnext
               (strings_equal_ascii _ c_prev Hnfkc Hprev_ascii Henc)
               (strings_equal_ascii _ c_cur Hnfkc Hcur_ascii Henc)
               (strings_equal_ascii _ c_next Hnfkc Hnext_ascii Henc)).
    eexists. reflexivity.
  - intros Henc.
    by rewrite (verify_window_1_Raise b32 _ now c_prev _
                  ltac:(lia) Hprev (strings_equal_Raise _ c_prev Henc)).
Qed.

End ProvisionMore.

(** X12.  A provisioning request that is answered with an error leaves the seed
    file as it was, the failure to persist included. *)
Theorem provision_failure_keeps_seed `{Unicode} `{Crypto}
    (p : App.process) (encrypted_seed : str) (σ σ' : fs) (status : Z) (d : App.detail) :
  App.decrypt_seed_endpoint p encrypted_seed σ = (App.HTTPException status d, σ') ->
  files σ' !! App.SEED_PATH = files σ !! App.SEED_PATH.
Proof.
  destruct (provision_cases p encrypted_seed σ)
    as [(status' & d' & ->) | (key & ct & seed & Hreq & Hkey & Hb64 & Hdec)].
  - intros Heq. by injection Heq as _ _ <-.
  - rewrite (provision_reaches_save p key _ ct seed σ Hreq Hkey Hb64 Hdec).
    destruct (App.save_seed_atomic seed App.SEED_PATH σ) as [[[] | e] σ1] eqn:Hsave;
      [discriminate |].
    intros Heq. injection Heq as _ _ <-.
    rewrite save_seed_atomic_run in Hsave. by apply save_run_Raise in Hsave.
Qed.

Lemma provision_failure_keeps_seed_witness :
  files (@App.decrypt_seed_endpoint ascii_unicode toy_crypto toy_process
           (7 :: tampered_seed) store1).2 !! App.SEED_PATH
  = files store1 !! App.SEED_PATH.
Proof.
  eapply (@provision_failure_keeps_seed ascii_unicode toy_crypto toy_process
            (7 :: tampered_seed) store1).
  vm_compute. reflexivity.
Defined.

(** X13.  After a provisioning request answered with success the seed
    file holds a valid seed and a newline, the seed being what the
    decryptor returned for the request; [read_seed] returns that seed, and
    [GET /generate-2fa] answers a code at every clock reading since the
    epoch. *)
Theorem provision_then_generate `{Unicode} `{Crypto}
    (p : App.process) (encrypted_seed : str) (σ σ' : fs) :
  lower_keeps_ascii_hex ->
  App.decrypt_seed_endpoint p encrypted_seed σ = (App.Ok (), σ') ->
  exists seed,
    App.seed_invariant seed
    /\ files σ' !! App.SEED_PATH = Some (seed ++ newline)
    /\ files σ' !! (App.SEED_PATH ++ lit ".tmp") = None
    /\ App.read_seed App.SEED_PATH σ' = Return seed
    /\ (exists key ciphertext,
          App.PRIVATE_KEY p = Some key
          /\ b64decode encrypted_seed = Return ciphertext
          /\ App.decrypt_seed_from_bytes ciphertext key = Return seed)
    /\ (forall t_code t_valid,
          0 <= t_code ->
          exists code,
            App.generate_2fa_endpoint p t_code t_valid σ'
            = App.Ok (code, 30 - t_valid mod 30)).
Proof.
  intros Hlow.
  destruct (provision_cases p encrypted_seed σ)
    as [(status' & d' & ->) | (key & ct & seed & Hreq & Hkey & Hb64 & Hdec)];
    [discriminate |].
  rewrite (provision_reaches_save p key _ ct seed σ Hreq Hkey Hb64 Hdec).
  destruct (App.save_seed_atomic seed App.SEED_PATH σ) as [[[] | e] σ1] eqn:Hsave;
    [| discriminate].
  intros Heq. injection Heq as <-.
  apply decrypt_seed_from_bytes_sound in Hdec as Hseed; [| exact Hlow].
  rewrite save_seed_atomic_run in Hsave. apply save_run_Return in Hsave as [Hfile Htmp].
  cbn [concat] in Hfile. rewrite app_nil_r in Hfile.
  rewrite strip_no_space in Hfile by by apply seed_invariant_no_space.
  pose proof (read_saved_seed seed σ1 Hseed Hfile) as Hread.
  exists seed. repeat (split; [assumption |]).
  split; [by exists key, ct |].
  intros t_code t_valid Ht. by apply (generate_2fa_endpoint_of_seed p seed).
Qed.

Lemma provision_then_generate_witness :
  exists seed,
    App.read_seed App.SEED_PATH
      (@App.decrypt_seed_endpoint ascii_unicode toy_crypto toy_process
         (7 :: seed0 ++ newline) (Fs ∅ ∅)).2
    = Return seed.
Proof.
  destruct (@provision_then_generate ascii_unicode toy_crypto toy_process
              (7 :: seed0 ++ newline) (Fs ∅ ∅)
              (@App.decrypt_seed_endpoint ascii_unicode toy_crypto toy_process
                 (7 :: seed0 ++ newline) (Fs ∅ ∅)).2
              ascii_unicode_lower)
    as (seed & _ & _ & _ & Hread & _).
  - vm_compute. reflexivity.
  - exists seed. exact Hread.
Defined.

(** X14.  Provisioning keeps the store well formed: whatever the request and its
    outcome, the seed path is not a directory afterwards and the seed file,
    when there is one, holds a valid seed and a newline. *)
Theorem provision_preserves_store_ok `{Unicode} `{Crypto}
    (p : App.process) (encrypted_seed : str) (σ : fs) :
  lower_keeps_ascii_hex ->
  store_ok σ ->
  store_ok (App.decrypt_seed_endpoint p encrypted_seed σ).2.
Proof.
  intros Hlow [Hdir Hfile].
  destruct (provision_cases p encrypted_seed σ)
    as [(status' & d' & ->) | (key & ct & seed & Hreq & Hkey & Hb64 & Hdec)];
    [by split |].
  rewrite (provision_reaches_save p key _ ct seed σ Hreq Hkey Hb64 Hdec).
  apply decrypt_seed_from_bytes_sound in Hdec as Hseed; [| exact Hlow].
  pose proof (save_seed_atomic_isdir seed App.SEED_PATH σ Hdir) as Hdir'.
  destruct (App.save_seed_atomic seed App.SEED_PATH σ) as [[[] | e] σ1] eqn:Hsave;
    cbn [snd] in *; (split; [exact Hdir' |]);
    rewrite save_seed_atomic_run in Hsave.
  - apply save_run_Return in Hsave as [Hnew _].
    cbn [concat] in Hnew. rewrite app_nil_r in Hnew.
    rewrite strip_no_space in Hnew by by apply seed_invariant_no_space.
    right. by exists seed.
  - apply save_run_Raise in Hsave. by rewrite Hsave.
Qed.

Lemma store1_ok : store_ok store1.
Proof.
  split; [by vm_compute |]. right. exists seed1. split; [| by vm_compute].
  split; [done |]. unfold seed1. vm_compute. repeat constructor.
Qed.

Lemma provision_preserves_store_ok_witness :
  store_ok (@App.decrypt_seed_endpoint ascii_unicode toy_crypto toy_process
              (7 :: seed0 ++ newline) store1).2.
Proof.
  apply (@provision_preserves_store_ok ascii_unicode toy_crypto toy_process).
  - exact ascii_unicode_lower.
  - exact store1_ok.
Defined.

(** X15.  A request whose plaintext decodes but is not 64 hexadecimal digits once
    trimmed is answered 400 with the text of the [ValueError], and the
    store is left as it was. *)
Theorem provision_invalid_seed_format `{Unicode} `{Crypto}
    (p : App.process) (key : private_key) (encrypted_seed : str)
    (ciphertext plaintext : bytes) (s : str) (σ : fs) :
  lower_keeps_ascii_hex ->
  encrypted_seed <> [] ->
  App.PRIVATE_KEY p = Some key ->
  b64decode encrypted_seed = Return ciphertext ->
  oaep_sha256_decrypt key ciphertext = Return plaintext ->
  Utf8.decode plaintext = Return s ->
  ¬ App.seed_invariant (PyStr.strip s) ->
  exists msg,
    App.decrypt_seed_endpoint p encrypted_seed σ
    = (App.HTTPException 400 (App.ErrorOf (ValueError msg)), σ)
    /\ (msg = lit "Invalid seed length: expected 64, got "
              ++ str_of_int (Z.of_nat (length (PyStr.strip s)))
        \/ msg = lit "Seed contains non-hex characters").
Proof.
  intros Hlow Hreq Hkey Hb64 Hdec Htext Hbad.
  pose proof (decrypt_seed_from_bytes_text _ _ _ _ Hlow Hdec Htext) as Hout.
  cbv zeta in Hout.
  destruct (Z.eqb_spec (Z.of_nat (length (PyStr.strip s))) 64) as [Hlen | Hlen];
    cbn [negb] in Hout.
  - destruct (forallb PyStr.is_hex_digit (PyStr.strip s)) eqn:Hall.
    + exfalso. apply Hbad. split; [lia |].
      apply Forall_forall. intros c Hc. rewrite forallb_forall in Hall.
      by apply Hall, list_elem_of_In.
    + eexists. split; [| by right].
      by rewrite (provision_decrypt_raises p key _ _ _ σ Hreq Hkey Hb64 Hout).
  - eexists. split; [| by left].
    by rewrite (provision_decrypt_raises p key _ _ _ σ Hreq Hkey Hb64 Hout).
Qed.

Lemma provision_invalid_seed_format_witness :
  exists msg,
    @App.decrypt_seed_endpoint ascii_unicode toy_crypto toy_process
      (7 :: tampered_seed) store1
    = (App.HTTPException 400 (App.ErrorOf (ValueError msg)), store1)
    /\ (msg = lit "Invalid seed length: expected 64, got "
              ++ str_of_int (Z.of_nat (length (PyStr.strip tampered_seed)))
        \/ msg = lit "Seed contains non-hex characters").
Proof.
  apply (@provision_invalid_seed_format ascii_unicode toy_crypto toy_process 7
           (7 :: tampered_seed) (7 :: tampered_seed) tampered_seed tampered_seed store1).
  - exact ascii_unicode_lower.
  - discriminate.
  - reflexivity.
  - vm_compute. reflexivity.
  - vm_compute. reflexivity.
  - vm_compute. reflexivity.
  - intros [_ Hhex]. apply Forall_forall with (x := 103) in Hhex; [discriminate |].
    vm_compute. set_solver.
Defined.

(** X16.  A request that decrypts to a valid seed with blanks of ASCII around it
    succeeds when nothing is in the way on the file system: the seed file
    holds the seed and a newline, the directory of the seed file exists,
    and no temporary file is left. *)
Theorem provision_succeeds `{Unicode} `{Crypto}
    (p : App.process) (key : private_key) (encrypted_seed : str)
    (ciphertext : bytes) (w1 seed w2 : str) (σ : fs) :
  lower_keeps_ascii_hex ->
  encrypted_seed <> [] ->
  App.PRIVATE_KEY p = Some key ->
  b64decode encrypted_seed = Return ciphertext ->
  oaep_sha256_decrypt key ciphertext = Return (w1 ++ seed ++ w2) ->
  blank w1 -> blank w2 ->
  App.seed_invariant seed ->
  files σ !! lit "/data" = None ->
  Os.isdir σ App.SEED_PATH = false ->
  Os.isdir σ (App.SEED_PATH ++ lit ".tmp") = false ->
  App.decrypt_seed_endpoint p encrypted_seed σ
  = (App.Ok (),
     Fs (<[App.SEED_PATH := seed ++ newline]>
           (delete (App.SEED_PATH ++ lit ".tmp") (files σ)))
        ({[ lit "/data" ]} ∪ dirs σ)).
Proof.
  intros Hlow Hreq Hkey Hb64 Hdec Hw1 Hw2 Hseed Hdata Hpath Htmp.
  pose proof (seed_invariant_no_space seed Hseed) as Hnospace.
  assert (Utf8.decode (w1 ++ seed ++ w2) = Return (w1 ++ seed ++ w2)) as Htext.
  { apply decode_ascii. rewrite !Forall_app. repeat split.
    - eapply Forall_impl; [exact Hw1 |]. cbn beta. lia.
    - destruct Hseed as [_ Hhex]. eapply Forall_impl; [exact Hhex |].
      intros c. unfold PyStr.is_hex_digit. lia.
    - eapply Forall_impl; [exact Hw2 |]. cbn beta. lia. }
  assert (PyStr.strip (w1 ++ seed ++ w2) = seed) as Hstrip.
  { apply strip_blank_padded; [| | exact Hnospace].
    - eapply Forall_impl; [exact Hw1 |]. by intros c [? _].
    - eapply Forall_impl; [exact Hw2 |]. by intros c [? _]. }
  pose proof (decrypt_seed_from_bytes_text _ _ _ _ Hlow Hdec Htext) as Hout.
  cbv zeta in Hout. rewrite Hstrip in Hout.
  assert (forallb PyStr.is_hex_digit seed = true) as Hall.
  { apply forallb_forall. intros c Hc. destruct Hseed as [_ Hhex].
    rewrite Forall_forall in Hhex. by apply Hhex, list_elem_of_In. }
  pose proof (seed_text_encode seed Hseed) as Henc.
  destruct Hseed as [Hlen _]. rewrite Hlen, Hall in Hout.
  change (negb (Z.of_nat 64 =? 64)) with false in Hout. cbn iota in Hout.
  rewrite (provision_reaches_save p key _ ciphertext seed σ Hreq Hkey Hb64 Hout).
  rewrite save_seed_atomic_outcome. cbv zeta.
  destruct seed_path_parts as (-> & -> & _).
  rewrite bool_decide_eq_false_2 by discriminate.
  cbn [existsb]. unfold Os.is_file. rewrite Hdata, Htmp.
  rewrite strip_no_space by exact Hnospace.
  rewrite Henc, Hpath.
  reflexivity.
Qed.

Lemma provision_succeeds_witness :
  @App.decrypt_seed_endpoint ascii_unicode toy_crypto toy_process
    (7 :: lit "  " ++ seed0 ++ newline) (Fs ∅ ∅)
  = (App.Ok (),
     Fs (<[App.SEED_PATH := seed0 ++ newline]>
           (delete (App.SEED_PATH ++ lit ".tmp") (files (Fs ∅ ∅))))
        ({[ lit "/data" ]} ∪ dirs (Fs ∅ ∅))).
Proof.
  apply (@provision_succeeds ascii_unicode toy_crypto toy_process 7
           (7 :: lit "  " ++ seed0 ++ newline) (7 :: lit "  " ++ seed0 ++ newline)
           (lit "  ") seed0 newline (Fs ∅ ∅)).
  - exact ascii_unicode_lower.
  - discriminate.
  - reflexivity.
  - vm_compute. reflexivity.
  - vm_compute. reflexivity.
  - unfold blank. vm_compute. repeat constructor; discriminate.
  - unfold blank. vm_compute. repeat constructor; discriminate.
  - split; [reflexivity |]. unfold seed0. vm_compute. repeat constructor.
  - reflexivity.
  - vm_compute. reflexivity.
  - vm_compute. reflexivity.
Defined.

(** X17.  On a well-formed store [GET /generate-2fa] answers a code or
    [Seed not decrypted yet], at a clock reading since the epoch.
    [POST /verify-2fa], for a code that is not empty and a clock past the
    first time step, answers [Seed not decrypted yet] when there is no
    seed file; else it answers with a verdict when the normal form of the
    code can be encoded as UTF-8, and with 500 [Verification failed] when
    it cannot. *)
Theorem read_endpoints_on_store_ok `{Unicode} `{Crypto} (p : App.process) (σ : fs) :
  nfkc_fixes_ascii ->
  store_ok σ ->
  (forall t_code t_valid,
     0 <= t_code ->
     match files σ !! App.SEED_PATH with
     | None =>
         App.generate_2fa_endpoint p t_code t_valid σ
         = App.HTTPException 500 (App.Error (lit "Seed not decrypted yet"))
     | Some _ =>
         exists code,
           App.generate_2fa_endpoint p t_code t_valid σ
           = App.Ok (code, 30 - t_valid mod 30)
     end)
  /\ (forall code now,
        code <> [] ->
        30 <= now ->
        match files σ !! App.SEED_PATH with
        | None =>
            App.verify_2fa_endpoint p code now σ
            = App.HTTPException 500 (App.Error (lit "Seed not decrypted yet"))
        | Some _ =>
            (encodable (nfkc code) ->
             exists valid, App.verify_2fa_endpoint p code now σ = App.Ok valid)
            /\ (¬ encodable (nfkc code) ->
                App.verify_2fa_endpoint p code now σ
                = App.HTTPException 500 (App.Error (lit "Verification failed")))
        end).
Proof.
  intros Hnfkc [Hdir [Hnone | (seed & Hseed & Hfile)]].
  - assert (App.read_seed App.SEED_PATH σ = Raise (FileNotFoundError (lit "Seed not found")))
      as Hread.
    { apply read_seed_missing. unfold Os.path_exists, Os.is_file. by rewrite Hnone, Hdir. }
    rewrite Hnone. split.
    + intros t_code t_valid _. unfold App.generate_2fa_endpoint. by rewrite Hread.
    + intros code now Hcode _. unfold App.verify_2fa_endpoint.
      destruct code; [contradiction |]. by rewrite Hread.
  - pose proof (read_saved_seed seed σ Hseed Hfile) as Hread.
    rewrite Hfile. split.
    + intros t_code t_valid Ht. by apply (generate_2fa_endpoint_of_seed p seed).
    + intros code now Hcode Hnow. by apply (verify_2fa_endpoint_of_seed p seed).
Qed.

Lemma read_endpoints_on_store_ok_witness :
  (exists code,
     App.generate_2fa_endpoint toy_process 1719587640 1719587669 store1
     = App.Ok (code, 30 - 1719587669 mod 30))
  /\ @App.verify_2fa_endpoint ascii_unicode toy_crypto toy_process [0xD800] 1719587669 store1
     = App.HTTPException 500 (App.Error (lit "Verification failed")).
Proof.
  destruct (@read_endpoints_on_store_ok ascii_unicode toy_crypto toy_process store1
              ascii_unicode_nfkc store1_ok) as [Hgen Hverify].
  specialize (Hgen 1719587640 1719587669).
  specialize (Hverify [0xD800] 1719587669).
  change (files store1 !! App.SEED_PATH) with (Some (seed1 ++ newline)) in Hgen, Hverify.
  split; [apply Hgen; lia |].
  apply Hverify; [discriminate | lia |].
  intros Henc. apply Forall_cons in Henc as [Hc _]. discriminate Hc.
Defined.

(** X18.  A regular file standing where the directory of the seed file should be
    makes provisioning fail at the save: the answer is 500
    [Failed to persist seed] and nothing is written. *)
Theorem provision_persist_failure `{Unicode} `{Crypto}
    (p : App.process) (key : private_key) (encrypted_seed : str)
    (ciphertext : bytes) (seed c : str) (σ : fs) :
  encrypted_seed <> [] ->
  App.PRIVATE_KEY p = Some key ->
  b64decode encrypted_seed = Return ciphertext ->
  App.decrypt_seed_from_bytes ciphertext key = Return seed ->
  files σ !! lit "/data" = Some c ->
  App.decrypt_seed_endpoint p encrypted_seed σ
  = (App.HTTPException 500 (App.Error (lit "Failed to persist seed")), σ).
Proof.
  intros Hreq Hkey Hb64 Hdec Hdata.
  rewrite (provision_reaches_save p key _ ciphertext seed σ Hreq Hkey Hb64 Hdec).
  rewrite save_seed_atomic_outcome. cbv zeta.
  destruct seed_path_parts as (-> & -> & _).
  rewrite bool_decide_eq_false_2 by discriminate.
  cbn [existsb]. unfold Os.is_file. by rewrite Hdata.
Qed.

Lemma provision_persist_failure_witness :
  let σ := Fs {[ lit "/data" := [] ]} ∅ in
  @App.decrypt_seed_endpoint ascii_unicode toy_crypto toy_process (7 :: seed0) σ
  = (App.HTTPException 500 (App.Error (lit "Failed to persist seed")), σ).
Proof.
  intros σ.
  apply (@provision_persist_failure ascii_unicode toy_crypto toy_process 7
           (7 :: seed0) (7 :: seed0) seed0 [] σ).
  - discriminate.
  - reflexivity.
  - vm_compute. reflexivity.
  - vm_compute. reflexivity.
  - vm_compute. reflexivity.
Defined.

(** X19.  Provisioning is idempotent: a request that has been answered with
    success is answered with success again, and the second run leaves the
    file system exactly as the first one did. *)
Theorem provision_idempotent `{Unicode} `{Crypto}
    (p : App.process) (encrypted_seed : str) (σ σ' : fs) :
  App.decrypt_seed_endpoint p encrypted_seed σ = (App.Ok (), σ') ->
  App.decrypt_seed_endpoint p encrypted_seed σ' = (App.Ok (), σ').
Proof.
  destruct (provision_cases p encrypted_seed σ)
    as [(status' & d' & ->) | (key & ct & seed & Hreq & Hkey & Hb64 & Hdec)];
    [discriminate |].
  rewrite !(provision_reaches_save p key _ ct seed _ Hreq Hkey Hb64 Hdec).
  destruct (App.save_seed_atomic seed App.SEED_PATH σ) as [[[] | e] σ1] eqn:Hsave;
    [| discriminate].
  intros Heq. injection Heq as <-.
  by rewrite (save_seed_atomic_twice _ _ _ _ Hsave).
Qed.

Lemma provision_idempotent_witness :
  let σ' := (@App.decrypt_seed_endpoint ascii_unicode toy_crypto toy_process
               (7 :: seed0) (Fs ∅ ∅)).2 in
  @App.decrypt_seed_endpoint ascii_unicode toy_crypto toy_process (7 :: seed0) σ'
  = (App.Ok (), σ').
Proof.
  intros σ'.
  apply (@provision_idempotent ascii_unicode toy_crypto toy_process (7 :: seed0) (Fs ∅ ∅)).
  vm_compute. reflexivity.
Defined.

(** ** The seed as text and as key *)

Section HexMore.
Import Codec.

Lemma pair_ind {A} (P : list A -> Prop) :
  P [] ->
  (forall a, P [a]) ->
  (forall a b r, P r -> P (a :: b :: r)) ->
  forall l, P l.
Proof.
  intros Hnil Hone Hstep. fix IH 1.
  intros [|a [|b r]]; [exact Hnil | apply Hone | apply Hstep, IH].
Qed.

Lemma length_hex_pairs h : length (hex_pairs h) = Nat.div2 (length h).
Proof.
  induction h as [|a|a b r IH] using pair_ind; [done | done |].
  cbn [hex_pairs length Nat.div2]. by rewrite IH.
Qed.

Lemma upper_not_blank c : Py_ISSPACE (upper c) = Py_ISSPACE c.
Proof. unfold Py_ISSPACE, upper. destruct ((97 <=? c) && (c <=? 122)) eqn:Hc; lia. Qed.

Lemma hex_value_upper c : hex_value (upper c) = hex_value c.
Proof.
  unfold hex_value, upper.
  destruct ((97 <=? c) && (c <=? 122)) eqn:Hc; [| done].
  repeat case_match; try lia; f_equal; lia.
Qed.

(** [fromhex] reads a letter the same in either case. *)
Lemma fromhex_upper h : fromhex (map upper h) = fromhex h.
Proof.
  induction h as [|c s Hc IH|c Hc|c d s Hc IH] using fromhex_ind.
  - done.
  - cbn [map fromhex]. by rewrite upper_not_blank, Hc.
  - cbn [map fromhex]. rewrite upper_not_blank, Hc, hex_value_upper.
    by destruct (hex_value c).
  - cbn [map]. rewrite !fromhex_step by by rewrite ?upper_not_blank.
    by rewrite !hex_value_upper, IH.
Qed.

End HexMore.

Section VerifyMore.
Context `{Unicode}.

(** When the loop of [verify] returns true, the submitted text has matched
    the code of one of the counters looked at. *)
Lemma verify_loop_true secret otp for_time offsets :
  Pyotp.verify_loop secret otp for_time offsets = Return true ->
  exists i c, i ∈ offsets
              /\ Pyotp.at_time secret for_time i = Return c
              /\ Pyotp.strings_equal otp c = Return true.
Proof.
  induction offsets as [|i offsets IH]; cbn [Pyotp.verify_loop]; [discriminate |].
  destruct (Pyotp.at_time secret for_time i) as [c | e] eqn:Hat; [| discriminate].
  cbn [mbind result_bind].
  destruct (Pyotp.strings_equal otp c) as [[] | e] eqn:Heq;
    cbn [mbind result_bind]; [| | discriminate].
  - intros _. exists i, c. split; [apply elem_of_cons; by left | by split].
  - intros (j & c' & Hj & Hc')%IH. exists j, c'. split; [apply elem_of_cons; by right | done].
Qed.

Lemma verify_true secret otp for_time :
  Pyotp.verify secret otp for_time 1 = Return true ->
  exists i c, -1 <= i <= 1
              /\ Pyotp.generate_otp secret (Pyotp.timecode for_time + i) = Return c
              /\ Pyotp.strings_equal otp c = Return true.
Proof.
  unfold Pyotp.verify. change (negb (1 =? 0)) with true. cbn iota.
  change (seqZ (- (1)) (2 * 1 + 1)) with [-1; 0; 1].
  intros (i & c & Hi & Hc)%verify_loop_true. exists i, c. split; [| exact Hc].
  rewrite !elem_of_cons, elem_of_nil in Hi. lia.
Qed.

End VerifyMore.

(** X20.  [hex_to_base32] reads the letters of a seed in either case: two seeds
    that differ in the case of letters only give the same secret, and so
    the same codes. *)
Theorem hex_to_base32_ignores_case (h1 h2 : str) :
  map Codec.upper h1 = map Codec.upper h2 ->
  App.hex_to_base32 h1 = App.hex_to_base32 h2
  /\ (forall t_code t_valid,
        App.generate_totp_from_hex h1 t_code t_valid
        = App.generate_totp_from_hex h2 t_code t_valid).
Proof.
  intros Hcase.
  assert (App.hex_to_base32 h1 = App.hex_to_base32 h2) as Hb32.
  { unfold App.hex_to_base32.
    by rewrite <- (fromhex_upper h1), <- (fromhex_upper h2), Hcase. }
  split; [exact Hb32 |]. intros t_code t_valid.
  unfold App.generate_totp_from_hex. by rewrite Hb32.
Qed.

Lemma hex_to_base32_ignores_case_witness :
  App.hex_to_base32 (lit "0123456789ABCDEF") = App.hex_to_base32 (lit "0123456789abcdef").
Proof.
  apply (hex_to_base32_ignores_case (lit "0123456789ABCDEF") (lit "0123456789abcdef")).
  vm_compute. reflexivity.
Defined.

(** X21.  The octets a valid hexadecimal seed stands for are the key [pyotp]
    computes with: the base32 text [hex_to_base32] returns decodes, after
    [pyotp] has padded it again, to those octets, one for each pair of
    digits. *)
Theorem seed_octets_are_the_hmac_key (h : str) :
  valid_hex h ->
  exists b32,
    App.hex_to_base32 h = Return b32
    /\ Pyotp.byte_secret b32 = Return (hex_pairs h)
    /\ length (hex_pairs h) = Nat.div2 (length h)
    /\ Forall byte_ok (hex_pairs h).
Proof.
  intros Hh. destruct (hex_seed_secret h Hh) as (b32 & Hb32 & Hkey).
  exists b32. split; [exact Hb32 |]. split; [exact Hkey |].
  split; [apply length_hex_pairs |].
  apply (fromhex_bytes_ok h). by apply fromhex_valid.
Qed.

Lemma seed_octets_are_the_hmac_key_witness :
  exists b32,
    App.hex_to_base32 seed0 = Return b32
    /\ Pyotp.byte_secret b32 = Return (hex_pairs seed0)
    /\ length (hex_pairs seed0) = Nat.div2 (length seed0)
    /\ Forall byte_ok (hex_pairs seed0).
Proof.
  apply (seed_octets_are_the_hmac_key seed0).
  split; [| exists 32%nat; reflexivity].
  unfold seed0. vm_compute. repeat constructor.
Defined.

(** X22.  [POST /verify-2fa] accepts nothing but six decimal digits: when it
    answers that the code is valid, the normal form of the submitted text
    is six characters long and all of them are decimal digits. *)
Theorem verify_accepts_only_six_digits `{Unicode} `{Crypto}
    (p : App.process) (code : str) (now : Z) (σ : fs) :
  nfkc_fixes_ascii ->
  App.verify_2fa_endpoint p code now σ = App.Ok true ->
  length (nfkc code) = 6%nat /\ Forall (fun c => 48 <= c <= 57) (nfkc code).
Proof.
  intros Hnfkc. unfold App.verify_2fa_endpoint.
  destruct code as [|c0 code']; [discriminate |].
  destruct (App.read_seed App.SEED_PATH σ) as [seed | e];
    [| destruct (is_FileNotFoundError e); discriminate].
  unfold App.verify_totp_from_hex.
  destruct (App.hex_to_base32 seed) as [b32 | e]; [| discriminate].
  cbn [mbind result_bind].
  destruct (Pyotp.verify b32 (c0 :: code') now 1) as [[] | e] eqn:Hverify;
    [| discriminate | discriminate].
  intros _. apply verify_true in Hverify as (i & c & _ & Hc & Heq).
  apply generate_otp_code in Hc as (m & _ & ->).
  destruct (six_digits m) as [Hlen Hdigits].
  apply strings_equal_true in Heq as ->; [by split | exact Hnfkc |].
  eapply Forall_impl; [exact Hdigits |]. cbn beta. lia.
Qed.

Lemma verify_accepts_only_six_digits_witness :
  length (@nfkc ascii_unicode (lit "181890")) = 6%nat
  /\ Forall (fun c => 48 <= c <= 57) (@nfkc ascii_unicode (lit "181890")).
Proof.
  apply (@verify_accepts_only_six_digits ascii_unicode toy_crypto toy_process
           (lit "181890") 1719587610 (Fs {[ App.SEED_PATH := seed0 ++ newline ]} ∅)).
  - exact ascii_unicode_nfkc.
  - vm_compute. reflexivity.
Defined.

(** X23.  The endpoints that read the seed answer [Failed to read seed]
    exactly when something stands at the seed path that is not a regular
    file whose text, as the text layer reads it, has 64 characters once
    trimmed. *)
Theorem failed_to_read_seed_iff `{Unicode} `{Crypto} (p : App.process) (σ : fs) :
  let unreadable :=
    Os.path_exists σ App.SEED_PATH = true
    /\ forall c, files σ !! App.SEED_PATH = Some c
                 -> length (PyStr.strip (Os.universal_newlines c)) <> 64%nat in
  (forall t_code t_valid,
     App.generate_2fa_endpoint p t_code t_valid σ
     = App.HTTPException 500 (App.Error (lit "Failed to read seed"))
     <-> unreadable)
  /\ (forall code now,
        code <> [] ->
        App.verify_2fa_endpoint p code now σ
        = App.HTTPException 500 (App.Error (lit "Failed to read seed"))
        <-> unreadable).
Proof.
  cbv zeta.
  assert ((exists e, App.read_seed App.SEED_PATH σ = Raise e /\ is_FileNotFoundError e = false)
          <-> Os.path_exists σ App.SEED_PATH = true
              /\ forall c, files σ !! App.SEED_PATH = Some c
                           -> length (PyStr.strip (Os.universal_newlines c)) <> 64%nat)
    as Hread.
  { unfold App.read_seed, Os.read_text, Os.path_exists, Os.is_file.
    destruct (files σ !! App.SEED_PATH) as [c |] eqn:Hfile.
    - cbn [orb negb mbind result_bind]. cbv zeta.
      destruct (Z.eqb_spec (Z.of_nat (length (PyStr.strip (Os.universal_newlines c)))) 64)
        as [Hlen | Hlen]; cbn [negb].
      + split; [by intros (e & ? & _) |]. intros [_ Hc]. exfalso.
        apply (Hc c); [done | lia].
      + split; [| by eauto]. intros _. split; [done |].
        intros c' Hc'. injection Hc' as <-. lia.
    - cbn [orb]. destruct (Os.isdir σ App.SEED_PATH); cbn [negb].
      + split; [| by eauto]. intros _. by split.
      + split; [by intros (e & Heq & He); injection Heq as <- | by intros [? _]]. }
  assert (forall e, is_FileNotFoundError e = false ->
            (if is_FileNotFoundError e
             then @App.HTTPException (str * Z) 500 (App.Error (lit "Seed not decrypted yet"))
             else App.HTTPException 500 (App.Error (lit "Failed to read seed")))
            = App.HTTPException 500 (App.Error (lit "Failed to read seed"))) as Hgen
    by (by intros e ->).
  assert (forall e, is_FileNotFoundError e = false ->
            (if is_FileNotFoundError e
             then @App.HTTPException bool 500 (App.Error (lit "Seed not decrypted yet"))
             else App.HTTPException 500 (App.Error (lit "Failed to read seed")))
            = App.HTTPException 500 (App.Error (lit "Failed to read seed"))) as Hver
    by (by intros e ->).
  split.
  - intros t_code t_valid. rewrite <- Hread. unfold App.generate_2fa_endpoint.
    destruct (App.read_seed App.SEED_PATH σ) as [s | e].
    + split; [| by intros (e & ? & _)].
      destruct (App.generate_totp_from_hex s t_code t_valid) as [[c v] | e];
        [discriminate |].
      intros Heq. exfalso. revert Heq. vm_compute. discriminate.
    + destruct (is_FileNotFoundError e) eqn:He.
      * split; [| by intros (e' & Heq & He'); injection Heq as <-; congruence].
        intros Heq. exfalso. revert Heq. vm_compute. discriminate.
      * split; [by eauto | done].
  - intros code now Hcode. rewrite <- Hread. unfold App.verify_2fa_endpoint.
    destruct code as [|c0 code']; [contradiction |].
    destruct (App.read_seed App.SEED_PATH σ) as [s | e].
    + split; [| by intros (e & ? & _)].
      destruct (App.verify_totp_from_hex s (c0 :: code') 1 now) as [b | e];
        [discriminate |].
      intros Heq. exfalso. revert Heq. vm_compute. discriminate.
    + destruct (is_FileNotFoundError e) eqn:He.
      * split; [| by intros (e' & Heq & He'); injection Heq as <-; congruence].
        intros Heq. exfalso. revert Heq. vm_compute. discriminate.
      * split; [by eauto | done].
Qed.

(** ** The counter as [pyotp] hashes it *)

Section CounterFacts.
Import Pyotp.

Lemma le_bytes_value fuel i :
  0 <= i < 2 ^ Z.of_nat fuel ->
  fold_right (fun b acc => b + 256 * acc) 0 (le_bytes fuel i) = i
  /\ Forall byte_ok (le_bytes fuel i).
Proof.
  revert i. induction fuel as [|fuel IH]; intros i Hi; cbn [le_bytes].
  - change (2 ^ Z.of_nat 0) with 1 in Hi. split; [cbn; lia | constructor].
  - destruct (Z.eqb_spec i 0) as [-> | Hne]; [by split |].
    assert (0 <= Z.shiftr i 8 < 2 ^ Z.of_nat fuel) as Hhigh.
    { rewrite Z.shiftr_div_pow2 by lia. rewrite Nat2Z.inj_succ, Z.pow_succ_r in Hi by lia.
      change (2 ^ 8) with 256. split; [apply Z.div_pos; lia |].
      apply Z.div_lt_upper_bound; [lia |].
      pose proof (Z.pow_pos_nonneg 2 (Z.of_nat fuel)). lia. }
    destruct (IH _ Hhigh) as [Hval Hok]. cbn [fold_right]. rewrite Hval.
    change 255 with (Z.ones 8). rewrite Z.land_ones by lia.
    change (2 ^ 8) with 256. split.
    + rewrite Z.shiftr_div_pow2 by lia. change (2 ^ 8) with 256.
      pose proof (Z.div_mod i 256). lia.
    + constructor; [| exact Hok]. unfold byte_ok. apply Z.mod_pos_bound. lia.
Qed.

Lemma length_le_bytes fuel k i :
  0 <= i < 2 ^ (8 * Z.of_nat k) -> (length (le_bytes fuel i) <= k)%nat.
Proof.
  revert fuel i. induction k as [|k IH]; intros fuel i Hi.
  - change (2 ^ (8 * Z.of_nat 0)) with 1 in Hi. assert (i = 0) as -> by lia.
    by destruct fuel.
  - destruct fuel as [|fuel]; cbn [le_bytes length]; [lia |].
    destruct (Z.eqb_spec i 0) as [-> | Hne]; cbn [length]; [lia |].
    apply le_n_S, IH. rewrite Z.shiftr_div_pow2 by lia.
    replace (8 * Z.of_nat (S k)) with (8 + 8 * Z.of_nat k) in Hi by lia.
    rewrite Z.pow_add_r in Hi by lia.
    split; [apply Z.div_pos; lia |].
    apply Z.div_lt_upper_bound; lia.
Qed.

Lemma from_bytes_zeros n bs :
  Codec.from_bytes (repeat 0 n ++ bs) = Codec.from_bytes bs.
Proof.
  unfold Codec.from_bytes. rewrite fold_left_app. f_equal.
  induction n as [|n IH]; [done |]. cbn [repeat fold_left]. exact IH.
Qed.

(** The fuel of [le_bytes] is enough: [int_to_bytestring] returns octets
    that stand for the counter, big endian, and eight of them for a counter
    below [2 ^ 64]. *)
Lemma int_to_bytestring_value i :
  0 <= i ->
  Codec.from_bytes (int_to_bytestring i) = i
  /\ Forall byte_ok (int_to_bytestring i)
  /\ (i < 2 ^ 64 -> length (int_to_bytestring i) = 8%nat).
Proof.
  intros Hi. unfold int_to_bytestring, rjust.
  set (fuel := Z.to_nat (Z.log2 i + 1)).
  assert (0 <= i < 2 ^ Z.of_nat fuel) as Hfuel.
  { unfold fuel. pose proof (Z.log2_nonneg i). rewrite Z2Nat.id by lia.
    split; [done |]. destruct (Z.eq_dec i 0) as [-> | Hne]; [done |].
    replace (Z.log2 i + 1) with (Z.succ (Z.log2 i)) by lia.
    apply Z.log2_spec. lia. }
  destruct (le_bytes_value fuel i Hfuel) as [Hval Hok].
  split; [| split].
  - rewrite from_bytes_zeros. unfold Codec.from_bytes.
    rewrite <- fold_left_rev_right, rev_involutive.
    rewrite <- Hval at 2. clear.
    induction (le_bytes fuel i) as [|b l IH]; cbn [fold_right]; [done |].
    rewrite IH. lia.
  - apply Forall_app. split; [| by apply Forall_rev].
    apply Forall_forall. intros b Hb%list_elem_of_In%repeat_spec. subst b.
    unfold byte_ok. lia.
  - intros Hlt. pose proof (length_le_bytes fuel 8 i) as Hlen.
    rewrite length_app, repeat_length, length_rev.
    change (8 * Z.of_nat 8) with 64 in Hlen. lia.
Qed.

End CounterFacts.

(** ** The key of the process *)

(** X24.  [Server private key not available] is the answer to exactly the
    requests that are not empty and meet a process without a key, and a
    process is without a key exactly when loading it at start failed, the
    failure being recorded. *)
Theorem key_not_available_iff `{Unicode} `{Crypto} :
  (App.PRIVATE_KEY App.startup = None
   <-> exists e, read_binary App.PRIVATE_KEY_PATH ≫= load_pem_private_key = Raise e)
  /\ (App.PRIVATE_KEY App.startup = None <-> App._privkey_load_error App.startup <> None)
  /\ (forall (p : App.process) encrypted_seed σ σ',
        App.decrypt_seed_endpoint p encrypted_seed σ
        = (App.HTTPException 500 (App.Error (lit "Server private key not available")), σ')
        <-> encrypted_seed <> [] /\ App.PRIVATE_KEY p = None /\ σ' = σ).
Proof.
  split; [| split].
  - unfold App.startup, App.load_private_key.
    destruct (read_binary App.PRIVATE_KEY_PATH ≫= load_pem_private_key) as [k | e];
      cbn [App.PRIVATE_KEY].
    + split; [discriminate | by intros [e ?]].
    + split; [by eauto | done].
  - unfold App.startup.
    destruct (App.load_private_key App.PRIVATE_KEY_PATH) as [k | e];
      cbn [App.PRIVATE_KEY App._privkey_load_error]; split; done.
  - intros p encrypted_seed σ σ'. split.
    + unfold App.decrypt_seed_endpoint.
      destruct encrypted_seed as [|c req]; [discriminate |].
      destruct (App.PRIVATE_KEY p) as [key |].
      * destruct (b64decode (c :: req)) as [ciphertext | e]; [| discriminate].
        destruct (App.decrypt_seed_from_bytes ciphertext key) as [seed | ve].
        -- destruct (App.save_seed_atomic seed App.SEED_PATH σ) as [[[] | e] σ1];
             [discriminate |].
           intros Heq. exfalso. revert Heq. vm_compute. discriminate.
        -- destruct (is_ValueError ve); [discriminate |].
           intros Heq. exfalso. revert Heq. vm_compute. discriminate.
      * intros Heq. injection Heq as <-. by repeat split.
    + intros (Hreq & Hkey & ->). by apply provision_without_key.
Qed.

(** ** The shape of the secret *)

Section SecretShape.
Import Codec Rfc4648.

Lemma length_groups bits : length (groups bits) = ((length bits + 4) / 5)%nat.
Proof.
  induction bits as [|a|a b|a b c|a b c d|a b c d e r IH] using chunk5_ind;
    try reflexivity.
  cbn [groups length]. rewrite IH.
  replace (S (S (S (S (S (length r))))) + 4)%nat with (length r + 4 + 1 * 5)%nat by lia.
  rewrite Nat.div_add by lia. lia.
Qed.

Lemma groups_range bits :
  Forall (fun x => 0 <= x <= 1) bits -> Forall (fun g => 0 <= g < 32) (groups bits).
Proof.
  induction bits as [|a|a b|a b c|a b c d|a b c d e r IH] using chunk5_ind;
    intros Hbits; cbn [groups];
    repeat match goal with
    | H : Forall _ (_ :: _) |- _ => apply Forall_cons in H as [? H]
    end;
    repeat (apply Forall_cons; split; [unfold group_value; lia |]);
    first [exact I | by apply Forall_nil | by apply IH].
Qed.

Lemma bit_stream_bits bs : Forall (fun x => 0 <= x <= 1) (bit_stream bs).
Proof.
  unfold bit_stream. induction bs as [|b bs IH]; cbn [flat_map]; [constructor |].
  apply Forall_app. split; [| exact IH].
  assert (forall k, 0 <= bit b k <= 1) as Hbit
    by (intros k; unfold bit; pose proof (Z.mod_pos_bound (b / 2 ^ k) 2); lia).
  unfold octet_bits. repeat (apply Forall_cons; split; [apply Hbit |]).
  first [exact I | by apply Forall_nil].
Qed.

Lemma length_bit_stream bs : length (bit_stream bs) = (8 * length bs)%nat.
Proof.
  unfold bit_stream. induction bs as [|b bs IH]; [done |].
  cbn [flat_map length]. rewrite length_app, IH. cbn [octet_bits length]. lia.
Qed.

Lemma b32tab_in_alphabet g : 0 <= g < 32 -> In (b32tab g) b32alphabet.
Proof.
  intros Hg. unfold b32tab. apply nth_In.
  change (length b32alphabet) with 32%nat. lia.
Qed.

End SecretShape.

(** X25.  The secret [hex_to_base32] hands to [pyotp] for valid hexadecimal
    text of [n] characters has [(4 n + 4) / 5] characters, all of the
    base32 alphabet [A-Z2-7]: the 52 characters of a 256-bit key for a
    seed. *)
Theorem hex_to_base32_shape (h : str) :
  valid_hex h ->
  exists b32,
    App.hex_to_base32 h = Return b32
    /\ length b32 = ((4 * length h + 4) / 5)%nat
    /\ Forall (fun c => In c Codec.b32alphabet) b32.
Proof.
  intros Hh. pose proof (fromhex_valid h Hh) as Hbytes.
  exists (Rfc4648.base32_unpadded (hex_pairs h)). split; [| split].
  - rewrite (hex_to_base32_of_bytes h _ Hbytes). f_equal.
    apply b32encode_unpadded. by eapply fromhex_bytes_ok.
  - unfold Rfc4648.base32_unpadded.
    rewrite length_map, length_groups, length_bit_stream, length_hex_pairs.
    destruct Hh as [_ [k Hk]]. rewrite Hk.
    replace (Nat.div2 (2 * k)) with k; [f_equal; lia |].
    clear. induction k as [|k IH]; [done |].
    replace (2 * S k)%nat with (S (S (2 * k))) by lia. cbn [Nat.div2]. by rewrite <- IH.
  - unfold Rfc4648.base32_unpadded. apply Forall_map.
    eapply Forall_impl; [apply groups_range, bit_stream_bits |].
    intros g. apply b32tab_in_alphabet.
Qed.

Lemma hex_to_base32_shape_witness :
  exists b32,
    App.hex_to_base32 seed0 = Return b32
    /\ length b32 = 52%nat
    /\ Forall (fun c => In c Codec.b32alphabet) b32.
Proof.
  apply (hex_to_base32_shape seed0).
  split; [| exists 32%nat; reflexivity].
  unfold seed0. vm_compute. repeat constructor.
Defined.

(** X26.  [decrypt_seed_from_bytes] returns a seed exactly when the
    decryption succeeds, the plaintext is UTF-8, and its text once trimmed
    is that seed and satisfies the Seed invariant: nothing else is ever
    returned. *)
Theorem decrypt_seed_from_bytes_returns_iff `{Unicode} `{Crypto}
    (ciphertext : bytes) (key : private_key) (seed : str) :
  lower_keeps_ascii_hex ->
  App.decrypt_seed_from_bytes ciphertext key = Return seed
  <-> exists plaintext s,
        oaep_sha256_decrypt key ciphertext = Return plaintext
        /\ Utf8.decode plaintext = Return s
        /\ PyStr.strip s = seed
        /\ App.seed_invariant seed.
Proof.
  intros Hlow. split.
  - intros Hret. pose proof (decrypt_seed_from_bytes_sound _ _ _ Hlow Hret) as Hseed.
    unfold App.decrypt_seed_from_bytes in Hret.
    destruct (oaep_sha256_decrypt key ciphertext) as [plaintext | e] eqn:Hdec;
      [| discriminate].
    destruct (Utf8.decode plaintext) as [s | e] eqn:Htext; [| discriminate].
    cbn [mbind result_bind] in Hret. cbv zeta in Hret.
    destruct (negb _); [discriminate |]. destruct (negb _); [discriminate |].
    injection Hret as Hret. exists plaintext, s.
    split; [reflexivity |]. split; [exact Htext |]. split; [exact Hret | exact Hseed].
  - intros (plaintext & s & Hdec & Htext & <- & Hlen & Hhex).
    rewrite (decrypt_seed_from_bytes_text _ _ _ _ Hlow Hdec Htext). cbv zeta.
    rewrite Hlen. change (negb (Z.of_nat 64 =? 64)) with false. cbn iota.
    assert (forallb PyStr.is_hex_digit (PyStr.strip s) = true) as ->; [| reflexivity].
    apply forallb_forall. intros c Hc. rewrite Forall_forall in Hhex.
    by apply Hhex, list_elem_of_In.
Qed.

Lemma decrypt_seed_from_bytes_returns_iff_witness :
  exists plaintext s,
    @oaep_sha256_decrypt toy_crypto 7 (7 :: seed0 ++ newline) = Return plaintext
    /\ Utf8.decode plaintext = Return s
    /\ PyStr.strip s = seed0
    /\ App.seed_invariant seed0.
Proof.
  apply (@decrypt_seed_from_bytes_returns_iff ascii_unicode toy_crypto
           (7 :: seed0 ++ newline) 7 seed0 ascii_unicode_lower).
  vm_compute. reflexivity.
Defined.
